(** * Wall-Measurement: the material, pricing, quotation, session and export
      logic of the API routes, embedded from the TypeScript sources.

    The embedding:
    - [JS]: the JavaScript built-ins the routes rely on (strings, numbers,
      property reads on object literals, regular expressions, exceptions).
    - [AnalyzeConstruction]: src/app/api/analyze-construction/route.ts
    - [ProcessMedia]: src/app/api/process-media/route.ts
    - [ExportQuotation]: src/app/api/export-quotation/route.ts

    The notions the statements are written with:
    [AnalyzeConstructionSpec], [ProcessMediaSpec], [ExportQuotationSpec],
    and [MatcherSpec], [ExtractorSpec], [UploadSpec], [ExportSpec].

    The properties: [JSFacts], [AnalyzeConstructionProofs],
    [ProcessMediaProofs], [ExportQuotationProofs]; then, on the same
    embedding, [StringFacts], [MatcherProofs] (the matcher returns only
    matches), [ExtractorProofs] and [LineProofs] (the extractor),
    [PricingProofs], [QuotationProofs], [UploadProofs] and
    [ExportProofs]. *)

From Stdlib Require Import ZArith Bool Ascii String List Lia.
From Stdlib Require Import Floats.PrimFloat Floats.SpecFloat Floats.FloatOps Floats.FloatAxioms.
From stdpp Require Import base option list gmap strings fin_maps pretty.

Set Warnings "-inexact-float".

Local Open Scope list_scope.
Local Open Scope string_scope.

(** ** JavaScript built-ins *)
Module JS.

(** *** Characters

    A text is a [string]; each character stands for one UTF-16 code unit
    below 256, so the character tests below are the ECMAScript ones
    restricted to that range. *)

Definition code (c : ascii) : nat := nat_of_ascii c.

Definition between (lo hi : nat) (c : ascii) : bool :=
  (lo <=? code c)%nat && (code c <=? hi)%nat.

Definition codeIs (n : nat) (c : ascii) : bool := (code c =? n)%nat.

(** [\d] *)
Definition isDigit (c : ascii) : bool := between 48 57 c.

(** [\w] = [A-Za-z0-9_] *)
Definition isWord (c : ascii) : bool :=
  between 97 122 c || between 65 90 c || isDigit c || codeIs 95 c.

(** LineTerminator: LF and CR (U+2028 and U+2029 lie above 255). *)
Definition isLineTerminator (c : ascii) : bool := codeIs 10 c || codeIs 13 c.

(** [\s] and the characters removed by [trim]: WhiteSpace and
    LineTerminator, i.e. TAB, LF, VT, FF, CR, SP and NBSP. *)
Definition isSpace (c : ascii) : bool :=
  between 9 13 c || codeIs 32 c || codeIs 160 c.

(** [.] without the s flag *)
Definition isDot (c : ascii) : bool := negb (isLineTerminator c).

Definition isChar (a : ascii) (c : ascii) : bool := Ascii.eqb a c.

Definition oneOf (cs : list ascii) (c : ascii) : bool :=
  existsb (fun a => Ascii.eqb a c) cs.

Definition noneOf (cs : list ascii) (c : ascii) : bool := negb (oneOf cs c).

(** [toLowerCase] of one code unit: A-Z, and U+00C0..U+00DE except the
    multiplication sign U+00D7. *)
Definition lowerChar (c : ascii) : ascii :=
  if between 65 90 c || (between 192 222 c && negb (codeIs 215 c))
  then ascii_of_nat (code c + 32) else c.

(** [toUpperCase] of one character matched by [\w]. *)
Definition upperWordChar (c : ascii) : ascii :=
  if between 97 122 c then ascii_of_nat (code c - 32) else c.

(** *** Strings *)

Definition chars (s : string) : list ascii := list_ascii_of_string s.
Definition str (l : list ascii) : string := string_of_list_ascii l.

Definition toLowerCase (s : string) : string := str (map lowerChar (chars s)).

Fixpoint dropWhile {A} (p : A -> bool) (l : list A) : list A :=
  match l with
  | [] => []
  | a :: l' => if p a then dropWhile p l' else l
  end.

Definition trimStart (s : string) : string := str (dropWhile isSpace (chars s)).

Definition trim (s : string) : string :=
  str (rev (dropWhile isSpace (rev (dropWhile isSpace (chars s))))).

(** [s.includes(key)] *)
Fixpoint includes (s key : string) : bool :=
  String.prefix key s ||
  match s with
  | EmptyString => false
  | String _ s' => includes s' key
  end.

(** [s.split(sep)] for a one-character separator: the pieces between
    successive separators, one more than there are separators. *)
Fixpoint splitAcc (sep : ascii) (cur : list ascii) (l : list ascii) : list string :=
  match l with
  | [] => [str (rev cur)]
  | a :: l' =>
      if Ascii.eqb a sep then str (rev cur) :: splitAcc sep [] l'
      else splitAcc sep (a :: cur) l'
  end.

Definition split (sep : ascii) (s : string) : list string := splitAcc sep [] (chars s).

(** [a.slice(start, end)] on an array, for indices within 0..length or
    beyond it. *)
Definition slice {A} (start stop : nat) (l : list A) : list A :=
  firstn (stop - start) (skipn start l).

(** [s.slice(1)] *)
Definition sliceFrom1 (s : string) : string :=
  match s with
  | EmptyString => EmptyString
  | String _ s' => s'
  end.

(** *** Numbers

    A JavaScript number is an IEEE 754 binary64 value: [float]. *)

Definition number : Type := float.
Bind Scope float_scope with number.

(** [x > 0] *)
Definition gt0 (x : number) : bool := PrimFloat.ltb 0%float x.

(** ToBoolean of a number: false for +0, -0 and NaN. *)
Definition truthyNumber (x : number) : bool :=
  negb (PrimFloat.eqb x 0%float) && negb (PrimFloat.is_nan x).

(** The binary64 value nearest to n/d (ties to even), for n >= 0 and
    d > 0. The quotient is taken with at least 64 significant bits and a
    sticky bit, then rounded once. *)
Definition roundRatio (neg : bool) (n d : Z) : number :=
  if (n =? 0)%Z then (if neg then neg_zero else zero)
  else
    let s := Z.max 0 (Z.log2 d + 66 - Z.log2 n) in
    let q := (n * 2 ^ s / d)%Z in
    let sticky := if ((n * 2 ^ s) mod d =? 0)%Z then 0%Z else 1%Z in
    let m := (2 * q + sticky)%Z in
    SF2Prim (binary_normalize prec emax (if neg then (- m)%Z else m) (- (s + 1)) neg).

Definition digitValue (c : ascii) : Z := Z.of_nat (code c - 48).

Definition digitsValue (ds : list ascii) : Z :=
  fold_left (fun acc c => (10 * acc + digitValue c)%Z) ds 0%Z.

Fixpoint takeWhile {A} (p : A -> bool) (l : list A) : list A :=
  match l with
  | [] => []
  | a :: l' => if p a then a :: takeWhile p l' else []
  end.

(** The exponent part [e[+-]digits] at the head of [l], if there is one. *)
Definition exponentPart (l : list ascii) : Z :=
  match l with
  | e :: l' =>
      if oneOf (chars "eE") e then
        let '(neg, l'') :=
          match l' with
          | sg :: r => if isChar "-" sg then (true, r)
                       else if isChar "+" sg then (false, r) else (false, l')
          | [] => (false, l')
          end in
        let ds := takeWhile isDigit l'' in
        if neg then (- digitsValue ds)%Z else digitsValue ds
      else 0%Z
  | [] => 0%Z
  end.

(** [Number.parseFloat]: leading white space is skipped and the longest
    prefix that is a StrDecimalLiteral is converted; NaN when there is
    none. *)
Definition parseFloat (s : string) : number :=
  let l := dropWhile isSpace (chars s) in
  let '(neg, l) :=
    match l with
    | sg :: r => if isChar "-" sg then (true, r)
                 else if isChar "+" sg then (false, r) else (false, l)
    | [] => (false, l)
    end in
  if String.prefix "Infinity" (str l) then (if neg then neg_infinity else infinity)
  else
    let ip := takeWhile isDigit l in
    let l1 := dropWhile isDigit l in
    let '(fp, l2) :=
      match l1 with
      | d :: r => if isChar "." d then (takeWhile isDigit r, dropWhile isDigit r)
                  else ([], l1)
      | [] => ([], l1)
      end in
    match (ip ++ fp)%list with
    | [] => nan
    | ds =>
        let e := (exponentPart l2 - Z.of_nat (length fp))%Z in
        if (0 <=? e)%Z then roundRatio neg (digitsValue ds * 10 ^ e) 1
        else roundRatio neg (digitsValue ds) (10 ^ (- e))
    end.

(** *** Property reads on object literals

    An object literal used as a table is the list of its declared
    (own) entries, in declaration order; a key that is not declared is
    still found when [Object.prototype] has a member of that name. *)

Definition objectPrototypeKeys : list string :=
  [ "constructor"; "hasOwnProperty"; "isPrototypeOf"; "propertyIsEnumerable";
    "toLocaleString"; "toString"; "valueOf"; "__proto__";
    "__defineGetter__"; "__defineSetter__"; "__lookupGetter__"; "__lookupSetter__" ].

Definition inherited (k : string) : bool :=
  existsb (String.eqb k) objectPrototypeKeys.

(** What a read that is typed as an [A] can yield at run time: an [A], or
    the member [k] of [Object.prototype] (a function, or the prototype
    object itself for [__proto__]); every such member is truthy. *)
Inductive value (A : Type) : Type :=
| Just (a : A)
| Member (k : string).
Arguments Just {A} a.
Arguments Member {A} k.

Definition object (A : Type) : Type := list (string * A).

Fixpoint ownProperty {A} (o : object A) (k : string) : option A :=
  match o with
  | [] => None
  | (k', a) :: o' => if String.eqb k' k then Some a else ownProperty o' k
  end.

(** [o[k]]; [None] is [undefined]. *)
Definition get {A} (o : object A) (k : string) : option (value A) :=
  match ownProperty o k with
  | Some a => Some (Just a)
  | None => if inherited k then Some (Member k) else None
  end.

(** [k in o] *)
Definition hasProperty {A} (o : object A) (k : string) : bool :=
  match get o k with
  | Some _ => true
  | None => false
  end.

(** ToBoolean of the outcome of a read. *)
Definition truthy {A} (truthyA : A -> bool) (x : option (value A)) : bool :=
  match x with
  | Some (Just a) => truthyA a
  | Some (Member _) => true
  | None => false
  end.

(** [x || d] *)
Definition orElse {A} (truthyA : A -> bool) (x : option (value A)) (d : A) : value A :=
  match x with
  | Some v => if truthy truthyA x then v else Just d
  | None => Just d
  end.

(** ToBoolean of a string: false for the empty string only. *)
Definition truthyString (s : string) : bool :=
  match s with
  | EmptyString => false
  | String _ _ => true
  end.

(** [Object.keys(o)] for keys that are not array indices: declaration order. *)
Definition keys {A} (o : object A) : list string := map fst o.

(** [a.find(p)] *)
Fixpoint find {A} (p : A -> bool) (l : list A) : option A :=
  match l with
  | [] => None
  | a :: l' => if p a then Some a else find p l'
  end.

(** *** Regular expressions

    The patterns of the routes are built from: one character of a class,
    a class under [*], [+] or [+?], an optional non-capturing group, a
    numbered capturing group, sequencing and the end anchor [$]. The
    matcher is the backtracking one of ECMAScript: alternatives are tried
    in priority order and the first complete match is kept. *)

Inductive regex : Type :=
| Chr (p : ascii -> bool)          (* one character of the class *)
| Star (p : ascii -> bool)         (* p*  *)
| Plus (p : ascii -> bool)         (* p+  *)
| PlusLazy (p : ascii -> bool)     (* p+? *)
| Opt (r : regex)                  (* (?:r)? *)
| Cat (r1 r2 : regex)              (* r1r2 *)
| Group (i : nat) (r : regex)      (* (r), the i-th capturing group *)
| Eos.                             (* $ *)

Definition captures : Type := list (nat * string).

(** Greedy repetition: take as many characters as possible, give them
    back one at a time while the rest of the pattern fails. *)
Fixpoint star {R} (p : ascii -> bool) (s : list ascii)
    (k : list ascii -> option R) : option R :=
  match s with
  | a :: s' =>
      if p a then
        match star p s' k with
        | Some x => Some x
        | None => k s
        end
      else k s
  | [] => k s
  end.

(** Lazy repetition: try the rest of the pattern first, take one more
    character only when it fails. *)
Fixpoint starLazy {R} (p : ascii -> bool) (s : list ascii)
    (k : list ascii -> option R) : option R :=
  match k s with
  | Some x => Some x
  | None =>
      match s with
      | a :: s' => if p a then starLazy p s' k else None
      | [] => None
      end
  end.

(** The text consumed between the input [s] and its suffix [s']. *)
Definition consumed (s s' : list ascii) : string :=
  str (firstn (length s - length s') s).

Fixpoint run {R} (r : regex) (s : list ascii) (c : captures)
    (k : list ascii -> captures -> option R) : option R :=
  match r with
  | Chr p =>
      match s with
      | a :: s' => if p a then k s' c else None
      | [] => None
      end
  | Star p => star p s (fun s' => k s' c)
  | Plus p =>
      match s with
      | a :: s' => if p a then star p s' (fun s'' => k s'' c) else None
      | [] => None
      end
  | PlusLazy p =>
      match s with
      | a :: s' => if p a then starLazy p s' (fun s'' => k s'' c) else None
      | [] => None
      end
  | Opt r1 =>
      match run r1 s c k with
      | Some x => Some x
      | None => k s c
      end
  | Cat r1 r2 => run r1 s c (fun s' c' => run r2 s' c' k)
  | Group i r1 => run r1 s c (fun s' c' => k s' ((i, consumed s s') :: c'))
  | Eos =>
      match s with
      | [] => k s c
      | _ :: _ => None
      end
  end.

(** A successful match: the text before it, the matched text
    ([match[0]]), the text after it and the captured groups. *)
Record matchResult : Type := MatchResult {
  before : string;
  matched : string;
  after : string;
  groups : captures
}.

(** [match[i]] for i >= 1; [None] is [undefined]. *)
Fixpoint lookupGroup (i : nat) (c : captures) : option string :=
  match c with
  | [] => None
  | (j, s) :: c' => if (i =? j)%nat then Some s else lookupGroup i c'
  end.

Definition group (i : nat) (m : matchResult) : option string :=
  lookupGroup i (groups m).

(** A match starting exactly at the head of [s]. *)
Definition matchHere (r : regex) (pre : list ascii) (s : list ascii) : option matchResult :=
  run r s [] (fun s' c =>
    Some {| before := str (rev pre); matched := consumed s s';
            after := str s'; groups := c |}).

(** The leftmost match: every start index from 0 to the length is tried
    in turn. *)
Fixpoint searchFrom (r : regex) (pre : list ascii) (s : list ascii) : option matchResult :=
  match matchHere r pre s with
  | Some m => Some m
  | None =>
      match s with
      | [] => None
      | a :: s' => searchFrom r (a :: pre) s'
      end
  end.

(** [s.match(r)] for a pattern without flags. *)
Definition exec (r : regex) (s : string) : option matchResult :=
  searchFrom r [] (chars s).

(** [s.match(/^r/)]: a pattern that starts with [^] can only match at
    index 0. *)
Definition execAtStart (r : regex) (s : string) : option matchResult :=
  matchHere r [] (chars s).

(** [s.replace(r, "")] given the match of [r] in [s]. *)
Definition removeMatch (m : option matchResult) (s : string) : string :=
  match m with
  | Some m => before m ++ after m
  | None => s
  end.

(** [s.replace(/\b\w/g, l => l.toUpperCase())]: a word character is at a
    word boundary when the character before it is not a word character
    or when it is the first one. *)
Fixpoint capitalizeWords (prevWord : bool) (l : list ascii) : list ascii :=
  match l with
  | [] => []
  | a :: l' =>
      (if isWord a && negb prevWord then upperWordChar a else a)
        :: capitalizeWords (isWord a) l'
  end.

(** The class [p] cannot take the head of [rest]: a repetition of [p]
    that has reached [rest] ends there. *)
Definition stops (p : ascii -> bool) (rest : list ascii) : Prop :=
  match rest with
  | [] => True
  | c :: _ => p c = false
  end.

Declare Scope regex_scope.
Delimit Scope regex_scope with re.
Bind Scope regex_scope with regex.
Notation "r1 ++ r2" := (Cat r1 r2) : regex_scope.

(** *** Exceptions *)

Inductive exn : Type :=
| Error (message : string)
| TypeError (message : string)
| SyntaxError (message : string).

(** [String(error)] *)
Definition stringOfError (e : exn) : string :=
  match e with
  | Error m => "Error: " ++ m
  | TypeError m => "TypeError: " ++ m
  | SyntaxError m => "SyntaxError: " ++ m
  end.

Inductive outcome (A : Type) : Type :=
| Return (a : A)
| Throw (e : exn).
Arguments Return {A} a.
Arguments Throw {A} e.

Definition LF : ascii := ascii_of_nat 10.

End JS.

(** ** src/app/api/analyze-construction/route.ts *)
Module AnalyzeConstruction.
Import JS.

(** [interface Material]. The [unit] field is declared a string; it holds
    what [standardizeUnit] returned. *)
Record Material : Type := mkMaterial {
  name : string;
  quantity : number;
  unit : value string;
  unitPrice : number;
  totalPrice : number
}.

(** [interface QuotationResult] *)
Record QuotationResult : Type := mkQuotation {
  materials : list Material;
  subtotal : number;
  laborCost : number;
  equipmentCost : number;
  overhead : number;
  totalCost : number;
  projectName : string;
  date : string
}.

(** [\d+(?:\.\d+)?] *)
Definition decimal : regex :=
  (Plus isDigit ++ Opt (Chr (isChar ".") ++ Plus isDigit))%re.

(** The class [[-â€“]] of the third pattern as the source file has it:
    the hyphen, U+00E2, U+20AC and U+201C; the last two lie above 255. *)
Definition dashClass : ascii -> bool := oneOf ["-"%char; ascii_of_nat 226].

(** The class [[-*â€˘]] of [cleanMaterialName]: the hyphen, the asterisk,
    U+00E2, U+20AC and U+02D8; the last two lie above 255. *)
Definition bulletClass : ascii -> bool := oneOf ["-"%char; "*"%char; ascii_of_nat 226].

(** [/(.+?):\s*(\d+(?:\.\d+)?)\s*(\w+)/] *)
Definition pattern0 : regex :=
  (Group 1 (PlusLazy isDot) ++ Chr (isChar ":") ++ Star isSpace ++
   Group 2 decimal ++ Star isSpace ++ Group 3 (Plus isWord))%re.

(** [/(\d+(?:\.\d+)?)\s*(\w+)\s+(?:of\s+)?(.+)/] *)
Definition pattern1 : regex :=
  (Group 1 decimal ++ Star isSpace ++ Group 2 (Plus isWord) ++ Plus isSpace ++
   Opt (Chr (isChar "o") ++ Chr (isChar "f") ++ Plus isSpace) ++
   Group 3 (Plus isDot))%re.

(** [/(.+?)\s*[-â€“]\s*(\d+(?:\.\d+)?)\s*(\w+)/] *)
Definition pattern2 : regex :=
  (Group 1 (PlusLazy isDot) ++ Star isSpace ++ Chr dashClass ++ Star isSpace ++
   Group 2 decimal ++ Star isSpace ++ Group 3 (Plus isWord))%re.

(** The [patterns] array, each pattern with its index. *)
Definition patterns : list (nat * regex) :=
  [(0, pattern0); (1, pattern1); (2, pattern2)].

Definition cleanMaterialName (name : string) : string :=
  let s1 := removeMatch (execAtStart (Plus isDigit ++ Opt (Chr (isChar ".")) ++ Star isSpace)%re name) name in
  let s2 := removeMatch (execAtStart (Chr bulletClass ++ Star isSpace)%re s1) s1 in
  let s3 := removeMatch (exec (Chr (isChar ":") ++ Star isSpace ++ Eos)%re s2) s2 in
  str (capitalizeWords false (chars (trim s3))).

Definition unitMap : object string :=
  [ ("pc", "pieces"); ("pcs", "pieces"); ("piece", "pieces"); ("each", "pieces");
    ("lb", "lbs"); ("pound", "lbs"); ("pounds", "lbs");
    ("ft", "feet"); ("foot", "feet");
    ("yd", "yards"); ("yard", "yards");
    ("sqft", "sq ft"); ("square feet", "sq ft");
    ("cuft", "cu ft"); ("cubic feet", "cu ft");
    ("cuyd", "cu yd"); ("cubic yards", "cu yd") ].

(** [unitMap[unit.toLowerCase()] || unit] *)
Definition standardizeUnit (unit : string) : value string :=
  orElse truthyString (get unitMap (toLowerCase unit)) unit.

(** [match[i]] passed to [Number.parseFloat]: its argument is converted
    to a string first. *)
Definition toStringArg (x : option string) : string :=
  match x with
  | Some s => s
  | None => "undefined"
  end.

(** The assignments to [name], [quantity] and [unit] inside [if (match)]:
    the pattern at index 1 has the quantity first. *)
Definition fields (i : nat) (m : matchResult) : option string * number * option string :=
  if (i =? 1)%nat
  then (group 3 m, parseFloat (toStringArg (group 1 m)), group 2 m)
  else (group 1 m, parseFloat (toStringArg (group 2 m)), group 3 m).

(** [name && quantity > 0 && unit] *)
Definition accepted (name : option string) (quantity : number) (unit : option string) : bool :=
  match name, unit with
  | Some name, Some unit => truthyString name && gt0 quantity && truthyString unit
  | _, _ => false
  end.

(** One turn of the inner loop: the material pushed for this pattern, if
    the pattern matches and the guard holds. *)
Definition attempt (i : nat) (pattern : regex) (trimmedLine : string) : option Material :=
  match exec pattern trimmedLine with
  | Some m =>
      let '(name, quantity, unit) := fields i m in
      if accepted name quantity unit then
        Some {| name := cleanMaterialName (toStringArg name);
                quantity := quantity;
                unit := standardizeUnit (toStringArg unit);
                unitPrice := 0%float;
                totalPrice := 0%float |}
      else None
  | None => None
  end.

(** The inner loop [for (const pattern of patterns)]: the indices of the
    patterns it ran [match] on, and the material pushed; the loop stops
    at the [break] that follows the push. *)
Fixpoint tryPatterns (ps : list (nat * regex)) (trimmedLine : string)
    : list nat * option Material :=
  match ps with
  | [] => ([], None)
  | (i, pattern) :: rest =>
      match attempt i pattern trimmedLine with
      | Some m => ([i], Some m)
      | None =>
          let '(tried, pushed) := tryPatterns rest trimmedLine in
          (i :: tried, pushed)
      end
  end.

(** The body of the outer loop on one line, [materials] being the array
    built so far. *)
Definition processLine (materials : list Material) (line : string) : list Material :=
  let trimmedLine := trim line in
  if negb (truthyString trimmedLine) || (String.length trimmedLine <? 5)%nat
  then materials
  else
    match snd (tryPatterns patterns trimmedLine) with
    | Some m => materials ++ [m]
    | None => materials
    end.

Definition extractMaterialsFromText (text : string) : list Material :=
  let lines := split LF text in
  let materials := fold_left processLine lines [] in
  slice 0 50 materials.

(** [priceDatabase], in declaration order. *)
Definition priceDatabase : object (object number) :=
  [ (* Structural Materials *)
    ("concrete", [("cu yd", 120); ("cu ft", 4.5)]);
    ("ready mix concrete", [("cu yd", 120); ("cu ft", 4.5)]);
    ("steel rebar", [("lbs", 0.75); ("pieces", 8.5)]);
    ("rebar", [("lbs", 0.75); ("pieces", 8.5)]);
    ("lumber", [("pieces", 8.5); ("board ft", 2.25)]);
    ("2x4 lumber", [("pieces", 8.5)]);
    ("2x6 lumber", [("pieces", 12.5)]);
    ("2x8 lumber", [("pieces", 18.5)]);
    ("plywood", [("pieces", 35); ("sq ft", 1.25)]);
    (* Tools *)
    ("hammer", [("pieces", 25)]);
    ("drill", [("pieces", 85)]);
    ("saw", [("pieces", 150)]);
    ("circular saw", [("pieces", 180)]);
    ("screwdriver", [("pieces", 15)]);
    ("wrench", [("pieces", 20)]);
    ("pliers", [("pieces", 18)]);
    ("level", [("pieces", 35)]);
    ("measuring tape", [("pieces", 25)]);
    (* Hardware *)
    ("nails", [("lbs", 3.5); ("pieces", 0.05)]);
    ("screws", [("lbs", 4.2); ("pieces", 0.08)]);
    ("bolts", [("pieces", 1.25)]);
    ("nuts", [("pieces", 0.35)]);
    ("washers", [("pieces", 0.15)]);
    (* Finishing Materials *)
    ("drywall", [("pieces", 15); ("sq ft", 0.65)]);
    ("paint", [("gallons", 45); ("pieces", 45)]);
    ("tile", [("sq ft", 4.25); ("pieces", 2.15)]);
    ("insulation", [("sq ft", 1.2); ("pieces", 45)]);
    (* Equipment *)
    ("ladder", [("pieces", 125)]);
    ("scaffolding", [("pieces", 85)]);
    ("safety helmet", [("pieces", 25)]);
    ("safety gloves", [("pieces", 12)]);
    ("safety glasses", [("pieces", 8)]);
    (* Electrical *)
    ("wire", [("feet", 2.25); ("lbs", 3.8)]);
    ("electrical wire", [("feet", 2.25); ("lbs", 3.8)]);
    ("outlet", [("pieces", 8.5)]);
    ("switch", [("pieces", 6.5)]);
    (* Plumbing *)
    ("pipe", [("feet", 4.8)]);
    ("pvc pipe", [("feet", 4.8)]);
    ("fitting", [("pieces", 3.25)]);
    ("valve", [("pieces", 15.5)]) ]%float.

Definition fallbackPrices : object number :=
  [ ("pieces", 10); ("lbs", 2.5); ("feet", 3.5); ("sq ft", 2.8);
    ("cu ft", 8.5); ("cu yd", 85); ("gallons", 35) ]%float.

(** [Object.keys(priceDatabase).find(...)] together with the sub-table
    [priceDatabase[materialKey]] of the key found: the keys are pairwise
    distinct, so the key found names the entry it was taken from. *)
Definition findMaterialKey (materialName : string) : option (string * object number) :=
  find (fun entry => includes (toLowerCase materialName) (toLowerCase (fst entry)))
       priceDatabase.

Definition getMarketPrice (materialName unit : string) : value number :=
  let fallback := orElse truthyNumber (get fallbackPrices unit) 5%float in
  match findMaterialKey materialName with
  | Some (materialKey, prices) =>
      if truthyString materialKey && truthy truthyNumber (get prices unit)
      then match get prices unit with
           | Some price => price
           | None => fallback
           end
      else fallback
  | None => fallback
  end.

(** [materials.reduce((sum, m) => sum + m.totalPrice, 0)] *)
Definition sumTotalPrice (materials : list Material) : number :=
  fold_left (fun sum m => (sum + totalPrice m)%float) materials 0%float.

(** [videoName.replace(/\.[^/.]+$/, "")] *)
Definition removeExtension (videoName : string) : string :=
  removeMatch
    (exec (Chr (isChar ".") ++ Plus (noneOf ["/"%char; "."%char]) ++ Eos)%re videoName)
    videoName.

(** [generateQuotation]; [today] is what [new Date().toLocaleDateString()]
    returns when the quotation is built. *)
Definition generateQuotation (today : string) (materials : list Material)
    (videoName : string) : QuotationResult :=
  let subtotal := sumTotalPrice materials in
  let laborCost := (subtotal * 0.6)%float in
  let equipmentCost := (subtotal * 0.15)%float in
  let overhead := ((subtotal + laborCost + equipmentCost) * 0.2)%float in
  {| materials := materials;
     subtotal := subtotal;
     laborCost := laborCost;
     equipmentCost := equipmentCost;
     overhead := overhead;
     totalCost := (subtotal + laborCost + equipmentCost + overhead)%float;
     projectName := removeExtension videoName;
     date := today |}.

End AnalyzeConstruction.

(** ** src/app/api/process-media/route.ts *)
Module ProcessMedia.
Import JS.

Definition kSupportedList : object (string * string) :=
  [ ("png", ("image/png", "img"));
    ("jpg", ("image/jpg", "img"));
    ("jpeg", ("image/jpeg", "img"));
    ("mp4", ("video/mp4", "video")) ].

Record SessionData : Type := mkSessionData {
  assetList : list string;
  extList : list string;
  mediaContent : string;
  uploadedAt : N;
  hasVideo : bool
}.

(** The module-level [sessions] map. *)
Abbreviation store := (gmap string SessionData).

(** *** [path.extname] of Node (POSIX), followed as its loop is written *)

Inductive preDot : Type := PreDotNone | PreDotDots | PreDotOther.   (* 0, 1, -1 *)

Record extScan : Type := mkExtScan {
  startDot : option nat;
  startPart : nat;
  endIndex : option nat;
  matchedSlash : bool;
  preDotState : preDot
}.

(** The loop [for (i = path.length - 1; i >= 0; --i)]: [rest] holds the
    characters at indices i-1 down to 0. *)
Fixpoint extnameLoop (i : nat) (rest : list ascii) (st : extScan) : extScan :=
  match rest, i with
  | c :: rest', S j =>
      if isChar "/" c then
        if negb (matchedSlash st)
        then mkExtScan (startDot st) (j + 1) (endIndex st) (matchedSlash st) (preDotState st)
        else extnameLoop j rest' st
      else
        let st1 :=
          match endIndex st with
          | None => mkExtScan (startDot st) (startPart st) (Some (j + 1)) false (preDotState st)
          | Some _ => st
          end in
        let st2 :=
          if isChar "." c then
            match startDot st1 with
            | None => mkExtScan (Some j) (startPart st1) (endIndex st1) (matchedSlash st1) (preDotState st1)
            | Some _ => mkExtScan (startDot st1) (startPart st1) (endIndex st1) (matchedSlash st1) PreDotDots
            end
          else
            match startDot st1 with
            | Some _ => mkExtScan (startDot st1) (startPart st1) (endIndex st1) (matchedSlash st1) PreDotOther
            | None => st1
            end in
        extnameLoop j rest' st2
  | _, _ => st
  end.

Definition extname (path : string) : string :=
  let st := extnameLoop (String.length path) (rev (chars path))
              (mkExtScan None 0 None true PreDotNone) in
  match startDot st, endIndex st with
  | Some sd, Some e =>
      match preDotState st with
      | PreDotNone => ""
      | PreDotDots =>
          if (sd =? e - 1)%nat && (sd =? startPart st + 1)%nat then ""
          else str (slice sd e (chars path))
      | PreDotOther => str (slice sd e (chars path))
      end
  | _, _ => ""
  end.

Definition getExtension (filename : string) : string :=
  sliceFrom1 (toLowerCase (extname filename)).

(** [kSupportedList[ext]?.[0] ?? ""]: a member of [Object.prototype] has
    no element 0 or 1. *)
Definition mimeType (ext : string) : string :=
  match get kSupportedList ext with
  | Some (Just entry) => fst entry
  | _ => ""
  end.

Definition mediaType (ext : string) : string :=
  match get kSupportedList ext with
  | Some (Just entry) => snd entry
  | _ => ""
  end.

(** *** The clock and the handler's monad *)

(** What one request reads from outside: [now k] is the value of the
    k-th call of [Date.now()] made while the request is handled, and
    [random] is [Math.random().toString(36).substr(2, 9)].
    [formDataError] is what [await request.formData()] throws, and
    [jsonError] what [await request.json()] with the destructuring of
    its result throws, when the body of the request is not of the kind
    that is read; the error and its text depend on the body and on the
    engine. *)
Record environment : Type := mkEnvironment {
  now : nat -> N;
  random : string;
  formDataError : exn;
  jsonError : exn
}.

(** A computation of the handler: it reads and writes the [sessions] map
    and either returns or throws; what it wrote before a throw stays. *)
Definition M (A : Type) : Type := store -> store * outcome A.

Definition ret {A} (a : A) : M A := fun sessions => (sessions, Return a).

Definition throw {A} (e : exn) : M A := fun sessions => (sessions, Throw e).

Definition bind {A B} (m : M A) (f : A -> M B) : M B :=
  fun sessions =>
    match m sessions with
    | (sessions', Return a) => f a sessions'
    | (sessions', Throw e) => (sessions', Throw e)
    end.

Notation "x <- m ;; f" := (bind m (fun x => f))
  (at level 100, m at next level, right associativity).

(** [sessions.get(id)], [sessions.has(id)], [sessions.set(id, data)] and
    [sessions.delete(id)] *)
Definition sessionsGet (id : string) : M (option SessionData) :=
  fun sessions => (sessions, Return (sessions !! id)).

Definition sessionsHas (id : string) : M bool :=
  fun sessions => (sessions, Return (bool_decide (is_Some (sessions !! id)))).

Definition sessionsSet (id : string) (data : SessionData) : M unit :=
  fun sessions => (<[id := data]> sessions, Return tt).

Definition sessionsDelete (id : string) : M unit :=
  fun sessions => (delete id sessions, Return tt).

(** *** Requests and responses *)

(** An uploaded file; only its name is read. *)
Record File : Type := mkFile { name : string }.

(** The body of a request: multipart form data with its [mediaFiles]
    entries (all of them files), a JSON object whose [sessionId] and
    [query] are strings or absent, or a body that neither
    [request.formData()] nor [request.json()] can read. *)
Inductive requestBody : Type :=
| FormData (mediaFiles : list File)
| Json (sessionId : option string) (query : option string) (stream : bool)
| Unreadable.

Record request : Type := mkRequest {
  contentType : string;           (* request.headers.get("content-type") || "" *)
  action : option string;         (* url.searchParams.get("action") *)
  body : requestBody
}.

Inductive responseBody : Type :=
| JsonError (error : string)                   (* { error } *)
| JsonUploaded (sessionId message : string)    (* { sessionId, message } *)
| JsonChat (content : string)                  (* { choices: [{ message: { role: "assistant", content } }] } *)
| EventStream (content : string)               (* the same object as text/event-stream *)
| JsonSuccess.                                 (* { success: true } *)

Record response : Type := mkResponse {
  status : nat;
  payload : responseBody
}.

(** [!x] for a string that may be absent *)
Definition falsy (x : option string) : bool :=
  match x with
  | Some s => negb (truthyString s)
  | None => true
  end.

Definition quote : string := String (ascii_of_nat 34) "".

(** *** The handlers *)

Definition uploadAsset (env : environment) (clock : nat) (file : File)
    (description : string) : M string :=
  let ext := getExtension (name file) in
  if negb (hasProperty kSupportedList ext)
  then throw (Error ("Unsupported file extension: " ++ ext))
  else ret ("dummy_asset_" ++ pretty (now env clock)).

Definition deleteAsset (assetId : string) : M unit := ret tt.

Definition placeholder : string :=
  "VILA API is currently disabled. This is a placeholder response.".

(** [sessionData] is what [sessions.get(sessionId)!] evaluated to;
    reading [assetList] of [undefined] throws. *)
Definition chatWithMediaNvcf (sessionData : option SessionData)
    (query : string) (stream : bool) : M string :=
  match sessionData with
  | None => throw (TypeError "Cannot read properties of undefined (reading 'assetList')")
  | Some data =>
      let assetSeq := String.concat "," (assetList data) in
      ret placeholder
  end.

(** The local variables of the upload branch. *)
Record uploadVars : Type := mkUploadVars {
  u_assetList : list string;
  u_extList : list string;
  u_mediaContent : string;
  u_hasVideo : bool
}.

(** The body of [for (const mediaFile of mediaFiles)]. Every file before
    this one called [Date.now()] once, in [uploadAsset]. *)
Definition uploadFile (env : environment) (vars : uploadVars) (mediaFile : File)
    : M uploadVars :=
  let ext := getExtension (name mediaFile) in
  if negb (hasProperty kSupportedList ext)
  then throw (Error (name mediaFile ++ " format is not supported"))
  else
    let hasVideo := if String.eqb (mediaType ext) "video" then true else u_hasVideo vars in
    assetId <- uploadAsset env (length (u_assetList vars)) mediaFile "Reference media file" ;;
    ret {| u_assetList := u_assetList vars ++ [assetId];
           u_extList := u_extList vars ++ [ext];
           u_mediaContent :=
             u_mediaContent vars ++ "<" ++ mediaType ext ++ " src=" ++ quote ++ "data:" ++
             mimeType ext ++ ";asset_id," ++ assetId ++ quote ++ " />";
           u_hasVideo := hasVideo |}.

Fixpoint forEach {A S} (f : S -> A -> M S) (l : list A) (s : S) : M S :=
  match l with
  | [] => ret s
  | a :: l' => s' <- f s a ;; forEach f l' s'
  end.

Definition newSessionId (env : environment) (clock : nat) : string :=
  "session_" ++ pretty (now env clock) ++ "_" ++ random env.

Definition handleUpload (env : environment) (body : requestBody) : M response :=
  match body with
  | FormData mediaFiles =>
      if (length mediaFiles =? 0)%nat
      then ret {| status := 400; payload := JsonError "No media files provided" |}
      else
        vars <- forEach (uploadFile env) mediaFiles (mkUploadVars [] [] "" false) ;;
        if u_hasVideo vars && negb (length mediaFiles =? 1)%nat
        then throw (Error "Only a single video is supported.")
        else
          let sessionId := newSessionId env (length mediaFiles) in
          _ <- sessionsSet sessionId
                 {| assetList := u_assetList vars;
                    extList := u_extList vars;
                    mediaContent := u_mediaContent vars;
                    uploadedAt := now env (length mediaFiles + 1);
                    hasVideo := u_hasVideo vars |} ;;
          ret {| status := 200;
                 payload := JsonUploaded sessionId "Files uploaded successfully" |}
  | _ => throw (formDataError env)
  end.

Definition handleChat (env : environment) (body : requestBody) : M response :=
  match body with
  | Json sessionId query stream =>
      if falsy sessionId
      then ret {| status := 400; payload := JsonError "Invalid or expired session" |}
      else if falsy query
      then ret {| status := 400; payload := JsonError "Query is required" |}
      else
        sessionData <- sessionsGet (default "" sessionId) ;;
        result <- chatWithMediaNvcf sessionData (default "" query) stream ;;
        if stream
        then ret {| status := 200; payload := EventStream result |}
        else ret {| status := 200; payload := JsonChat result |}
  | _ => throw (jsonError env)
  end.

Definition handleCleanup (env : environment) (body : requestBody) : M response :=
  match body with
  | Json sessionId _ _ =>
      known <- (if falsy sessionId then ret false else sessionsHas (default "" sessionId)) ;;
      if known : bool then
        sessionData <- sessionsGet (default "" sessionId) ;;
        match sessionData with
        | None => throw (TypeError "Cannot read properties of undefined (reading 'assetList')")
        | Some data =>
            _ <- forEach (fun _ assetId => deleteAsset assetId) (assetList data) tt ;;
            _ <- sessionsDelete (default "" sessionId) ;;
            ret {| status := 200; payload := JsonSuccess |}
        end
      else ret {| status := 404; payload := JsonError "Session not found" |}
  | _ => throw (jsonError env)
  end.

(** The [try] block of [POST]. *)
Definition handle (env : environment) (request : request) : M response :=
  if includes (contentType request) "multipart/form-data" && falsy (action request)
  then handleUpload env (body request)
  else if bool_decide (action request = Some "chat")
  then handleChat env (body request)
  else if bool_decide (action request = Some "cleanup")
  then handleCleanup env (body request)
  else ret {| status := 400; payload := JsonError "Invalid request" |}.

(** [POST]: whatever the [try] block throws is answered with status 500. *)
Definition POST (env : environment) (request : request) (sessions : store)
    : store * response :=
  match handle env request sessions with
  | (sessions', Return response) => (sessions', response)
  | (sessions', Throw error) =>
      (sessions', {| status := 500; payload := JsonError (stringOfError error) |})
  end.

(** The stores the server can be in: it starts empty and changes only
    through [POST]. *)
Inductive reachable : store -> Prop :=
| reachable_empty : reachable ∅
| reachable_POST env request sessions :
    reachable sessions -> reachable (fst (POST env request sessions)).

End ProcessMedia.

(** ** src/app/api/export-quotation/route.ts *)
Module ExportQuotation.
Import JS.

(** [interface Material] and [interface QuotationData]: a valid quotation
    is a value of this type, every field present and of its declared
    type. *)
Record Material : Type := mkMaterial {
  name : string;
  quantity : number;
  unit : string;
  unitPrice : number;
  totalPrice : number
}.

Record QuotationData : Type := mkQuotationData {
  materials : list Material;
  subtotal : number;
  laborCost : number;
  equipmentCost : number;
  overhead : number;
  totalCost : number;
  projectName : string;
  date : string
}.

(** The number-to-text conversions of the engine, which the template
    calls and this development leaves open. *)
Record formatting : Type := mkFormatting {
  numberToString : number -> string;     (* `${x}` *)
  toFixed2 : number -> string;           (* x.toFixed(2) *)
  toLocaleString : number -> string      (* x.toLocaleString() *)
}.

(** The template is written here with a backquote wherever the source
    has a double quote; [html] puts the double quotes back. The text is
    the UTF-8 encoding of the document. *)
Definition html (template : string) : string :=
  str (map (fun c => if isChar "`" c then ascii_of_nat 34 else c) (chars template)).

(** The text of the template up to [<body>]: the title and the style sheet. *)
Definition documentHead : string :=
  html "
<!DOCTYPE html>
<html>
<head>
    <meta charset=`utf-8`>
    <title>Construction Material Quotation</title>
    <style>
        * { margin: 0; padding: 0; box-sizing: border-box; }
        
        body {
            font-family: 'Arial', sans-serif;
            line-height: 1.6;
            color: #333;
            background: white;
        }
        
        .container {
            max-width: 800px;
            margin: 0 auto;
            padding: 40px 20px;
        }
        
        .header {
            text-align: center;
            margin-bottom: 40px;
            border-bottom: 3px solid #2563eb;
            padding-bottom: 20px;
        }
        
        .header h1 {
            font-size: 28px;
            color: #1e40af;
            margin-bottom: 10px;
        }
        
        .header .company {
            font-size: 18px;
            color: #6b7280;
            margin-bottom: 5px;
        }
        
        .project-info {
            background: #f8fafc;
            padding: 20px;
            border-radius: 8px;
            margin-bottom: 30px;
            display: flex;
            justify-content: space-between;
            align-items: center;
        }
        
        .project-details h2 {
            color: #1e40af;
            font-size: 20px;
            margin-bottom: 5px;
        }
        
        .project-details p {
            color: #6b7280;
            margin-bottom: 3px;
        }
        
        .total-highlight {
            text-align: right;
        }
        
        .total-highlight .amount {
            font-size: 32px;
            font-weight: bold;
            color: #059669;
        }
        
        .total-highlight .label {
            color: #6b7280;
            font-size: 14px;
        }
        
        .section {
            margin-bottom: 30px;
        }
        
        .section h3 {
            color: #1e40af;
            font-size: 18px;
            margin-bottom: 15px;
            border-bottom: 2px solid #e5e7eb;
            padding-bottom: 5px;
        }
        
        .materials-table {
            width: 100%;
            border-collapse: collapse;
            margin-bottom: 20px;
            box-shadow: 0 1px 3px rgba(0,0,0,0.1);
        }
        
        .materials-table th {
            background: #1e40af;
            color: white;
            padding: 12px;
            text-align: left;
            font-weight: 600;
            font-size: 14px;
        }
        
        .materials-table td {
            padding: 10px 12px;
            border-bottom: 1px solid #e5e7eb;
            font-size: 14px;
        }
        
        .materials-table tr:nth-child(even) {
            background: #f8fafc;
        }
        
        .materials-table .text-right {
            text-align: right;
        }
        
        .materials-table .text-center {
            text-align: center;
        }
        
        .cost-summary {
            background: #f8fafc;
            padding: 20px;
            border-radius: 8px;
            border-left: 4px solid #2563eb;
        }
        
        .cost-row {
            display: flex;
            justify-content: space-between;
            padding: 8px 0;
            border-bottom: 1px solid #e5e7eb;
        }
        
        .cost-row:last-child {
            border-bottom: none;
            font-weight: bold;
            font-size: 18px;
            color: #059669;
            border-top: 2px solid #059669;
            padding-top: 12px;
            margin-top: 8px;
        }
        
        .footer {
            margin-top: 40px;
            text-align: center;
            color: #6b7280;
            font-size: 12px;
            border-top: 1px solid #e5e7eb;
            padding-top: 20px;
        }
        
        .terms {
            margin-top: 30px;
            font-size: 12px;
            color: #6b7280;
            line-height: 1.5;
        }
        
        .terms h4 {
            color: #374151;
            margin-bottom: 10px;
        }
    </style>
</head>
".

(** The template of one row of the materials table. *)
Definition materialRow (fmt : formatting) (material : Material) : string :=
  html "
                        <tr>
                            <td><strong>" ++
  name material ++
  html "</strong></td>
                            <td class=`text-center`>" ++
  numberToString fmt (quantity material) ++
  html "</td>
                            <td class=`text-center`>" ++
  unit material ++
  html "</td>
                            <td class=`text-right`>$" ++
  toFixed2 fmt (unitPrice material) ++
  html "</td>
                            <td class=`text-right`><strong>$" ++
  toFixed2 fmt (totalPrice material) ++
  html "</strong></td>
                        </tr>
                    ".

Definition generateProfessionalHTML (fmt : formatting) (generatedOn : string)
    (quotation : QuotationData) : string :=
  documentHead ++
  html "<body>
    <div class=`container`>
        <div class=`header`>
            <h1>CONSTRUCTION MATERIAL QUOTATION</h1>
            <div class=`company`>Professional Construction Services</div>
        </div>
        
        <div class=`project-info`>
            <div class=`project-details`>
                <h2>" ++
  projectName quotation ++
  html "</h2>
                <p><strong>Date:</strong> " ++
  date quotation ++
  html "</p>
                <p><strong>Materials Count:</strong> " ++
  pretty (length (materials quotation)) ++
  html " items</p>
            </div>
            <div class=`total-highlight`>
                <div class=`amount`>$" ++
  toLocaleString fmt (totalCost quotation) ++
  html "</div>
                <div class=`label`>Total Project Cost</div>
            </div>
        </div>
        
        <div class=`section`>
            <h3>Material Breakdown</h3>
            <table class=`materials-table`>
                <thead>
                    <tr>
                        <th style=`width: 45%;`>Material Description</th>
                        <th class=`text-center` style=`width: 12%;`>Qty</th>
                        <th class=`text-center` style=`width: 12%;`>Unit</th>
                        <th class=`text-right` style=`width: 15%;`>Unit Price</th>
                        <th class=`text-right` style=`width: 16%;`>Total</th>
                    </tr>
                </thead>
                <tbody>
                    " ++
  String.concat EmptyString (map (materialRow fmt) (materials quotation)) ++
  html "
                </tbody>
            </table>
        </div>
        
        <div class=`section`>
            <h3>Cost Summary</h3>
            <div class=`cost-summary`>
                <div class=`cost-row`>
                    <span>Materials Subtotal:</span>
                    <span>$" ++
  toFixed2 fmt (subtotal quotation) ++
  html "</span>
                </div>
                <div class=`cost-row`>
                    <span>Labor Cost (60% of materials):</span>
                    <span>$" ++
  toFixed2 fmt (laborCost quotation) ++
  html "</span>
                </div>
                <div class=`cost-row`>
                    <span>Equipment & Tools (15% of materials):</span>
                    <span>$" ++
  toFixed2 fmt (equipmentCost quotation) ++
  html "</span>
                </div>
                <div class=`cost-row`>
                    <span>Overhead & Profit (20%):</span>
                    <span>$" ++
  toFixed2 fmt (overhead quotation) ++
  html "</span>
                </div>
                <div class=`cost-row`>
                    <span>TOTAL PROJECT COST:</span>
                    <span>$" ++
  toFixed2 fmt (totalCost quotation) ++
  html "</span>
                </div>
            </div>
        </div>
        
        <div class=`terms`>
            <h4>Terms & Conditions:</h4>
            <p>• This quotation is valid for 30 days from the date of issue.</p>
            <p>• Prices are subject to change based on material availability and market conditions.</p>
            <p>• Labor costs may vary based on project complexity and timeline.</p>
            <p>• Additional costs may apply for permits, inspections, and unforeseen circumstances.</p>
            <p>• Payment terms: 50% deposit, 50% upon completion.</p>
        </div>
        
        <div class=`footer`>
            <p>This quotation was generated using AI-powered construction material analysis.</p>
            <p>For questions or modifications, please contact our project team.</p>
            <p>Generated on " ++
  generatedOn ++
  html "</p>
        </div>
    </div>
</body>
</html>
".

(** *** The headless browser

    What each call made on puppeteer and on the [stream] module does
    during one request: it returns or it throws. [setContent] and [pdf]
    are given the document that was set as the page's content. *)
Record renderer : Type := mkRenderer {
  importPuppeteer : outcome Datatypes.unit;        (* await import("puppeteer") *)
  launch : outcome Datatypes.unit;                 (* puppeteer.default.launch(...) *)
  newPage : outcome Datatypes.unit;                (* browser.newPage() *)
  setContent : string -> outcome Datatypes.unit;   (* page.setContent(html, ...) *)
  pdf : string -> outcome string;        (* page.pdf(...) *)
  close : outcome Datatypes.unit;                  (* browser.close() *)
  importStream : outcome Datatypes.unit            (* await import("stream"); Readable.from(pdfBuffer) *)
}.

(** The dates read while one request is handled, by the place that reads
    them: [new Date().toLocaleString()] inside the template and
    [Date.now()] in the file name, in the [try] block and in the [catch]
    block. *)
Record clock : Type := mkClock {
  generatedOnInTry : string;
  nowInTry : N;
  generatedOnInCatch : string;
  nowInCatch : N
}.

Definition bind {A B} (m : outcome A) (f : A -> outcome B) : outcome B :=
  match m with
  | Return a => f a
  | Throw e => Throw e
  end.

Notation "x <- m ;; f" := (bind m (fun x => f))
  (at level 100, m at next level, right associativity).

Inductive responseBody : Type :=
| Pdf (buffer : string)
| Html (document : string)
| JsonError (error : string).

Record response : Type := mkResponse {
  status : nat;
  contentType : string;                       (* the Content-Type header *)
  contentDisposition : option string;         (* the Content-Disposition header *)
  payload : responseBody
}.

Definition quote : string := String (ascii_of_nat 34) EmptyString.

Definition jsonResponse (error : string) (status : nat) : response :=
  {| status := status;
     contentType := "application/json";
     contentDisposition := None;
     payload := JsonError error |}.

(** The value of [quotation] once [!quotation] has let it pass. The
    code does not check it against [QuotationData]: it is a value of
    that type, or any other truthy JSON value. For such a value
    [template] is what the template literal of [generateProfessionalHTML]
    evaluates to: a read such as [quotation.materials.length],
    [quotation.totalCost.toLocaleString()] or
    [material.unitPrice.toFixed(2)] throws when the member is missing or
    of another type (as for the empty object); otherwise the document is
    returned, as a function of the time of generation. *)
Inductive received : Type :=
| WellTyped (quotation : QuotationData)
| IllTyped (template : outcome (string -> string)).

(** The call [generateProfessionalHTML(quotation)] made by [POST]. *)
Definition callGenerateProfessionalHTML (fmt : formatting) (generatedOn : string)
    (quotation : received) : outcome string :=
  match quotation with
  | WellTyped quotation => Return (generateProfessionalHTML fmt generatedOn quotation)
  | IllTyped (Return document) => Return (document generatedOn)
  | IllTyped (Throw error) => Throw error
  end.

(** The inner [try] block. The argument of [page.setContent] is
    evaluated after [browser.newPage()] has returned. *)
Definition renderPdf (fmt : formatting) (r : renderer) (c : clock)
    (quotation : received) : outcome response :=
  _ <- importPuppeteer r ;;
  _ <- launch r ;;
  _ <- newPage r ;;
  content <- callGenerateProfessionalHTML fmt (generatedOnInTry c) quotation ;;
  _ <- setContent r content ;;
  pdfBuffer <- pdf r content ;;
  _ <- close r ;;
  _ <- importStream r ;;
  Return {| status := 200;
            contentType := "application/pdf";
            contentDisposition :=
              Some ("attachment; filename=" ++ quote ++ "quotation-" ++
                    pretty (nowInTry c) ++ ".pdf" ++ quote);
            payload := Pdf pdfBuffer |}.

(** The inner [catch] block: it calls [generateProfessionalHTML] again,
    and what that call throws leaves the block. *)
Definition htmlFallback (fmt : formatting) (c : clock) (quotation : received)
    : outcome response :=
  htmlContent <- callGenerateProfessionalHTML fmt (generatedOnInCatch c) quotation ;;
  Return {| status := 200;
            contentType := "text/html";
            contentDisposition :=
              Some ("attachment; filename=" ++ quote ++ "quotation-" ++
                    pretty (nowInCatch c) ++ ".html" ++ quote);
            payload := Html htmlContent |}.

(** [try { ... } catch { ... }] *)
Definition tryCatch {A} (body : outcome A) (handler : outcome A) : outcome A :=
  match body with
  | Return a => Return a
  | Throw _ => handler
  end.

(** The body of a request as [const { quotation } = await request.json()]
    reads it. [Unreadable error]: [request.json()] rejects with [error],
    or the destructuring of its result throws it. [Body quotation]: the
    [quotation] member, [None] when [!quotation] holds (the member is
    missing, null, false, 0 or the empty string). *)
Inductive requestBody : Type :=
| Unreadable (error : exn)
| Body (quotation : option received).

(** The outer [try] block of [POST]. *)
Definition handle (fmt : formatting) (r : renderer) (c : clock) (body : requestBody)
    : outcome response :=
  match body with
  | Unreadable error => Throw error
  | Body None => Return (jsonResponse "Invalid quotation data" 400)
  | Body (Some quotation) =>
      tryCatch (renderPdf fmt r c quotation) (htmlFallback fmt c quotation)
  end.

Definition POST (fmt : formatting) (r : renderer) (c : clock) (body : requestBody)
    : response :=
  match handle fmt r c body with
  | Return response => response
  | Throw _ => jsonResponse "Export failed" 500
  end.

End ExportQuotation.


(** * Notions used in the statements *)

(** ** The extractor, the pricing resolver and the quotation builder *)
Module AnalyzeConstructionSpec.
Import JS AnalyzeConstruction.

(** The material a line contributes, if any: the effect of one turn of
    the outer loop, without the array it appends to. *)
Definition lineMaterial (line : string) : option Material :=
  let trimmedLine := trim line in
  if negb (truthyString trimmedLine) || (String.length trimmedLine <? 5)%nat
  then None
  else snd (tryPatterns patterns trimmedLine).

(** The materials of all lines of a text, in line order, before the cut. *)
Definition matchedMaterials (text : string) : list Material :=
  omap lineMaterial (split LF text).

(** The quantity a pattern parses from a line, when the pattern matches. *)
Definition parsedQuantity (i : nat) (pattern : regex) (trimmedLine : string) : option number :=
  match exec pattern trimmedLine with
  | Some m => Some (snd (fst (fields i m)))
  | None => None
  end.




(** The wording of C4 for one trimmed line: the first pattern that
    matches the line ends the loop and decides the result alone. *)
Definition FirstMatchDecides (trimmedLine : string) : Prop :=
  forall before i p after,
    patterns = (before ++ (i, p) :: after)%list ->
    Forall (fun jq => exec (snd jq) trimmedLine = None) before ->
    exec p trimmedLine <> None ->
    tryPatterns patterns trimmedLine = ((map fst before ++ [i])%list, attempt i p trimmedLine).

(** The shape "<name>: <quantity> <unit>" of C1. A name is a non-empty
    run of characters other than the colon and the line terminators that
    does not start with white space; a quantity is a non-empty run of
    digits; each word of the unit is a non-empty run of [\w]. *)
Definition nameChar (c : ascii) : bool := isDot c && negb (isChar ":" c).

Definition wellFormedName (s : string) : bool :=
  match chars s with
  | [] => false
  | c :: l => negb (isSpace c) && forallb nameChar (c :: l)
  end.

Definition digitString (s : string) : bool :=
  truthyString s && forallb isDigit (chars s).

Definition wordString (s : string) : bool :=
  truthyString s && forallb isWord (chars s).

(** [key] is a case-insensitive substring of [materialName]. *)
Definition keywordOf (materialName key : string) : bool :=
  includes (toLowerCase materialName) (toLowerCase key).

(** The unit-keyed default: the entry of [fallbackPrices], 5 without one. *)
Definition fallbackPrice (unit : string) : number :=
  default 5%float (ownProperty fallbackPrices unit).

End AnalyzeConstructionSpec.

(** ** The session store *)
Module ProcessMediaSpec.
Import JS ProcessMedia.

(** The extension check of the upload loop, [ext in kSupportedList]. *)
Definition supported (file : File) : bool :=
  hasProperty kSupportedList (getExtension (name file)).

(** [mediaType(ext) === "video"] *)
Definition videoExtension (ext : string) : bool := String.eqb (mediaType ext) "video".

Definition isVideo (file : File) : bool := videoExtension (getExtension (name file)).

(** The number of video assets of a session: an asset is a video when the
    extension recorded for it has media type "video". *)
Definition videoAssets (data : SessionData) : nat :=
  length (List.filter videoExtension (extList data)).

(** The request takes the upload branch. *)
Definition isUpload (request : request) : bool :=
  includes (contentType request) "multipart/form-data" && falsy (action request).

(** The identifier an upload request would store its session under. *)
Definition generatedId (env : environment) (request : request) : option string :=
  match body request with
  | FormData mediaFiles =>
      if isUpload request then Some (newSessionId env (length mediaFiles)) else None
  | _ => None
  end.

(** What holds of the record an accepted upload stores. *)
Definition GoodSession (data : SessionData) : Prop :=
  length (assetList data) = length (extList data) /\
  hasVideo data = existsb videoExtension (extList data) /\
  (hasVideo data = true -> length (assetList data) = 1).

(** The last part of C6 as worded, for one store: no request changes a
    stored session, it leaves the session as it is or deletes it. *)
Definition NeverModified (sessions : store) : Prop :=
  forall env request id data,
    sessions !! id = Some data ->
    fst (POST env request sessions) !! id = Some data \/
    fst (POST env request sessions) !! id = None.

Definition chatRequest (sessionId query : string) (stream : bool) : request :=
  mkRequest "application/json" (Some "chat") (Json (Some sessionId) (Some query) stream).

Definition cleanupRequest (sessionId : string) : request :=
  mkRequest "application/json" (Some "cleanup") (Json (Some sessionId) None false).

Definition uploadRequest (mediaFiles : list File) : request :=
  mkRequest "multipart/form-data; boundary=x" None (FormData mediaFiles).

Definition typeErrorResponse : response :=
  {| status := 500;
     payload := JsonError
       "TypeError: Cannot read properties of undefined (reading 'assetList')" |}.

Definition notFoundResponse : response :=
  {| status := 404; payload := JsonError "Session not found" |}.

(** An example run: one video is uploaded, then its session is cleaned
    up. *)
Definition exampleEnv : environment :=
  mkEnvironment (fun k => (1730000000000 + N.of_nat k)%N) "k3j9x0q1z"
    (TypeError "Failed to parse body as FormData.")
    (SyntaxError "Unexpected end of JSON input").

Definition exampleId : string := "session_1730000000001_k3j9x0q1z".

Definition exampleSession : SessionData :=
  {| assetList := ["dummy_asset_1730000000000"];
     extList := ["mp4"];
     mediaContent := "<video src=" ++ quote ++
                     "data:video/mp4;asset_id,dummy_asset_1730000000000" ++ quote ++ " />";
     uploadedAt := 1730000000002;
     hasVideo := true |}.

Definition afterUpload : store :=
  fst (POST exampleEnv (uploadRequest [mkFile "site.mp4"]) ∅).

Definition afterCleanup : store :=
  fst (POST exampleEnv (cleanupRequest exampleId) afterUpload).

End ProcessMediaSpec.

(** ** The export endpoint *)
Module ExportQuotationSpec.
Import JS ExportQuotation.

Definition throws {A} (o : outcome A) : Prop := exists e, o = Throw e.

(** The PDF rendering fails: one of the calls made on the headless
    browser or on the [stream] module throws. [content] is the document
    handed to the page. *)
Definition rendererFails (r : renderer) (content : string) : Prop :=
  throws (importPuppeteer r) \/ throws (launch r) \/ throws (newPage r) \/
  throws (setContent r content) \/ throws (pdf r content) \/
  throws (close r) \/ throws (importStream r).

(** The response of the [catch] block. *)
Definition htmlResponse (fmt : formatting) (c : clock) (quotation : QuotationData) : response :=
  {| status := 200;
     contentType := "text/html";
     contentDisposition :=
       Some ("attachment; filename=" ++ quote ++ "quotation-" ++
             pretty (nowInCatch c) ++ ".html" ++ quote);
     payload := Html (generateProfessionalHTML fmt (generatedOnInCatch c) quotation) |}.

Definition exampleFormatting : formatting :=
  mkFormatting (fun _ => "2") (fun _ => "0.00") (fun _ => "0").

(** A run in which the browser cannot be launched. *)
Definition noBrowser : renderer :=
  {| importPuppeteer := Return tt;
     launch := Throw (Error "Failed to launch the browser process!");
     newPage := Return tt;
     setContent := fun _ => Return tt;
     pdf := fun _ => Return "%PDF-1.4";
     close := Return tt;
     importStream := Return tt |}.

Definition exampleClock : clock :=
  mkClock "11/3/2026, 10:00:00 AM" 1793700000000 "11/3/2026, 10:00:01 AM" 1793700001000.

Definition exampleQuotation : QuotationData :=
  {| materials := [ {| name := "Concrete"; quantity := 2; unit := "cu yd";
                       unitPrice := 0; totalPrice := 0 |} ];
     subtotal := 0; laborCost := 0; equipmentCost := 0; overhead := 0; totalCost := 0;
     projectName := "site"; date := "11/3/2026" |}.

End ExportQuotationSpec.

(** ** What a match is *)
Module MatcherSpec.
Import JS.

(** [matches r w rest c c']: the pattern [r] matches exactly the text [w]
    when [rest] is what follows it, and turns the captures [c] into
    [c']. This says which texts a pattern accepts, not which of them the
    backtracking matcher prefers. *)
Inductive matches : regex -> list ascii -> list ascii -> captures -> captures -> Prop :=
| matches_Chr p a rest c :
    p a = true -> matches (Chr p) [a] rest c c
| matches_Star p w rest c :
    forallb p w = true -> matches (Star p) w rest c c
| matches_Plus p w rest c :
    w <> [] -> forallb p w = true -> matches (Plus p) w rest c c
| matches_PlusLazy p w rest c :
    w <> [] -> forallb p w = true -> matches (PlusLazy p) w rest c c
| matches_Opt_taken r w rest c c' :
    matches r w rest c c' -> matches (Opt r) w rest c c'
| matches_Opt_skipped r rest c :
    matches (Opt r) [] rest c c
| matches_Cat r1 r2 w1 w2 rest c c1 c2 :
    matches r1 w1 (w2 ++ rest) c c1 -> matches r2 w2 rest c1 c2 ->
    matches (Cat r1 r2) (w1 ++ w2) rest c c2
| matches_Group i r w rest c c' :
    matches r w rest c c' -> matches (Group i r) w rest c ((i, str w) :: c')
| matches_Eos c :
    matches Eos [] [] c c.

(** The text of a decimal literal [\d+(?:\.\d+)?]: digits, then
    possibly a point and digits. *)
Definition decimalText (s : string) : bool :=
  let l := chars s in
  match takeWhile isDigit l, dropWhile isDigit l with
  | [], _ => false
  | _ :: _, [] => true
  | _ :: _, d :: fp =>
      isChar "." d && truthyString (str fp) && forallb isDigit fp
  end.

(** A non-empty run of [\w]. *)
Definition wordText (s : string) : bool :=
  truthyString s && forallb isWord (chars s).

End MatcherSpec.

(** ** Notions for the helpers of analyze-construction *)
Module ExtractorSpec.
Import JS AnalyzeConstruction MatcherSpec.

(** What every material pushed by the extractor looks like: the three
    captured texts are a non-empty name without line terminator, a
    decimal literal and a word; the material holds the cleaned name, the
    parsed quantity (above zero), the standardized unit and two zero
    prices. *)
Definition extractedShape (m : Material) : Prop :=
  exists nm q w,
    truthyString nm = true /\ forallb isDot (chars nm) = true /\
    decimalText q = true /\ wordText w = true /\
    gt0 (parseFloat q) = true /\
    m = {| name := cleanMaterialName nm; quantity := parseFloat q;
           unit := standardizeUnit w; unitPrice := 0; totalPrice := 0 |}.

(** A material name as it stands on a line: not empty, no white space
    at either end, no line terminator and no colon. *)
Definition plainName (s : string) : bool :=
  match chars s with
  | [] => false
  | c :: l =>
      negb (isSpace c) && negb (isSpace (List.last l c)) &&
      forallb (fun a => isDot a && negb (isChar ":" a)) (c :: l)
  end.

(** The text does not begin with a digit, a point or white space. *)
Definition startsPlain (s : string) : bool :=
  match chars s with
  | [] => true
  | c :: _ => negb (isDigit c) && negb (isChar "." c) && negb (isSpace c)
  end.

(** A text without any digit. *)
Definition withoutDigit (s : string) : bool :=
  forallb (fun a => negb (isDigit a)) (chars s).

(** A text without any character of the dash class of the third
    pattern. *)
Definition withoutDash (s : string) : bool :=
  forallb (fun a => negb (dashClass a)) (chars s).

(** Somewhere in the text a word character is directly followed by
    white space. *)
Fixpoint wordThenSpace (l : list ascii) : bool :=
  match l with
  | [] => false
  | a :: l' =>
      (isWord a && match l' with b :: _ => isSpace b | [] => false end)
      || wordThenSpace l'
  end.

(** A non-empty run of digits. *)
Definition digitText (s : string) : bool :=
  truthyString s && forallb isDigit (chars s).

(** The values of [unitMap]. *)
Definition canonicalUnits : list string :=
  ["pieces"; "lbs"; "feet"; "yards"; "sq ft"; "cu ft"; "cu yd"].

(** A lower-case ASCII letter. *)
Definition isLower (c : ascii) : bool := between 97 122 c.

(** No word of the text begins with a lower-case ASCII letter:
    [prevWord] tells whether the character before the text is a word
    character. *)
Fixpoint titleCased (prevWord : bool) (l : list ascii) : bool :=
  match l with
  | [] => true
  | a :: l' => (prevWord || negb (isLower a)) && titleCased (isWord a) l'
  end.

(** The keywords of [priceDatabase] that contain a keyword declared
    before them. *)
Definition shadowedKeys : list string :=
  [ "ready mix concrete"; "2x4 lumber"; "2x6 lumber"; "2x8 lumber";
    "circular saw"; "electrical wire"; "pvc pipe" ].

(** [/\.[^/.]+$/] *)
Definition extensionPattern : regex :=
  (Chr (isChar ".") ++ Plus (noneOf ["/"%char; "."%char]) ++ Eos)%re.

(** The text ends with a point followed by a non-empty run of characters
    other than the point and the slash. *)
Definition endsWithExtension (s : string) : bool :=
  let r := rev (chars s) in
  match takeWhile (noneOf ["/"%char; "."%char]) r, dropWhile (noneOf ["/"%char; "."%char]) r with
  | _ :: _, d :: _ => isChar "." d
  | _, _ => false
  end.

End ExtractorSpec.

(** ** Notions for the handlers of process-media *)
Module UploadSpec.
Import JS ProcessMedia.

(** A character that is neither slash nor point. *)
Definition extChar : ascii -> bool := noneOf ["/"%char; "."%char].

(** The state in which the loop of [extname] starts. *)
Definition scanStart : extScan := mkExtScan None 0 None true PreDotNone.

(** The text is empty or ends with a slash: a point that follows it
    begins a path component. *)
Definition endsPart (base : string) : bool :=
  match rev (chars base) with
  | [] => true
  | c :: _ => isChar "/" c
  end.

(** The extensions that pass the check [ext in kSupportedList] of the
    upload loop. *)
Definition acceptedExtensions : list string :=
  ["png"; "jpg"; "jpeg"; "mp4"; "constructor"; "__proto__"].

(** The asset identifier returned by the k-th call of [uploadAsset]
    within one request. *)
Definition assetIdAt (env : environment) (k : nat) : string :=
  "dummy_asset_" ++ pretty (now env k).

(** The tag appended to [mediaContent] for one file. *)
Definition mediaTag (ext assetId : string) : string :=
  "<" ++ mediaType ext ++ " src=" ++ quote ++ "data:" ++ mimeType ext ++
  ";asset_id," ++ assetId ++ quote ++ " />".

(** The tags of the files from the k-th on, in file order. *)
Fixpoint mediaTags (env : environment) (k : nat) (files : list File) : string :=
  match files with
  | [] => ""
  | file :: files' =>
      mediaTag (getExtension (name file)) (assetIdAt env k) ++ mediaTags env (S k) files'
  end.

(** The record an accepted upload of [files] stores. *)
Definition uploadedSession (env : environment) (files : list File) : SessionData :=
  {| assetList := map (assetIdAt env) (seq 0 (length files));
     extList := map (fun file => getExtension (name file)) files;
     mediaContent := mediaTags env 0 files;
     uploadedAt := now env (length files + 1);
     hasVideo := existsb ProcessMediaSpec.isVideo files |}.

(** What an accepted upload records about its files, beyond
    [ProcessMediaSpec.GoodSession]: at least one asset, and only
    extensions that passed the check. *)
Definition StoredSession (data : SessionData) : Prop :=
  assetList data <> [] /\
  Forall (fun ext => hasProperty kSupportedList ext = true) (extList data).

End UploadSpec.

(** ** Notions for the export endpoint *)
Module ExportSpec.
Import JS ExportQuotation.

(** The template throws for the quotation received. *)
Definition templateThrows (quotation : received) : bool :=
  match quotation with
  | IllTyped (Throw _) => true
  | _ => false
  end.

(** The status of the answer, read off the request body. *)
Definition bodyStatus (body : requestBody) : nat :=
  match body with
  | Unreadable _ => 500
  | Body None => 400
  | Body (Some quotation) => if templateThrows quotation then 500 else 200
  end.

End ExportSpec.

(** * Properties *)

(** ** Strings and the matcher *)
Module JSFacts.
Import JS.

(** Facts about one character are settled by trying all 256. *)
Ltac by_all_chars c := destruct c as [[] [] [] [] [] [] [] []]; vm_compute; congruence.

Lemma digit_not_space c : isDigit c = true -> isSpace c = false.
Proof. by_all_chars c. Qed.

Lemma word_not_space c : isWord c = true -> isSpace c = false.
Proof. by_all_chars c. Qed.

Lemma digit_not_LF c : isDigit c = true -> negb (Ascii.eqb c LF) = true.
Proof. by_all_chars c. Qed.

Lemma word_not_LF c : isWord c = true -> negb (Ascii.eqb c LF) = true.
Proof. by_all_chars c. Qed.

Lemma dot_not_LF c : isDot c = true -> negb (Ascii.eqb c LF) = true.
Proof. by_all_chars c. Qed.

Lemma chars_app a b : chars (a ++ b) = (chars a ++ chars b)%list.
Proof.
  induction a as [|c a IH]; simpl; [reflexivity|].
  unfold chars in *. simpl. now rewrite IH.
Qed.

Lemma str_chars s : str (chars s) = s.
Proof. apply string_of_list_ascii_of_string. Qed.

Lemma chars_str l : chars (str l) = l.
Proof. apply list_ascii_of_string_of_list_ascii. Qed.

Lemma length_chars s : length (chars s) = String.length s.
Proof.
  induction s as [|c s IH]; simpl; [reflexivity|].
  unfold chars in *. simpl. now rewrite IH.
Qed.

Lemma truthyString_chars s : truthyString s = true -> exists c l, chars s = c :: l.
Proof. destruct s as [|c s]; [discriminate|]. intros _. exists c, (chars s). reflexivity. Qed.

Lemma forallb_weaken {A} (p q : A -> bool) l :
  (forall a, p a = true -> q a = true) -> forallb p l = true -> forallb q l = true.
Proof.
  intros Hpq. induction l as [|a l IH]; simpl; [reflexivity|].
  intros H. apply andb_prop in H as [Ha Hl]. now rewrite (Hpq _ Ha), IH.
Qed.

(** A text without the separator is its own single piece. *)
Lemma splitAcc_no_sep sep l : forall cur,
  forallb (fun c => negb (Ascii.eqb c sep)) l = true ->
  splitAcc sep cur l = [str (rev cur ++ l)].
Proof.
  induction l as [|a l IH]; intros cur Hl; simpl in *.
  - now rewrite app_nil_r.
  - apply andb_prop in Hl as [Ha Hl]. apply negb_true_iff in Ha. rewrite Ha.
    rewrite (IH _ Hl). simpl. now rewrite <- app_assoc.
Qed.

Lemma split_single_line s :
  forallb (fun c => negb (Ascii.eqb c LF)) (chars s) = true -> split LF s = [s].
Proof.
  intros H. unfold split. rewrite (splitAcc_no_sep _ _ [] H). simpl. now rewrite str_chars.
Qed.

Lemma dropWhile_head {A} (p : A -> bool) a l : p a = false -> dropWhile p (a :: l) = a :: l.
Proof. intros H. simpl. now rewrite H. Qed.

(** A text that neither starts nor ends with white space is left as it
    is by [trim]. *)
Lemma trim_id first middle last :
  isSpace first = false -> isSpace last = false ->
  trim (str (first :: middle ++ [last])) = str (first :: middle ++ [last]).
Proof.
  intros Hf Hl. unfold trim. rewrite chars_str.
  rewrite (dropWhile_head _ _ _ Hf).
  change (first :: middle ++ [last])%list with ((first :: middle) ++ [last])%list.
  rewrite rev_app_distr. change (rev [last]) with [last]. cbn [app].
  rewrite (dropWhile_head _ _ _ Hl).
  change (last :: rev (first :: middle)) with (rev [last] ++ rev (first :: middle))%list.
  now rewrite <- rev_app_distr, rev_involutive.
Qed.

Lemma consumed_app w rest : consumed (w ++ rest) rest = str w.
Proof.
  unfold consumed. rewrite length_app.
  replace (length w + length rest - length rest) with (length w) by lia.
  now rewrite take_app_length.
Qed.

Lemma consumed_eq s w rest : s = (w ++ rest)%list -> consumed s rest = str w.
Proof. intros ->. apply consumed_app. Qed.

Section Repetition.
Context {R : Type} (p : ascii -> bool) (k : list ascii -> option R).

(** A greedy repetition over a run [w] of the class that ends where the
    class stops: when the rest of the pattern matches right after the
    run, that match is the one kept. *)
Lemma star_max w rest x :
  forallb p w = true -> stops p rest -> k rest = Some x ->
  star p (w ++ rest) k = Some x.
Proof.
  intros Hw Hstop Hk. induction w as [|a w IH]; simpl in *.
  - destruct rest as [|c rest]; simpl in *; [assumption|]. now rewrite Hstop.
  - apply andb_prop in Hw as [Ha Hw]. rewrite Ha. now rewrite (IH Hw).
Qed.

(** A lazy repetition over a run [w] of the class: when the rest of the
    pattern fails at every earlier stop and matches after the whole
    run, that match is the one kept. *)
Lemma starLazy_first w rest x :
  forallb p w = true ->
  (forall w1 w2, w = (w1 ++ w2)%list -> w2 <> [] -> k (w2 ++ rest)%list = None) ->
  k rest = Some x ->
  starLazy p (w ++ rest) k = Some x.
Proof.
  intros Hw Hfail Hk. induction w as [|a w IH].
  - simpl. destruct rest; simpl; now rewrite Hk.
  - pose proof (Hfail [] (a :: w) eq_refl ltac:(discriminate)) as H0.
    simpl in *. rewrite H0.
    apply andb_prop in Hw as [Ha Hw]. rewrite Ha.
    apply IH; [assumption|]. intros w1 w2 -> Hne.
    apply (Hfail (a :: w1) w2); [reflexivity|assumption].
Qed.
End Repetition.

Lemma takeWhile_run p w rest :
  forallb p w = true -> stops p rest -> takeWhile p (w ++ rest) = w.
Proof.
  intros Hw Hstop. induction w as [|a w IH]; simpl in *.
  - destruct rest as [|c rest]; simpl in *; [reflexivity|]. now rewrite Hstop.
  - apply andb_prop in Hw as [Ha Hw]. now rewrite Ha, (IH Hw).
Qed.

Lemma find_In {A} (p : A -> bool) l a :
  find p l = Some a -> In a l /\ p a = true.
Proof.
  induction l as [|b l IH]; simpl; [discriminate|].
  destruct (p b) eqn:Hb.
  - intros [= ->]. auto.
  - intros H. destruct (IH H). auto.
Qed.

Lemma find_split {A} (p : A -> bool) before a after :
  Forall (fun b => p b = false) before -> p a = true ->
  find p (before ++ a :: after) = Some a.
Proof.
  induction 1 as [|b before Hb _ IH]; simpl; intros Ha.
  - now rewrite Ha.
  - rewrite Hb. auto.
Qed.

Lemma find_none {A} (p : A -> bool) l :
  Forall (fun b => p b = false) l -> find p l = None.
Proof.
  induction 1 as [|b l Hb _ IH]; simpl; [reflexivity|]. now rewrite Hb.
Qed.

Lemma ownProperty_In {A} (o : object A) k a :
  ownProperty o k = Some a -> exists k', In (k', a) o.
Proof.
  induction o as [|[k' a'] o IH]; simpl; [discriminate|].
  destruct (String.eqb k' k).
  - intros [= ->]. eauto.
  - intros H. destruct (IH H) as [k'' Hin]. eauto.
Qed.

(** A table that declares no member name of [Object.prototype] yields
    the inherited member for such a name. *)
Lemma get_inherited {A} (o : object A) k :
  forallb (fun kv => negb (inherited (fst kv))) o = true ->
  inherited k = true ->
  get o k = Some (Member k).
Proof.
  intros Ho Hk. unfold get.
  assert (Hown : ownProperty o k = None).
  { induction o as [|[k' a] o IH]; simpl in *; [reflexivity|].
    apply andb_prop in Ho as [Hk' Ho]. apply negb_true_iff in Hk'.
    destruct (String.eqb k' k) eqn:E; [|auto].
    apply String.eqb_eq in E. congruence. }
  now rewrite Hown, Hk.
Qed.

(** Multiplication of numbers is commutative. *)
Lemma float_mul_comm (x y : number) : (x * y = y * x)%float.
Proof.
  apply Prim2SF_inj. rewrite !mul_spec. unfold SF64mul, SFmul.
  destruct (Prim2SF x) as [sx|sx| |sx mx ex], (Prim2SF y) as [sy|sy| |sy my ey];
    try reflexivity; rewrite (xorb_comm sx sy); try reflexivity.
  now rewrite (Pos.mul_comm mx my), (Z.add_comm ex ey).
Qed.

End JSFacts.

(** ** The material extractor, the pricing resolver and the quotation builder *)
Module AnalyzeConstructionProofs.
Import JS AnalyzeConstruction AnalyzeConstructionSpec JSFacts.

(** *** The outer loop *)

Lemma processLine_lineMaterial materials line :
  processLine materials line = (materials ++ option_list (lineMaterial line))%list.
Proof.
  unfold processLine, lineMaterial.
  destruct (negb (truthyString (trim line)) || (String.length (trim line) <? 5)%nat).
  - simpl. now rewrite app_nil_r.
  - destruct (snd (tryPatterns patterns (trim line))); simpl.
    + reflexivity.
    + now rewrite app_nil_r.
Qed.

Lemma fold_processLine lines : forall materials,
  fold_left processLine lines materials = (materials ++ omap lineMaterial lines)%list.
Proof.
  induction lines as [|line lines IH]; intros materials; simpl.
  - now rewrite app_nil_r.
  - rewrite IH, processLine_lineMaterial.
    destruct (lineMaterial line); simpl.
    + now rewrite <- app_assoc.
    + now rewrite app_nil_r.
Qed.

Lemma extract_take text :
  extractMaterialsFromText text = take 50 (matchedMaterials text).
Proof.
  unfold extractMaterialsFromText, matchedMaterials, slice.
  now rewrite fold_processLine.
Qed.

(** *** The inner loop *)

Lemma tryPatterns_all_rejected ps line :
  Forall (fun ip => attempt (fst ip) (snd ip) line = None) ps ->
  tryPatterns ps line = (map fst ps, None).
Proof.
  induction 1 as [|[i p] ps Hhd _ IH]; simpl in *.
  - reflexivity.
  - now rewrite Hhd, IH.
Qed.

Lemma tryPatterns_first_accepted before i p after line m :
  Forall (fun ip => attempt (fst ip) (snd ip) line = None) before ->
  attempt i p line = Some m ->
  tryPatterns (before ++ (i, p) :: after) line = ((map fst before ++ [i])%list, Some m).
Proof.
  intros Hbefore Hacc.
  induction Hbefore as [|[j q] before Hhd _ IH]; simpl in *.
  - now rewrite Hacc.
  - now rewrite Hhd, IH.
Qed.

Lemma tryPatterns_pushed ps line m :
  snd (tryPatterns ps line) = Some m ->
  exists i p, In (i, p) ps /\ attempt i p line = Some m.
Proof.
  induction ps as [|[i p] ps IH]; simpl.
  - discriminate.
  - destruct (attempt i p line) as [m'|] eqn:Hatt.
    + simpl. intros [= <-]. exists i, p. auto.
    + destruct (tryPatterns ps line) as [tried pushed]. simpl in *.
      intros H. destruct (IH H) as (j & q & Hin & Hj). exists j, q. auto.
Qed.

(** *** The guard *)

Lemma attempt_quantity i p line m :
  attempt i p line = Some m -> gt0 (quantity m) = true.
Proof.
  unfold attempt.
  destruct (exec p line) as [r|]; [|discriminate].
  destruct (fields i r) as [[nm q] u].
  destruct (accepted nm q u) eqn:Hacc; [|discriminate].
  intros [= <-]. simpl.
  unfold accepted in Hacc.
  destruct nm; [|discriminate]. destruct u; [|discriminate].
  apply andb_prop in Hacc as [Hacc _]. now apply andb_prop in Hacc as [_ Hq].
Qed.



Lemma lineMaterial_quantity line m :
  lineMaterial line = Some m -> gt0 (quantity m) = true.
Proof.
  unfold lineMaterial.
  destruct (negb (truthyString (trim line)) || (String.length (trim line) <? 5)%nat);
    [discriminate|].
  intros H. apply tryPatterns_pushed in H as (i & p & _ & H).
  eapply attempt_quantity, H.
Qed.

(** Every material of the result has a quantity above zero. *)
Lemma extracted_quantity_positive text m :
  In m (extractMaterialsFromText text) -> gt0 (quantity m) = true.
Proof.
  rewrite extract_take. intros Hin.
  apply list_elem_of_In, elem_of_take in Hin as (k & Hk & _).
  apply list_elem_of_lookup_2 in Hk.
  apply list_elem_of_omap in Hk as (line & _ & Hline).
  eapply lineMaterial_quantity, Hline.
Qed.

(** *** The first pattern on a line of the shape "<name>: <quantity> <unit>" *)

(** The match of the first pattern on "<name>: <digits> <word><rest>",
    where the rest does not begin with a word character: the name runs
    up to the colon, and the unit group takes the word and nothing of
    the rest. *)
Lemma pattern0_colon_line n0 N d0 D w0 W rest :
  forallb nameChar (n0 :: N) = true ->
  forallb isDigit (d0 :: D) = true ->
  forallb isWord (w0 :: W) = true ->
  stops isWord rest ->
  matchHere pattern0 []
    ((n0 :: N) ++ ":"%char :: " "%char :: (d0 :: D) ++ " "%char :: (w0 :: W) ++ rest) =
  Some {| before := "";
          matched := str ((n0 :: N) ++ ":"%char :: " "%char :: (d0 :: D) ++ " "%char :: (w0 :: W));
          after := str rest;
          groups := [(3, str (w0 :: W)); (2, str (d0 :: D)); (1, str (n0 :: N))] |}.
Proof.
  intros HN HD HW Hrest.
  cbn [forallb] in HN, HD, HW.
  apply andb_prop in HN as [Hn0 HN], HD as [Hd0 HD], HW as [Hw0 HW].
  unfold matchHere, pattern0, decimal. cbn [run app].
  unfold nameChar in Hn0. apply andb_prop in Hn0 as [Hn0 Hn0'].
  rewrite Hn0.
  apply starLazy_first.
  - clear -HN. induction N as [|a N IH]; cbn [forallb] in *; [reflexivity|].
    apply andb_prop in HN as [Ha HN]. unfold nameChar in Ha.
    apply andb_prop in Ha as [Ha _]. now rewrite Ha, IH.
  - (* before the colon the rest of the pattern fails at once *)
    intros w1 [|a w2] -> Hne; [contradiction|].
    rewrite forallb_app in HN. apply andb_prop in HN as [_ HN]. cbn [forallb] in HN.
    apply andb_prop in HN as [Ha _]. unfold nameChar in Ha. apply andb_prop in Ha as [_ Ha].
    apply negb_true_iff in Ha. cbn [app]. now rewrite Ha.
  - (* at the colon every repetition takes its whole run *)
    replace (isChar ":" ":"%char) with true by reflexivity.
    change (" "%char :: d0 :: D ++ " "%char :: w0 :: W ++ rest)
      with ([" "%char] ++ (d0 :: D ++ " "%char :: w0 :: W ++ rest))%list.
    apply star_max; [reflexivity | simpl; now apply digit_not_space |].
    rewrite Hd0.
    apply star_max; [assumption | reflexivity |].
    replace (isChar "." " "%char) with false by reflexivity.
    change (" "%char :: w0 :: W ++ rest) with ([" "%char] ++ (w0 :: W ++ rest))%list.
    apply star_max; [reflexivity | simpl; now apply word_not_space |].
    rewrite Hw0.
    apply star_max; [assumption | assumption |].
    f_equal. f_equal.
    + apply consumed_eq. cbn [app]. repeat (rewrite <- app_assoc; cbn [app]). reflexivity.
    + f_equal; [|f_equal; [|f_equal]]; f_equal; apply consumed_eq; cbn [app];
        repeat (rewrite <- app_assoc; cbn [app]); reflexivity.
Qed.

(** *** The unit table *)

(** No value of [unitMap] is reached from its own first word: the first
    word of "sq ft" is "sq", which is no key of the table. *)
Lemma unitMap_first_words :
  forallb (fun kv =>
             match ownProperty unitMap
                     (toLowerCase (str (takeWhile isWord (chars (snd kv))))) with
             | Some v => negb (String.eqb v (snd kv))
             | None => true
             end) unitMap = true.
Proof. vm_compute. reflexivity. Qed.

(** [standardizeUnit] of one word is never that word followed by a
    second word. *)
Lemma standardizeUnit_not_two_words unit1 unit2 :
  wordString unit1 = true ->
  standardizeUnit unit1 <> Just (unit1 ++ " " ++ unit2).
Proof.
  unfold wordString. intros Hw. apply andb_prop in Hw as [_ HW].
  assert (Hlonger : unit1 <> unit1 ++ " " ++ unit2).
  { intros E. apply (f_equal (fun s => length (chars s))) in E.
    rewrite !chars_app, !length_app in E. simpl in E. lia. }
  unfold standardizeUnit, orElse, get.
  destruct (ownProperty unitMap (toLowerCase unit1)) as [v|] eqn:Hown.
  - simpl. destruct (truthyString v); [|congruence].
    intros [= ->].
    pose proof Hown as Hin. apply ownProperty_In in Hin as [k Hin].
    pose proof unitMap_first_words as Hall. rewrite forallb_forall in Hall.
    specialize (Hall _ Hin). cbn [snd] in Hall.
    rewrite !chars_app in Hall.
    rewrite (takeWhile_run isWord (chars unit1) (chars " " ++ chars unit2) HW eq_refl),
      str_chars, Hown in Hall.
    now rewrite String.eqb_refl in Hall.
  - destruct (inherited (toLowerCase unit1)); [discriminate|congruence].
Qed.

(** *** Claims about the extractor *)

(** C1. On every line of the shape "<name>: <quantity> <unit>" whose
    unit has two words, the extractor emits one material whose unit is
    that of the first word alone, never the two-word unit: the unit
    group [(\w+)] of the pattern stops at the space, and the second word
    is dropped. The name is cleaned and the quantity parsed as the claim
    says. *)
Theorem colon_line_unit_is_first_word nm digits unit1 unit2 :
  wellFormedName nm = true -> digitString digits = true ->
  gt0 (parseFloat digits) = true ->
  wordString unit1 = true -> wordString unit2 = true ->
  extractMaterialsFromText (nm ++ ": " ++ digits ++ " " ++ unit1 ++ " " ++ unit2) =
  [ {| name := cleanMaterialName nm; quantity := parseFloat digits;
       unit := standardizeUnit unit1; unitPrice := 0; totalPrice := 0 |} ] /\
  standardizeUnit unit1 <> Just (unit1 ++ " " ++ unit2).
Proof.
  intros Hnm Hdigits Hpos Hu1 Hu2.
  split; [|now apply standardizeUnit_not_two_words].
  unfold wellFormedName, digitString, wordString in *.
  destruct (chars nm) as [|n0 N] eqn:En; [discriminate|].
  apply andb_prop in Hnm as [Hn0 HN]. apply negb_true_iff in Hn0.
  apply andb_prop in Hdigits as [Hd HD], Hu1 as [Hw HW], Hu2 as [Hv HV].
  destruct (truthyString_chars _ Hd) as (d0 & D & Ed).
  destruct (truthyString_chars _ Hw) as (w0 & W & Ew).
  destruct (truthyString_chars _ Hv) as (v0 & V & Ev).
  rewrite Ed in HD. rewrite Ew in HW. rewrite Ev in HV.
  set (line := nm ++ ": " ++ digits ++ " " ++ unit1 ++ " " ++ unit2).
  assert (Hchars : chars line =
                   ((n0 :: N) ++ ":"%char :: " "%char :: (d0 :: D) ++ " "%char ::
                    (w0 :: W) ++ " "%char :: v0 :: V)%list).
  { unfold line. rewrite !chars_app, En, Ed, Ew, Ev. reflexivity. }
  (* the text is one line *)
  assert (Hsplit : split LF line = [line]).
  { apply split_single_line. rewrite Hchars.
    assert (HN' : forallb (fun c => negb (Ascii.eqb c LF)) (n0 :: N) = true).
    { apply (forallb_weaken nameChar); [|assumption].
      intros c Hc. unfold nameChar in Hc. apply andb_prop in Hc as [Hc _].
      now apply dot_not_LF. }
    rewrite forallb_app, HN'.
    cbn [forallb andb]. rewrite forallb_app. rewrite (forallb_weaken _ _ _ digit_not_LF HD).
    cbn [forallb andb]. rewrite forallb_app. rewrite (forallb_weaken _ _ _ word_not_LF HW).
    cbn [forallb andb]. apply (forallb_weaken _ _ _ word_not_LF HV). }
  (* trim leaves it as it is *)
  assert (Htrim : trim line = line).
  { destruct (exists_last (l := v0 :: V) ltac:(discriminate)) as (V' & last & EV).
    assert (Hlast : isSpace last = false).
    { apply word_not_space. rewrite EV, forallb_app in HV.
      apply andb_prop in HV as [_ HV]. simpl in HV. now rewrite andb_true_r in HV. }
    rewrite <- (str_chars line), Hchars, EV.
    replace ((n0 :: N) ++ ":"%char :: " "%char :: (d0 :: D) ++ " "%char ::
             (w0 :: W) ++ " "%char :: V' ++ [last])%list
      with (n0 :: (N ++ ":"%char :: " "%char :: (d0 :: D) ++ " "%char ::
                   (w0 :: W) ++ " "%char :: V') ++ [last])%list
      by (cbn [app]; repeat (rewrite <- app_assoc; cbn [app]); reflexivity).
    now apply trim_id. }
  (* it has at least five characters *)
  assert (Hlen : (String.length line <? 5)%nat = false).
  { apply Nat.ltb_ge. rewrite <- length_chars, Hchars. cbn [app length].
    rewrite !length_app. cbn [length]. rewrite !length_app. cbn [length]. lia. }
  assert (Htruthy : truthyString line = true).
  { destruct line; [discriminate Hchars|reflexivity]. }
  (* the first pattern matches at index 0 and passes the guard *)
  assert (Hexec : exec pattern0 line =
    Some {| before := "";
            matched := str ((n0 :: N) ++ ":"%char :: " "%char :: (d0 :: D) ++
                            " "%char :: (w0 :: W));
            after := str (" "%char :: v0 :: V);
            groups := [(3%nat, unit1); (2%nat, digits); (1%nat, nm)] |}).
  { unfold exec. rewrite Hchars. cbn [app searchFrom].
    pose proof (pattern0_colon_line n0 N d0 D w0 W (" "%char :: v0 :: V) HN HD HW eq_refl) as Hm.
    cbn [app] in Hm. rewrite Hm.
    now rewrite <- En, <- Ed, <- Ew, !str_chars. }
  unfold extractMaterialsFromText, slice. rewrite Hsplit. cbn [fold_left].
  unfold processLine. rewrite Htrim, Htruthy, Hlen. cbn [negb orb].
  cbn [patterns tryPatterns]. unfold attempt. rewrite Hexec.
  cbn [fields Nat.eqb group groups lookupGroup toStringArg accepted].
  rewrite Hpos. rewrite Hw.
  assert (Hnt : truthyString nm = true) by (destruct nm; [discriminate En|reflexivity]).
  rewrite Hnt. reflexivity.
Qed.

(** The line of the claim: the unit comes out as "cu", not "cu yd". *)
Lemma colon_line_unit_is_first_word_witness :
  extractMaterialsFromText "Concrete: 12 cu yd" =
  [ {| name := "Concrete"; quantity := 12; unit := Just "cu";
       unitPrice := 0; totalPrice := 0 |} ] /\
  standardizeUnit "cu" <> Just "cu yd".
Proof.
  apply (colon_line_unit_is_first_word "Concrete" "12" "cu" "yd"); vm_compute; reflexivity.
Defined.

(** C4, as worded, fails on "5 bags of x: 0 y": the first pattern matches
    (name "5 bags of x", quantity 0, unit "y"), the guard rejects it, and
    the loop goes on to the second pattern, which decides the result. *)
Lemma first_match_does_not_decide : ~ FirstMatchDecides "5 bags of x: 0 y".
Proof.
  intros H.
  specialize (H [] 0%nat pattern0 [(1%nat, pattern1); (2%nat, pattern2)] eq_refl
                (List.Forall_nil _)).
  assert (Hm : exec pattern0 "5 bags of x: 0 y" <> None) by (vm_compute; discriminate).
  specialize (H Hm). vm_compute in H. discriminate H.
Qed.

(** What the loop does on that line. *)
Lemma first_match_rejected_example :
  parsedQuantity 0 pattern0 "5 bags of x: 0 y" = Some 0%float /\
  attempt 0 pattern0 "5 bags of x: 0 y" = None /\
  tryPatterns patterns "5 bags of x: 0 y" =
  ([0; 1]%nat,
   Some {| name := "X: 0 Y"; quantity := 5; unit := Just "bags";
           unitPrice := 0; totalPrice := 0 |}).
Proof. repeat split; vm_compute; reflexivity. Qed.

(** C4, amended. The patterns are attempted in their fixed order, and the
    first pattern that matches the line and passes the guard
    [name && quantity > 0 && unit] decides the line's result: the loop
    stops there and no later pattern is attempted. *)
Theorem first_accepted_pattern_decides trimmedLine before i p after m :
  patterns = (before ++ (i, p) :: after)%list ->
  Forall (fun jq => attempt (fst jq) (snd jq) trimmedLine = None) before ->
  attempt i p trimmedLine = Some m ->
  tryPatterns patterns trimmedLine = ((map fst before ++ [i])%list, Some m).
Proof.
  intros -> Hbefore Hacc. now apply tryPatterns_first_accepted.
Qed.

Lemma first_accepted_pattern_decides_witness :
  tryPatterns patterns "Nails - 3 lbs of x: 0 y" =
  ([0; 1]%nat,
   Some {| name := "X: 0 Y"; quantity := 3; unit := Just "lbs";
           unitPrice := 0; totalPrice := 0 |}).
Proof.
  apply (first_accepted_pattern_decides "Nails - 3 lbs of x: 0 y"
           [(0%nat, pattern0)] 1%nat pattern1 [(2%nat, pattern2)]).
  - reflexivity.
  - constructor; [vm_compute; reflexivity | constructor].
  - vm_compute. reflexivity.
Defined.




(** C8. The result never has more than 50 materials; it is the first 50
    of the materials matched on the lines of the text, in line order, so
    when more than 50 lines match it has exactly 50. *)
Theorem extract_at_most_50_in_order text :
  length (extractMaterialsFromText text) <= 50 /\
  extractMaterialsFromText text = take 50 (omap lineMaterial (split LF text)) /\
  (50 < length (omap lineMaterial (split LF text)) ->
   length (extractMaterialsFromText text) = 50).
Proof.
  rewrite extract_take. unfold matchedMaterials.
  rewrite length_take. repeat split; lia.
Qed.

(** *** The pricing resolver *)

(** Every price of both tables is a number other than 0 and NaN, so a
    declared entry is never skipped by [&&] or [||]. *)
Lemma prices_truthy :
  forallb (fun entry => forallb (fun kv => truthyNumber (snd kv)) (snd entry)) priceDatabase
  && forallb (fun kv => truthyNumber (snd kv)) fallbackPrices = true.
Proof. vm_compute. reflexivity. Qed.

(** The keys of [priceDatabase] are pairwise distinct and none is empty. *)
Lemma priceDatabase_keys :
  NoDup (keys priceDatabase) /\ Forall (fun k => truthyString k = true) (keys priceDatabase).
Proof. split; apply (bool_decide_unpack _); vm_compute; reflexivity. Qed.

(** No table declares a unit that is also the name of a member of
    [Object.prototype]. *)
Lemma tables_declare_no_inherited_key :
  forallb (fun entry => forallb (fun kv => negb (inherited (fst kv))) (snd entry)) priceDatabase
  && forallb (fun kv => negb (inherited (fst kv))) fallbackPrices = true.
Proof. vm_compute. reflexivity. Qed.

Lemma findMaterialKey_truthy materialName key prices :
  findMaterialKey materialName = Some (key, prices) ->
  In (key, prices) priceDatabase /\ truthyString key = true.
Proof.
  intros Hfind. apply find_In in Hfind as [Hin _]. split; [assumption|].
  destruct priceDatabase_keys as [_ Hk]. rewrite List.Forall_forall in Hk.
  apply Hk. unfold keys. change key with (fst (key, prices)). now apply in_map.
Qed.

Lemma fallback_own unit :
  inherited unit = false ->
  orElse truthyNumber (get fallbackPrices unit) 5%float = Just (fallbackPrice unit).
Proof.
  intros Hunit. unfold get, fallbackPrice.
  destruct (ownProperty fallbackPrices unit) as [x|] eqn:Hown; simpl.
  - apply ownProperty_In in Hown as [k Hin].
    pose proof prices_truthy as Ht. apply andb_prop in Ht as [_ Ht].
    rewrite forallb_forall in Ht. specialize (Ht _ Hin). simpl in Ht.
    unfold orElse, truthy. now rewrite Ht.
  - now rewrite Hunit.
Qed.

(** For a unit that names no member of [Object.prototype]: the entry of
    the first matching keyword when its sub-table has the unit, the
    unit-keyed default otherwise. *)
Lemma getMarketPrice_own_unit materialName unit :
  inherited unit = false ->
  getMarketPrice materialName unit =
  Just (match findMaterialKey materialName with
        | Some (_, prices) => default (fallbackPrice unit) (ownProperty prices unit)
        | None => fallbackPrice unit
        end).
Proof.
  intros Hunit. unfold getMarketPrice. rewrite (fallback_own _ Hunit).
  destruct (findMaterialKey materialName) as [[key prices]|] eqn:Hfind; [|reflexivity].
  apply findMaterialKey_truthy in Hfind as [Hin Hkey].
  rewrite Hkey. simpl. unfold get.
  destruct (ownProperty prices unit) as [x|] eqn:Hown; simpl.
  - apply ownProperty_In in Hown as [k Hkin].
    pose proof prices_truthy as Ht. apply andb_prop in Ht as [Ht _].
    rewrite forallb_forall in Ht. specialize (Ht _ Hin). simpl in Ht.
    rewrite forallb_forall in Ht. specialize (Ht _ Hkin). simpl in Ht.
    unfold truthy. now rewrite Ht.
  - now rewrite Hunit.
Qed.

(** The resolver in the words of C2, for a unit that names no member of
    [Object.prototype]: the table is scanned in declaration order and
    the first keyword that is a case-insensitive substring of the name
    is the one consulted. *)
Lemma getMarketPrice_first_keyword materialName unit :
  inherited unit = false ->
  (forall before key prices after,
     priceDatabase = (before ++ (key, prices) :: after)%list ->
     Forall (fun entry => keywordOf materialName (fst entry) = false) before ->
     keywordOf materialName key = true ->
     getMarketPrice materialName unit =
     Just (default (fallbackPrice unit) (ownProperty prices unit))) /\
  (Forall (fun entry => keywordOf materialName (fst entry) = false) priceDatabase ->
   getMarketPrice materialName unit = Just (fallbackPrice unit)).
Proof.
  intros Hunit. split.
  - intros before key prices after Hdb Hbefore Hkey.
    rewrite (getMarketPrice_own_unit _ _ Hunit). unfold findMaterialKey, keywordOf in *.
    rewrite Hdb. now rewrite (find_split _ before (key, prices) after Hbefore Hkey).
  - intros Hnone. rewrite (getMarketPrice_own_unit _ _ Hunit). unfold findMaterialKey, keywordOf in *.
    now rewrite (find_none _ _ Hnone).
Qed.

Lemma fallbackPrice_table :
  fallbackPrice "pieces" = 10%float /\ fallbackPrice "lbs" = 2.5%float /\
  fallbackPrice "feet" = 3.5%float /\ fallbackPrice "sq ft" = 2.8%float /\
  fallbackPrice "cu ft" = 8.5%float /\ fallbackPrice "cu yd" = 85%float /\
  fallbackPrice "gallons" = 35%float /\
  forall unit, ownProperty fallbackPrices unit = None -> fallbackPrice unit = 5%float.
Proof.
  repeat split; try reflexivity. intros unit H. unfold fallbackPrice. now rewrite H.
Qed.

(** The three examples of C2. *)
Lemma getMarketPrice_examples :
  getMarketPrice "ready mix concrete" "cu yd" = Just 120%float /\
  getMarketPrice "mystery material" "pieces" = Just 10%float /\
  getMarketPrice "mystery material" "exotic-unit" = Just 5%float.
Proof. repeat split; vm_compute; reflexivity. Qed.

(** C2. For a unit that is the name of a member of [Object.prototype]
    (such as "toString"), which neither table declares, the resolver
    does not return the flat default 5: the reads [prices[unit]] and
    [fallbackPrices[unit]] find the inherited member, which is truthy,
    and that member is what is returned, whatever the material name. *)
Theorem getMarketPrice_inherited_unit materialName unit :
  inherited unit = true ->
  ownProperty fallbackPrices unit = None /\
  getMarketPrice materialName unit = Member unit /\
  getMarketPrice materialName unit <> Just 5%float.
Proof.
  intros Hunit.
  pose proof tables_declare_no_inherited_key as Ht. apply andb_prop in Ht as [Hdb Hfb].
  pose proof (get_inherited fallbackPrices unit Hfb Hunit) as Hget.
  assert (Hprice : getMarketPrice materialName unit = Member unit).
  { unfold getMarketPrice. rewrite Hget. simpl.
    destruct (findMaterialKey materialName) as [[key prices]|] eqn:Hfind; [|reflexivity].
    apply findMaterialKey_truthy in Hfind as [Hin Hkey].
    rewrite forallb_forall in Hdb. specialize (Hdb _ Hin). simpl in Hdb.
    rewrite (get_inherited prices unit Hdb Hunit), Hkey. reflexivity. }
  split; [|split].
  - unfold get in Hget. destruct (ownProperty fallbackPrices unit); [discriminate|reflexivity].
  - exact Hprice.
  - rewrite Hprice. discriminate.
Qed.

Lemma getMarketPrice_inherited_unit_witness :
  ownProperty fallbackPrices "toString" = None /\
  getMarketPrice "mystery material" "toString" = Member "toString" /\
  getMarketPrice "mystery material" "toString" <> Just 5%float.
Proof.
  apply (getMarketPrice_inherited_unit "mystery material" "toString").
  vm_compute. reflexivity.
Defined.

(** The line "Mystery material: 3 toString" makes the extractor hand that
    unit to the resolver. *)
Lemma extract_toString_unit :
  extractMaterialsFromText "Mystery material: 3 toString" =
  [ {| name := "Mystery Material"; quantity := 3; unit := Just "toString";
       unitPrice := 0; totalPrice := 0 |} ].
Proof. vm_compute. reflexivity. Qed.

(** *** The quotation builder *)

(** C3. The five cost fields of the quotation: the subtotal is the sum of
    the [totalPrice] fields taken in list order from 0, the other four
    follow the fixed formulas; a subtotal of 1000 gives 600, 150, 350
    and 2100; the empty list gives five zeros. [generateQuotation] is a
    total function: it returns for every list. *)
Theorem generateQuotation_costs today materials videoName :
  let q := generateQuotation today materials videoName in
  (subtotal q = fold_left (fun sum m => sum + totalPrice m) materials 0 /\
   laborCost q = 0.6 * subtotal q /\
   equipmentCost q = 0.15 * subtotal q /\
   overhead q = 0.2 * (subtotal q + laborCost q + equipmentCost q) /\
   totalCost q = subtotal q + laborCost q + equipmentCost q + overhead q)%float /\
  (subtotal q = 1000 ->
   laborCost q = 600 /\ equipmentCost q = 150 /\ overhead q = 350 /\ totalCost q = 2100)%float /\
  (materials = [] ->
   subtotal q = 0 /\ laborCost q = 0 /\ equipmentCost q = 0 /\ overhead q = 0 /\
   totalCost q = 0)%float.
Proof.
  intros q. subst q. cbn [generateQuotation subtotal laborCost equipmentCost overhead totalCost].
  split; [|split].
  - repeat split; try reflexivity; apply float_mul_comm.
  - intros ->. repeat split; vm_compute; reflexivity.
  - intros ->. repeat split; vm_compute; reflexivity.
Qed.

Lemma generateQuotation_example :
  let q := generateQuotation "1/2/2026"
             [ {| name := "Concrete"; quantity := 5; unit := Just "cu yd";
                  unitPrice := 120; totalPrice := 600 |};
               {| name := "Ladder"; quantity := 3.2; unit := Just "pieces";
                  unitPrice := 125; totalPrice := 400 |} ] "site.mp4" in
  (subtotal q = 1000 /\ laborCost q = 600 /\ equipmentCost q = 150 /\
   overhead q = 350 /\ totalCost q = 2100)%float /\ projectName q = "site".
Proof. vm_compute. repeat split; reflexivity. Qed.

End AnalyzeConstructionProofs.

(** ** The session store *)
Module ProcessMediaProofs.
Import JS ProcessMedia ProcessMediaSpec.

(** *** The upload loop *)

Lemma uploadFile_store env vars file sessions :
  fst (uploadFile env vars file sessions) = sessions.
Proof.
  unfold uploadFile, uploadAsset, bind, ret, throw.
  destruct (negb (hasProperty kSupportedList (getExtension (name file)))); reflexivity.
Qed.

Lemma forEach_uploadFile_store env files : forall vars sessions,
  fst (forEach (uploadFile env) files vars sessions) = sessions.
Proof.
  induction files as [|file files IH]; intros vars sessions; simpl.
  - reflexivity.
  - unfold bind.
    pose proof (uploadFile_store env vars file sessions) as Hst.
    destruct (uploadFile env vars file sessions) as [sessions' [vars'|e]]; simpl in *; subst.
    + apply IH.
    + reflexivity.
Qed.

Lemma uploadFile_returns env vars file sessions sessions' vars' :
  uploadFile env vars file sessions = (sessions', Return vars') ->
  supported file = true /\
  u_extList vars' = (u_extList vars ++ [getExtension (name file)])%list /\
  length (u_assetList vars') = S (length (u_assetList vars)) /\
  u_hasVideo vars' = isVideo file || u_hasVideo vars.
Proof.
  unfold uploadFile, uploadAsset, supported, isVideo, videoExtension, bind, ret, throw.
  destruct (hasProperty kSupportedList (getExtension (name file))); simpl; [|discriminate].
  intros [= _ <-]. simpl. rewrite length_app. simpl.
  split; [reflexivity|]. split; [reflexivity|]. split; [lia|].
  now destruct (String.eqb (mediaType (getExtension (name file))) "video").
Qed.

Lemma uploadFile_throws env vars file sessions sessions' e :
  uploadFile env vars file sessions = (sessions', Throw e) -> supported file = false.
Proof.
  unfold uploadFile, uploadAsset, supported, bind, ret, throw.
  destruct (hasProperty kSupportedList (getExtension (name file))); simpl;
    [discriminate | reflexivity].
Qed.

Lemma forEach_uploadFile_returns env files : forall vars sessions sessions' vars',
  forEach (uploadFile env) files vars sessions = (sessions', Return vars') ->
  forallb supported files = true /\
  u_extList vars' = (u_extList vars ++ map (fun f => getExtension (name f)) files)%list /\
  length (u_assetList vars') = length (u_assetList vars) + length files /\
  u_hasVideo vars' = existsb isVideo files || u_hasVideo vars.
Proof.
  induction files as [|file files IH]; intros vars sessions sessions' vars'; simpl.
  - unfold ret. intros [= _ <-]. rewrite app_nil_r.
    split; [reflexivity|]. split; [reflexivity|]. split; [lia|reflexivity].
  - unfold bind.
    destruct (uploadFile env vars file sessions) as [s1 [v1|e]] eqn:Hfile; [|discriminate].
    intros Hrest. apply uploadFile_returns in Hfile as (Hsup & Hext & Hlen & Hvid).
    apply IH in Hrest as (Hsups & Hexts & Hlens & Hvids).
    rewrite Hsup, Hsups, Hexts, Hext, Hlens, Hlen, Hvids, Hvid. simpl.
    rewrite <- app_assoc. simpl.
    split; [reflexivity|]. split; [reflexivity|]. split; [lia|].
    now destruct (isVideo file), (existsb isVideo files), (u_hasVideo vars).
Qed.

Lemma forEach_uploadFile_throws env files : forall vars sessions sessions' e,
  forEach (uploadFile env) files vars sessions = (sessions', Throw e) ->
  forallb supported files = false.
Proof.
  induction files as [|file files IH]; intros vars sessions sessions' e; simpl.
  - discriminate.
  - unfold bind.
    destruct (uploadFile env vars file sessions) as [s1 [v1|e1]] eqn:Hfile.
    + intros Hrest. apply IH in Hrest. rewrite Hrest. apply andb_false_r.
    + intros _. apply uploadFile_throws in Hfile. now rewrite Hfile.
Qed.

Lemma forEach_deleteAsset assets : forall sessions,
  forEach (fun (_ : Datatypes.unit) assetId => deleteAsset assetId) assets tt sessions
  = (sessions, Return tt).
Proof.
  induction assets as [|a assets IH]; intros sessions; simpl; [reflexivity|].
  unfold bind, deleteAsset, ret. apply IH.
Qed.

(** *** What one request does to the store *)

Lemma existsb_isVideo files :
  existsb videoExtension (map (fun f => getExtension (name f)) files) = existsb isVideo files.
Proof. induction files as [|f files IH]; simpl; [reflexivity|]. now rewrite IH. Qed.

(** The four ways the upload branch ends. *)
Lemma POST_upload env request sessions files :
  isUpload request = true ->
  body request = FormData files ->
  (files = [] /\
   POST env request sessions =
     (sessions, {| status := 400; payload := JsonError "No media files provided" |})) \/
  (files <> [] /\ forallb supported files = false /\
   fst (POST env request sessions) = sessions /\
   status (snd (POST env request sessions)) = 500) \/
  (files <> [] /\ forallb supported files = true /\
   existsb isVideo files = true /\ length files <> 1 /\
   POST env request sessions =
     (sessions, {| status := 500;
                   payload := JsonError "Error: Only a single video is supported." |})) \/
  (files <> [] /\ forallb supported files = true /\
   (existsb isVideo files = true -> length files = 1) /\
   exists data,
     POST env request sessions =
       (<[newSessionId env (length files) := data]> sessions,
        {| status := 200;
           payload := JsonUploaded (newSessionId env (length files))
                                   "Files uploaded successfully" |}) /\
     extList data = map (fun f => getExtension (name f)) files /\
     length (assetList data) = length files /\
     hasVideo data = existsb isVideo files).
Proof.
  unfold isUpload. intros Hup Hbody.
  unfold POST, handle. rewrite Hup, Hbody. unfold handleUpload.
  destruct files as [|file files]; [left; split; reflexivity|right].
  remember (file :: files) as fs eqn:Hfs.
  assert (Hne : fs <> []) by (subst fs; discriminate).
  replace (length fs =? 0)%nat with false by (subst fs; reflexivity).
  unfold bind, sessionsSet, ret, throw.
  pose proof (forEach_uploadFile_store env fs (mkUploadVars [] [] "" false) sessions) as Hst.
  destruct (forEach (uploadFile env) fs (mkUploadVars [] [] "" false) sessions)
    as [s1 [vars|e]] eqn:Hloop; simpl in Hst; subst s1.
  - apply forEach_uploadFile_returns in Hloop as (Hsup & Hext & Hlen & Hvid).
    simpl in Hext, Hlen, Hvid. rewrite orb_false_r in Hvid.
    right. destruct (u_hasVideo vars && negb (length fs =? 1)%nat) eqn:Hcheck.
    + left. apply andb_prop in Hcheck as [Hv Hn].
      apply negb_true_iff, Nat.eqb_neq in Hn.
      split; [assumption|]. split; [assumption|]. split; [congruence|].
      split; [assumption|reflexivity].
    + right. split; [assumption|]. split; [assumption|]. split.
      * intros Hv. rewrite Hv in Hvid. rewrite Hvid in Hcheck. simpl in Hcheck.
        now apply negb_false_iff, Nat.eqb_eq in Hcheck.
      * eexists. split; [reflexivity|]. simpl. auto.
  - apply forEach_uploadFile_throws in Hloop. left. auto.
Qed.

(** A request that does not reach the upload loop leaves the store as it
    was or deletes one entry. *)
Lemma POST_other env request sessions :
  (isUpload request = false \/ forall files, body request <> FormData files) ->
  fst (POST env request sessions) = sessions \/
  exists id, fst (POST env request sessions) = delete id sessions.
Proof.
  intros Hother. unfold POST, handle. fold (isUpload request).
  destruct (isUpload request) eqn:Hup.
  { destruct Hother as [|Hbody]; [discriminate|]. left.
    unfold handleUpload, throw. destruct (body request); try reflexivity.
    now destruct (Hbody mediaFiles). }
  destruct (bool_decide (action request = Some "chat")).
  { left. unfold handleChat, bind, ret, throw, sessionsGet, chatWithMediaNvcf.
    destruct (body request) as [|sid query stream|]; try reflexivity.
    destruct (falsy sid); [reflexivity|]. destruct (falsy query); [reflexivity|].
    destruct (sessions !! default "" sid); [|reflexivity].
    now destruct stream. }
  destruct (bool_decide (action request = Some "cleanup")); [|now left].
  unfold handleCleanup, bind, ret, throw, sessionsGet, sessionsHas, sessionsDelete.
  destruct (body request) as [|sid query stream|]; try (now left).
  destruct (falsy sid); [now left|].
  destruct (bool_decide (is_Some (sessions !! default "" sid))); [|now left].
  destruct (sessions !! default "" sid) as [data|]; [|now left].
  right. exists (default "" sid). now rewrite forEach_deleteAsset.
Qed.

(** Every request leaves the store as it was, deletes one entry, or
    stores one new session record under the identifier it generated. *)
Lemma POST_store env request sessions :
  fst (POST env request sessions) = sessions \/
  (exists id, fst (POST env request sessions) = delete id sessions) \/
  (exists id data,
     generatedId env request = Some id /\ GoodSession data /\
     fst (POST env request sessions) = <[id := data]> sessions).
Proof.
  destruct (isUpload request) eqn:Hup.
  2:{ destruct (POST_other env request sessions) as [H|H]; auto. }
  destruct (body request) as [files|sid query stream|] eqn:Hbody.
  2,3: destruct (POST_other env request sessions) as [H|H]; auto;
       right; intros files; rewrite Hbody; discriminate.
  destruct (POST_upload env request sessions files Hup Hbody)
    as [[_ H]|[(_ & _ & H & _)|[(_ & _ & _ & _ & H)|(_ & _ & Hone & data & H & Hext & Hlen & Hvid)]]].
  - left. now rewrite H.
  - now left.
  - left. now rewrite H.
  - right. right. exists (newSessionId env (length files)), data.
    split; [|split].
    + unfold generatedId. now rewrite Hbody, Hup.
    + unfold GoodSession. rewrite Hext, Hvid, Hlen, length_map, existsb_isVideo.
      split; [reflexivity|]. split; [reflexivity|]. exact Hone.
    + now rewrite H.
Qed.

Lemma GoodSession_videoAssets data :
  GoodSession data -> videoAssets data <= 1.
Proof.
  intros (Hlen & Hvid & Hone). unfold videoAssets.
  destruct (hasVideo data).
  - specialize (Hone eq_refl). rewrite Hone in Hlen.
    destruct (extList data) as [|e [|e' l]]; try discriminate. simpl.
    destruct (videoExtension e); simpl; lia.
  - clear Hlen Hone. induction (extList data) as [|e l IH]; simpl in *; [lia|].
    symmetry in Hvid. apply orb_false_iff in Hvid as [He Hl]. rewrite He. auto.
Qed.

(** The invariant of the store. *)
Lemma reachable_GoodSession sessions :
  reachable sessions -> forall id data, sessions !! id = Some data -> GoodSession data.
Proof.
  induction 1 as [|env request sessions _ IH]; intros id data Hget.
  - now rewrite lookup_empty in Hget.
  - destruct (POST_store env request sessions) as [H|[[id' H]|(id' & data' & _ & Hgood & H)]];
      rewrite H in Hget.
    + eauto.
    + destruct (decide (id' = id)) as [->|Hne].
      * now rewrite lookup_delete_eq in Hget.
      * rewrite lookup_delete_ne in Hget by assumption. eauto.
    + destruct (decide (id' = id)) as [->|Hne].
      * rewrite lookup_insert_eq in Hget. now injection Hget as <-.
      * rewrite lookup_insert_ne in Hget by assumption. eauto.
Qed.

(** *** Lookups of a session *)

(** The cleanup action on a stored session deletes it. *)
Lemma cleanup_deletes env sessionId data sessions :
  truthyString sessionId = true ->
  sessions !! sessionId = Some data ->
  POST env (cleanupRequest sessionId) sessions =
  (delete sessionId sessions, {| status := 200; payload := JsonSuccess |}).
Proof.
  intros Hid Hget. unfold POST, handle, cleanupRequest. simpl.
  unfold handleCleanup, bind, sessionsHas, sessionsGet, sessionsDelete, ret. simpl.
  rewrite Hid. simpl.
  rewrite bool_decide_eq_true_2 by (rewrite Hget; eauto).
  rewrite Hget. now rewrite forEach_deleteAsset.
Qed.

(** A cleanup of a session that is not stored is answered 404. *)
Lemma cleanup_unknown_session env sessionId sessions :
  sessions !! sessionId = None ->
  POST env (cleanupRequest sessionId) sessions = (sessions, notFoundResponse).
Proof.
  intros Hget. unfold POST, handle, cleanupRequest. simpl.
  unfold handleCleanup, bind, sessionsHas, sessionsGet, ret. simpl.
  destruct (negb (truthyString sessionId)); [reflexivity|].
  rewrite Hget. rewrite bool_decide_eq_false_2; [reflexivity|].
  intros [x Hx]. discriminate.
Qed.

(** A chat request about a session that is not stored is answered 500:
    [sessions.get] yields [undefined], and [chatWithMediaNvcf] reads its
    [assetList]. *)
Lemma chat_unknown_session env sessionId query stream sessions :
  truthyString sessionId = true ->
  truthyString query = true ->
  sessions !! sessionId = None ->
  POST env (chatRequest sessionId query stream) sessions = (sessions, typeErrorResponse).
Proof.
  intros Hid Hquery Hget. unfold POST, handle, chatRequest. simpl.
  unfold handleChat, bind, sessionsGet, chatWithMediaNvcf, throw. simpl.
  rewrite Hid, Hquery. simpl. now rewrite Hget.
Qed.

(** A chat request about a stored session is answered 200. *)
Lemma chat_known_session env sessionId query data sessions :
  truthyString sessionId = true ->
  truthyString query = true ->
  sessions !! sessionId = Some data ->
  POST env (chatRequest sessionId query false) sessions =
  (sessions, {| status := 200; payload := JsonChat placeholder |}).
Proof.
  intros Hid Hquery Hget. unfold POST, handle, chatRequest. simpl.
  unfold handleChat, bind, sessionsGet, chatWithMediaNvcf, ret. simpl.
  rewrite Hid, Hquery. simpl. now rewrite Hget.
Qed.

Lemma afterUpload_lookup : afterUpload !! exampleId = Some exampleSession.
Proof. vm_compute. reflexivity. Qed.

(** *** Claims about the store *)

(** C5. Once a stored session has been deleted by the cleanup action, a
    chat request that names it is answered with status 500 and the text
    of a TypeError, not with a NotFound response; a second cleanup of
    the same identifier is answered 404. Neither request changes the
    store, so the same holds for every later one. *)
Theorem chat_after_cleanup_answers_500 env env' sessionId data query stream sessions :
  truthyString sessionId = true ->
  truthyString query = true ->
  sessions !! sessionId = Some data ->
  let deleted := fst (POST env (cleanupRequest sessionId) sessions) in
  snd (POST env (cleanupRequest sessionId) sessions) =
    {| status := 200; payload := JsonSuccess |} /\
  deleted !! sessionId = None /\
  POST env' (chatRequest sessionId query stream) deleted = (deleted, typeErrorResponse) /\
  POST env' (cleanupRequest sessionId) deleted = (deleted, notFoundResponse).
Proof.
  intros Hid Hquery Hget deleted. subst deleted.
  rewrite (cleanup_deletes env sessionId data sessions Hid Hget). simpl.
  assert (Hgone : delete sessionId sessions !! sessionId = None) by apply lookup_delete_eq.
  split; [reflexivity|]. split; [exact Hgone|]. split.
  - now apply chat_unknown_session.
  - now apply cleanup_unknown_session.
Qed.

Lemma chat_after_cleanup_answers_500_witness :
  snd (POST exampleEnv (cleanupRequest exampleId) afterUpload) =
    {| status := 200; payload := JsonSuccess |} /\
  afterCleanup !! exampleId = None /\
  POST exampleEnv (chatRequest exampleId "How long is the wall?" false) afterCleanup =
    (afterCleanup,
     {| status := 500;
        payload := JsonError
          "TypeError: Cannot read properties of undefined (reading 'assetList')" |}) /\
  POST exampleEnv (cleanupRequest exampleId) afterCleanup =
    (afterCleanup, {| status := 404; payload := JsonError "Session not found" |}).
Proof.
  apply (chat_after_cleanup_answers_500 exampleEnv exampleEnv exampleId exampleSession
           "How long is the wall?" false afterUpload).
  - reflexivity.
  - reflexivity.
  - vm_compute. reflexivity.
Defined.

(** C6, amended. In every reachable store each session holds at most
    one video asset, and a session with [hasVideo] holds exactly one
    asset; an upload with a video among two or more files is answered
    500 and stores nothing; and a request never changes a stored
    session, it leaves it as it is or deletes it, as long as the
    identifier a new upload generates is not one already in use. *)
Theorem sessions_hold_at_most_one_video sessions :
  reachable sessions ->
  (forall id data, sessions !! id = Some data ->
     videoAssets data <= 1 /\ (hasVideo data = true -> length (assetList data) = 1)) /\
  (forall env request files,
     isUpload request = true -> body request = FormData files ->
     existsb isVideo files = true -> length files <> 1 ->
     fst (POST env request sessions) = sessions /\
     status (snd (POST env request sessions)) = 500) /\
  (forall env request id data,
     sessions !! id = Some data ->
     (forall fresh, generatedId env request = Some fresh -> sessions !! fresh = None) ->
     fst (POST env request sessions) !! id = Some data \/
     fst (POST env request sessions) !! id = None).
Proof.
  intros Hreach. split; [|split].
  - intros id data Hget.
    pose proof (reachable_GoodSession _ Hreach _ _ Hget) as Hgood.
    split; [now apply GoodSession_videoAssets | apply Hgood].
  - intros env request files Hup Hbody Hvideo Hlen.
    destruct (POST_upload env request sessions files Hup Hbody)
      as [[-> _]|[(_ & _ & H1 & H2)|[(_ & _ & _ & _ & H)|(_ & _ & Hone & _)]]].
    + discriminate.
    + auto.
    + now rewrite H.
    + now destruct Hlen; apply Hone.
  - intros env request id data Hget Hfresh.
    destruct (POST_store env request sessions) as [H|[[id' H]|(id' & data' & Hgen & _ & H)]];
      rewrite H.
    + now left.
    + destruct (decide (id' = id)) as [->|Hne].
      * right. apply lookup_delete_eq.
      * left. now rewrite lookup_delete_ne.
    + left. rewrite lookup_insert_ne; [assumption|].
      intros ->. rewrite (Hfresh _ Hgen) in Hget. discriminate.
Qed.

Lemma sessions_hold_at_most_one_video_witness :
  (forall id data, afterUpload !! id = Some data ->
     videoAssets data <= 1 /\ (hasVideo data = true -> length (assetList data) = 1)) /\
  (forall env request files,
     isUpload request = true -> body request = FormData files ->
     existsb isVideo files = true -> length files <> 1 ->
     fst (POST env request afterUpload) = afterUpload /\
     status (snd (POST env request afterUpload)) = 500) /\
  (forall env request id data,
     afterUpload !! id = Some data ->
     (forall fresh, generatedId env request = Some fresh -> afterUpload !! fresh = None) ->
     fst (POST env request afterUpload) !! id = Some data \/
     fst (POST env request afterUpload) !! id = None).
Proof.
  apply (sessions_hold_at_most_one_video afterUpload).
  apply reachable_POST, reachable_empty.
Defined.

(** Why the last part of C6 asks for an unused identifier: an upload that
    reads the same clock value and the same random suffix as an earlier
    one generates the earlier identifier again and replaces that
    session. [sessions.set] is called without a look at what the map
    holds. *)
Lemma colliding_identifier_replaces_session :
  generatedId exampleEnv (uploadRequest [mkFile "plan.png"]) = Some exampleId /\
  afterUpload !! exampleId = Some exampleSession /\
  fst (POST exampleEnv (uploadRequest [mkFile "plan.png"]) afterUpload) !! exampleId =
  Some {| assetList := ["dummy_asset_1730000000000"];
          extList := ["png"];
          mediaContent := "<img src=" ++ quote ++
                          "data:image/png;asset_id,dummy_asset_1730000000000" ++ quote ++ " />";
          uploadedAt := 1730000000002;
          hasVideo := false |}.
Proof.
  split; [vm_compute; reflexivity|]. split; [apply afterUpload_lookup|].
  vm_compute. reflexivity.
Qed.

(** C6, as worded, fails in the store reached by one upload: the session
    stored there is modified, not deleted, by a second upload that
    generates the same identifier. *)
Lemma stored_session_can_be_replaced :
  reachable afterUpload /\ ~ NeverModified afterUpload.
Proof.
  split; [apply reachable_POST, reachable_empty|].
  intros H.
  destruct colliding_identifier_replaces_session as (_ & Hold & Hnew).
  destruct (H exampleEnv (uploadRequest [mkFile "plan.png"]) exampleId exampleSession Hold)
    as [H1|H1]; rewrite Hnew in H1; [|discriminate].
  vm_compute in H1. discriminate H1.
Qed.

(** A video together with an image. *)
Lemma video_with_image_example :
  POST exampleEnv (uploadRequest [mkFile "plan.png"; mkFile "site.MP4"]) afterUpload =
  (afterUpload,
   {| status := 500; payload := JsonError "Error: Only a single video is supported." |}).
Proof.
  destruct (POST_upload exampleEnv (uploadRequest [mkFile "plan.png"; mkFile "site.MP4"])
              afterUpload _ eq_refl eq_refl)
    as [[H _]|[(_ & H & _)|[(_ & _ & _ & _ & H)|(_ & _ & H & _)]]].
  - discriminate H.
  - vm_compute in H. discriminate H.
  - exact H.
  - specialize (H ltac:(vm_compute; reflexivity)). discriminate H.
Qed.

(** C10. An upload request that is answered with an error leaves the
    session map as it was; the map changes only when the answer is 200,
    and then every file has passed the extension check, the single-video
    check has passed, and exactly the new session was added. *)
Theorem failed_upload_leaves_sessions_unchanged env request sessions :
  isUpload request = true ->
  (status (snd (POST env request sessions)) <> 200 ->
   fst (POST env request sessions) = sessions) /\
  (fst (POST env request sessions) <> sessions ->
   status (snd (POST env request sessions)) = 200 /\
   exists files data,
     body request = FormData files /\ files <> [] /\
     forallb supported files = true /\
     (existsb isVideo files = true -> length files = 1) /\
     fst (POST env request sessions) = <[newSessionId env (length files) := data]> sessions).
Proof.
  intros Hup.
  destruct (body request) as [files|sid query stream|] eqn:Hbody.
  - destruct (POST_upload env request sessions files Hup Hbody)
      as [[_ H]|[(_ & _ & H1 & H2)|[(_ & _ & _ & _ & H)|(Hne & Hsup & Hone & data & H & _)]]].
    + rewrite H. simpl. split; [reflexivity|]. intros Hch. now destruct Hch.
    + split; [auto|]. intros Hch. now destruct Hch.
    + rewrite H. simpl. split; [reflexivity|]. intros Hch. now destruct Hch.
    + rewrite H. simpl. split; [intros Hst; now destruct Hst|].
      intros _. split; [reflexivity|]. exists files, data. auto.
  - unfold isUpload in Hup. unfold POST, handle. rewrite Hup, Hbody. simpl.
    split; [reflexivity|]. intros Hch. now destruct Hch.
  - unfold isUpload in Hup. unfold POST, handle. rewrite Hup, Hbody. simpl.
    split; [reflexivity|]. intros Hch. now destruct Hch.
Qed.

Lemma failed_upload_leaves_sessions_unchanged_witness :
  let request := uploadRequest [mkFile "plan.png"; mkFile "notes.txt"] in
  (status (snd (POST exampleEnv request afterUpload)) <> 200 ->
   fst (POST exampleEnv request afterUpload) = afterUpload) /\
  (fst (POST exampleEnv request afterUpload) <> afterUpload ->
   status (snd (POST exampleEnv request afterUpload)) = 200 /\
   exists files data,
     body request = FormData files /\ files <> [] /\
     forallb supported files = true /\
     (existsb isVideo files = true -> length files = 1) /\
     fst (POST exampleEnv request afterUpload) =
       <[newSessionId exampleEnv (length files) := data]> afterUpload).
Proof.
  apply (failed_upload_leaves_sessions_unchanged exampleEnv
           (uploadRequest [mkFile "plan.png"; mkFile "notes.txt"]) afterUpload).
  vm_compute. reflexivity.
Defined.

(** The three kinds of rejected upload named in C10. *)
Lemma rejected_upload_examples :
  snd (POST exampleEnv (uploadRequest []) afterUpload) =
    {| status := 400; payload := JsonError "No media files provided" |} /\
  snd (POST exampleEnv (uploadRequest [mkFile "plan.png"; mkFile "notes.txt"]) afterUpload) =
    {| status := 500; payload := JsonError "Error: notes.txt format is not supported" |} /\
  snd (POST exampleEnv (uploadRequest [mkFile "plan.png"; mkFile "site.MP4"]) afterUpload) =
    {| status := 500; payload := JsonError "Error: Only a single video is supported." |}.
Proof.
  split; [vm_compute; reflexivity|]. split; [vm_compute; reflexivity|].
  now rewrite video_with_image_example.
Qed.

End ProcessMediaProofs.

(** ** The export endpoint *)
Module ExportQuotationProofs.
Import JS ExportQuotation ExportQuotationSpec.

Lemma renderPdf_throws fmt r c quotation :
  rendererFails r (generateProfessionalHTML fmt (generatedOnInTry c) quotation) ->
  throws (renderPdf fmt r c (WellTyped quotation)).
Proof.
  unfold rendererFails, renderPdf, callGenerateProfessionalHTML, bind, throws.
  intros H.
  destruct (importPuppeteer r) as [[]|e1]; [|eauto].
  destruct (launch r) as [[]|e2]; [|eauto].
  destruct (newPage r) as [[]|e3]; [|eauto].
  destruct (setContent r _) as [[]|e4]; [|eauto].
  destruct (pdf r _) as [buffer|e5]; [|eauto].
  destruct (close r) as [[]|e6]; [|eauto].
  destruct (importStream r) as [[]|e7]; [|eauto].
  destruct H as [[e H]|[[e H]|[[e H]|[[e H]|[[e H]|[[e H]|[e H]]]]]]]; discriminate.
Qed.

(** When no call fails the answer is the PDF. *)
Lemma renderPdf_returns fmt r c quotation buffer :
  importPuppeteer r = Return tt -> launch r = Return tt -> newPage r = Return tt ->
  setContent r (generateProfessionalHTML fmt (generatedOnInTry c) quotation) = Return tt ->
  pdf r (generateProfessionalHTML fmt (generatedOnInTry c) quotation) = Return buffer ->
  close r = Return tt -> importStream r = Return tt ->
  POST fmt r c (Body (Some (WellTyped quotation))) =
  {| status := 200;
     contentType := "application/pdf";
     contentDisposition :=
       Some ("attachment; filename=" ++ quote ++ "quotation-" ++
             pretty (nowInTry c) ++ ".pdf" ++ quote);
     payload := Pdf buffer |}.
Proof.
  intros H1 H2 H3 H4 H5 H6 H7.
  unfold POST, handle, tryCatch, renderPdf, callGenerateProfessionalHTML, bind.
  now rewrite H1, H2, H3, H4, H5, H6, H7.
Qed.

(** C9. For every valid quotation, when the PDF rendering fails at any
    of its steps the endpoint answers 200 with the document that
    [generateProfessionalHTML] produces, Content-Type text/html and a
    Content-Disposition attachment header; the failure does not reach
    the caller. *)
Theorem renderer_failure_falls_back_to_html fmt r c quotation :
  let body := Body (Some (WellTyped quotation)) in
  rendererFails r (generateProfessionalHTML fmt (generatedOnInTry c) quotation) ->
  POST fmt r c body = htmlResponse fmt c quotation /\
  status (POST fmt r c body) = 200 /\
  contentType (POST fmt r c body) = "text/html" /\
  (exists file,
     contentDisposition (POST fmt r c body) = Some ("attachment; " ++ file)) /\
  payload (POST fmt r c body) =
    Html (generateProfessionalHTML fmt (generatedOnInCatch c) quotation).
Proof.
  intros body Hfail. subst body. apply renderPdf_throws in Hfail as [e He].
  assert (H : POST fmt r c (Body (Some (WellTyped quotation))) =
              htmlResponse fmt c quotation).
  { unfold POST, handle, tryCatch. rewrite He. reflexivity. }
  rewrite H. repeat split. eexists. reflexivity.
Qed.

Lemma renderer_failure_falls_back_to_html_witness :
  let body := Body (Some (WellTyped exampleQuotation)) in
  POST exampleFormatting noBrowser exampleClock body =
    htmlResponse exampleFormatting exampleClock exampleQuotation /\
  status (POST exampleFormatting noBrowser exampleClock body) = 200 /\
  contentType (POST exampleFormatting noBrowser exampleClock body) = "text/html" /\
  (exists file,
     contentDisposition (POST exampleFormatting noBrowser exampleClock body)
     = Some ("attachment; " ++ file)) /\
  payload (POST exampleFormatting noBrowser exampleClock body) =
    Html (generateProfessionalHTML exampleFormatting (generatedOnInCatch exampleClock)
            exampleQuotation).
Proof.
  apply (renderer_failure_falls_back_to_html exampleFormatting noBrowser exampleClock
           exampleQuotation).
  right. left. eexists. reflexivity.
Defined.

End ExportQuotationProofs.

(** ** Texts *)
Module StringFacts.
Import JS JSFacts.

Lemma string_app_nil_r (s : string) : s ++ "" = s.
Proof.
  induction s as [|a s IH]; [reflexivity|].
  change (String a (s ++ "") = String a s). now f_equal.
Qed.

Lemma str_app a b : str (a ++ b) = str a ++ str b.
Proof.
  induction a as [|x a IH]; [reflexivity|].
  change (String x (str (a ++ b)) = String x (str a ++ str b)). now f_equal.
Qed.

(** [includes] is the substring test. *)
Lemma prefix_spec k : forall s,
  String.prefix k s = true <-> exists post, s = k ++ post.
Proof.
  induction k as [|a k IH]; intros s; simpl.
  - split; [intros _; now exists s|intros _; destruct s; reflexivity].
  - destruct s as [|b s]; [split; [discriminate|intros [post [=]]]|].
    simpl. destruct (Ascii.ascii_dec a b) as [->|Hn].
    + rewrite IH. split; intros [post E]; exists post; [now rewrite E|now injection E].
    + split; [discriminate|]. intros [post [= E _]]. congruence.
Qed.

Lemma includes_unfold s k :
  includes s k =
  String.prefix k s || match s with "" => false | String _ s' => includes s' k end.
Proof. destruct s; reflexivity. Qed.

Lemma includes_spec s : forall k,
  includes s k = true <-> exists pre post, s = pre ++ k ++ post.
Proof.
  induction s as [|a s IH]; intros k; rewrite includes_unfold.
  - rewrite orb_false_r, prefix_spec. split.
    + intros [post E]. now exists "", post.
    + intros (pre & post & E). destruct pre; [now exists post|discriminate].
  - split.
    + intros H. apply orb_prop in H as [H|H].
      * apply prefix_spec in H as [post E]. now exists "", post.
      * apply IH in H as (pre & post & ->). now exists (String a pre), post.
    + intros (pre & post & E). apply orb_true_iff. destruct pre as [|b pre].
      * left. apply prefix_spec. now exists post.
      * right. apply IH. injection E as _ ->. now exists pre, post.
Qed.

Lemma string_app_assoc (a b c : string) : (a ++ b) ++ c = a ++ b ++ c.
Proof.
  induction a as [|x a IH]; [reflexivity|].
  change (String x ((a ++ b) ++ c) = String x (a ++ b ++ c)). now f_equal.
Qed.

(** A text that includes a keyword includes every text the keyword
    includes. *)
Lemma includes_trans s k k0 :
  includes s k = true -> includes k k0 = true -> includes s k0 = true.
Proof.
  intros H1 H2. apply includes_spec in H1 as (pre & post & ->).
  apply includes_spec in H2 as (pre' & post' & ->). apply includes_spec.
  exists (pre ++ pre'), (post' ++ post). now rewrite !string_app_assoc.
Qed.

End StringFacts.

(** ** The matcher against the declarative notion of a match *)
Module MatcherProofs.
Import JS MatcherSpec JSFacts.

Section Repetitions.
Context {R : Type} (p : ascii -> bool) (k : list ascii -> option R).

Lemma star_sound s x :
  star p s k = Some x ->
  exists w rest, s = (w ++ rest)%list /\ forallb p w = true /\ k rest = Some x.
Proof.
  induction s as [|a s IH]; simpl.
  - intros H. exists [], []. auto.
  - destruct (p a) eqn:Ha.
    + destruct (star p s k) as [y|] eqn:Hs.
      * intros [= <-]. destruct (IH eq_refl) as (w & rest & -> & Hw & Hk).
        exists (a :: w), rest. simpl. rewrite Ha, Hw. auto.
      * intros H. exists [], (a :: s). auto.
    + intros H. exists [], (a :: s). auto.
Qed.

Lemma starLazy_sound s x :
  starLazy p s k = Some x ->
  exists w rest, s = (w ++ rest)%list /\ forallb p w = true /\ k rest = Some x.
Proof.
  induction s as [|a s IH]; simpl.
  - destruct (k []) eqn:Hk; [|discriminate]. intros [= <-]. exists [], []. auto.
  - destruct (k (a :: s)) as [y|] eqn:Hk.
    + intros [= <-]. exists [], (a :: s). auto.
    + destruct (p a) eqn:Ha; [|discriminate].
      intros H. destruct (IH H) as (w & rest & -> & Hw & Hk').
      exists (a :: w), rest. simpl. rewrite Ha, Hw. auto.
Qed.
End Repetitions.

(** Whatever the matcher hands to the rest of the pattern is a match. *)
Lemma run_sound {R} r : forall s c (k : list ascii -> captures -> option R) x,
  run r s c k = Some x ->
  exists w rest c',
    s = (w ++ rest)%list /\ matches r w rest c c' /\ k rest c' = Some x.
Proof.
  induction r as [p|p|p|p|r IH|r1 IH1 r2 IH2|i r IH|]; intros s c k x; simpl.
  - destruct s as [|a s]; [discriminate|]. destruct (p a) eqn:Ha; [|discriminate].
    intros H. exists [a], s, c. split; [reflexivity|]. split; [now constructor|assumption].
  - intros H. apply star_sound in H as (w & rest & -> & Hw & Hk).
    exists w, rest, c. split; [reflexivity|]. split; [now constructor|assumption].
  - destruct s as [|a s]; [discriminate|]. destruct (p a) eqn:Ha; [|discriminate].
    intros H. apply star_sound in H as (w & rest & -> & Hw & Hk).
    exists (a :: w), rest, c. split; [reflexivity|]. split; [|assumption].
    constructor; [discriminate|]. simpl. now rewrite Ha, Hw.
  - destruct s as [|a s]; [discriminate|]. destruct (p a) eqn:Ha; [|discriminate].
    intros H. apply starLazy_sound in H as (w & rest & -> & Hw & Hk).
    exists (a :: w), rest, c. split; [reflexivity|]. split; [|assumption].
    constructor; [discriminate|]. simpl. now rewrite Ha, Hw.
  - destruct (run r s c k) as [y|] eqn:Hr.
    + intros [= <-]. apply IH in Hr as (w & rest & c' & -> & Hm & Hk).
      exists w, rest, c'. split; [reflexivity|]. split; [now constructor|assumption].
    + intros H. exists [], s, c. split; [reflexivity|].
      split; [apply matches_Opt_skipped|assumption].
  - intros H. apply IH1 in H as (w1 & rest1 & c1 & -> & Hm1 & H).
    apply IH2 in H as (w2 & rest & c2 & -> & Hm2 & Hk).
    exists (w1 ++ w2)%list, rest, c2. split; [now rewrite <- app_assoc|].
    split; [econstructor; eassumption|assumption].
  - intros H. apply IH in H as (w & rest & c' & -> & Hm & Hk).
    rewrite consumed_app in Hk.
    exists w, rest, ((i, str w) :: c'). split; [reflexivity|].
    split; [now constructor|assumption].
  - destruct s as [|a s]; [|discriminate].
    intros H. exists [], [], c. split; [reflexivity|]. split; [constructor|assumption].
Qed.

Lemma matchHere_sound r pre s m :
  matchHere r pre s = Some m ->
  exists w rest c,
    s = (w ++ rest)%list /\ matches r w rest [] c /\
    m = {| before := str (rev pre); matched := str w; after := str rest; groups := c |}.
Proof.
  unfold matchHere. intros H.
  apply run_sound in H as (w & rest & c & -> & Hm & H).
  rewrite consumed_app in H. injection H as <-.
  exists w, rest, c. auto.
Qed.

Lemma searchFrom_sound r s : forall pre m,
  searchFrom r pre s = Some m ->
  exists skipped w rest c,
    s = (skipped ++ w ++ rest)%list /\ matches r w rest [] c /\
    m = {| before := str (rev pre ++ skipped); matched := str w;
           after := str rest; groups := c |}.
Proof.
  induction s as [|a s IH]; intros pre m; simpl.
  - destruct (matchHere r pre []) as [m'|] eqn:Hm; [|discriminate].
    intros [= <-]. apply matchHere_sound in Hm as (w & rest & c & E & Hm & ->).
    exists [], w, rest, c. rewrite app_nil_r. auto.
  - destruct (matchHere r pre (a :: s)) as [m'|] eqn:Hm.
    + intros [= <-]. apply matchHere_sound in Hm as (w & rest & c & E & Hm & ->).
      exists [], w, rest, c. rewrite app_nil_r. auto.
    + intros H. apply IH in H as (skipped & w & rest & c & -> & Hm' & ->).
      exists (a :: skipped), w, rest, c. simpl. rewrite <- app_assoc. auto.
Qed.

(** The search passes over the start positions at which the pattern
    does not match. *)
Lemma searchFrom_skip r skipped : forall pre s,
  (forall x y pre', skipped = (x ++ y)%list -> y <> [] ->
     matchHere r pre' (y ++ s) = None) ->
  searchFrom r pre (skipped ++ s) = searchFrom r (rev skipped ++ pre) s.
Proof.
  induction skipped as [|a l IH]; intros pre s H; [reflexivity|].
  change ((a :: l) ++ s)%list with (a :: (l ++ s))%list.
  assert (E : searchFrom r pre (a :: (l ++ s)%list) = searchFrom r (a :: pre) (l ++ s)).
  { simpl. change (a :: (l ++ s))%list with ((a :: l) ++ s)%list.
    now rewrite (H [] (a :: l) pre eq_refl). }
  rewrite E, IH.
  - simpl. now rewrite <- app_assoc.
  - intros x y pre' -> Hy. now apply (H (a :: x) y).
Qed.

(** [exec] returns a match of the pattern somewhere in the text. *)
Lemma exec_sound r s m :
  exec r s = Some m ->
  exists skipped w rest,
    chars s = (skipped ++ w ++ rest)%list /\ matches r w rest [] (groups m) /\
    before m = str skipped /\ matched m = str w /\ after m = str rest.
Proof.
  unfold exec. intros H.
  apply searchFrom_sound in H as (skipped & w & rest & c & E & Hm & ->).
  exists skipped, w, rest. simpl. auto.
Qed.

(** [execAtStart] returns a match of the pattern at the head of the text. *)
Lemma execAtStart_sound r s m :
  execAtStart r s = Some m ->
  exists w rest,
    chars s = (w ++ rest)%list /\ matches r w rest [] (groups m) /\
    before m = "" /\ matched m = str w /\ after m = str rest.
Proof.
  unfold execAtStart. intros H.
  apply matchHere_sound in H as (w & rest & c & E & Hm & ->).
  exists w, rest. simpl. auto.
Qed.

End MatcherProofs.

(** ** The extractor of analyze-construction: what it emits *)
Module ExtractorProofs.
Import JS AnalyzeConstruction AnalyzeConstructionSpec MatcherSpec ExtractorSpec.
Import JSFacts MatcherProofs AnalyzeConstructionProofs.

Ltac invert_matches :=
  repeat match goal with
  | H : matches (Cat _ _) _ _ _ _ |- _ => inversion H; subst; clear H
  | H : matches (Group _ _) _ _ _ _ |- _ => inversion H; subst; clear H
  | H : matches (Opt _) _ _ _ _ |- _ => inversion H; subst; clear H
  | H : matches (Chr _) _ _ _ _ |- _ => inversion H; subst; clear H
  | H : matches (Star _) _ _ _ _ |- _ => inversion H; subst; clear H
  | H : matches (Plus _) _ _ _ _ |- _ => inversion H; subst; clear H
  | H : matches (PlusLazy _) _ _ _ _ |- _ => inversion H; subst; clear H
  | H : matches Eos _ _ _ _ |- _ => inversion H; subst; clear H
  end.

Lemma dropWhile_run {A} (p : A -> bool) w rest :
  forallb p w = true ->
  match rest with [] => True | c :: _ => p c = false end ->
  dropWhile p (w ++ rest) = rest.
Proof.
  intros Hw Hr. induction w as [|a w IH]; simpl in *.
  - destruct rest as [|c rest]; [reflexivity|]. simpl. now rewrite Hr.
  - apply andb_prop in Hw as [Ha Hw]. rewrite Ha. auto.
Qed.

Lemma truthyString_str l : l <> [] -> truthyString (str l) = true.
Proof. destruct l; [congruence|reflexivity]. Qed.

Lemma matches_decimal w rest c c' :
  matches decimal w rest c c' -> decimalText (str w) = true /\ c' = c.
Proof.
  unfold decimal. intros H. invert_matches.
  - split; [|reflexivity]. unfold decimalText. rewrite chars_str.
    match goal with H : isChar _ _ = true |- _ => apply Ascii.eqb_eq in H; subst end.
    rewrite (takeWhile_run isDigit), (dropWhile_run isDigit) by (try assumption; reflexivity).
    destruct w1 as [|d w1]; [congruence|]. simpl.
    match goal with H : forallb isDigit ?w = true |- context [forallb isDigit ?w] => rewrite H end.
    rewrite truthyString_str by assumption. reflexivity.
  - split; [|reflexivity]. unfold decimalText. rewrite chars_str.
    rewrite (takeWhile_run isDigit), (dropWhile_run isDigit) by (try assumption; exact I).
    destruct w1; [congruence|reflexivity].
Qed.

Lemma wordText_str w : w <> [] -> forallb isWord w = true -> wordText (str w) = true.
Proof.
  intros Hn Hw. unfold wordText. now rewrite truthyString_str, chars_str, Hw.
Qed.

Ltac settle_decimal :=
  match goal with
  | H : matches decimal _ _ _ _ |- _ => apply matches_decimal in H as [? ->]
  end.

(** One turn of the inner loop pushes a material of that shape. *)
Lemma attempt_shape i p line m :
  In (i, p) patterns -> attempt i p line = Some m -> extractedShape m.
Proof.
  intros Hin. unfold attempt.
  destruct (exec p line) as [r|] eqn:He; [|discriminate].
  apply exec_sound in He as (sk & w & rest & Hs & Hm & _).
  destruct r as [b mt af g]; simpl in Hm.
  simpl in Hin. destruct Hin as [[= <- <-]|[[= <- <-]|[[= <- <-]|[]]]];
    [unfold pattern0 in Hm|unfold pattern1 in Hm|unfold pattern2 in Hm];
    invert_matches; settle_decimal;
    cbv [fields group groups lookupGroup Nat.eqb toStringArg accepted];
    match goal with
    | |- (if ?g then Some {| name := cleanMaterialName ?n; quantity := parseFloat ?q;
                             unit := standardizeUnit ?u; unitPrice := _;
                             totalPrice := _ |} else None) = _ -> _ =>
        destruct g eqn:Hg; [|discriminate]; intros [= <-]; exists n, q, u
    end;
    apply andb_prop in Hg as [Hg _]; apply andb_prop in Hg as [_ Hg];
    rewrite chars_str;
    (split; [now apply truthyString_str|]);
    (split; [assumption|]); (split; [assumption|]);
    (split; [now apply wordText_str|]); (split; [assumption|reflexivity]).
Qed.

(** X1. Every material the extractor returns comes from three captured
    texts: a non-empty name without line terminator, a decimal literal
    (digits, possibly a point and digits) and one word of [\w]
    characters. Its fields are the cleaned name, the parsed literal,
    which is above zero, the standardized word, and two prices of 0. *)
Theorem extracted_materials_shape text :
  Forall extractedShape (extractMaterialsFromText text).
Proof.
  rewrite extract_take. apply List.Forall_forall. intros m Hin.
  apply list_elem_of_In, elem_of_take in Hin as (n & Hn & _).
  apply list_elem_of_lookup_2, list_elem_of_omap in Hn as (line & _ & Hl).
  unfold lineMaterial in Hl.
  destruct (negb (truthyString (trim line)) || (String.length (trim line) <? 5)%nat);
    [discriminate|].
  apply tryPatterns_pushed in Hl as (i & p & Hin & Ha).
  eapply attempt_shape; eassumption.
Qed.

(** *** [standardizeUnit] *)

Lemma lowerChar_not_upper c : between 65 90 (lowerChar c) = false.
Proof. by_all_chars c. Qed.

Lemma toLowerCase_no_upper s :
  forallb (fun c => negb (between 65 90 c)) (chars (toLowerCase s)) = true.
Proof.
  unfold toLowerCase. rewrite chars_str. induction (chars s) as [|c l IH]; [reflexivity|].
  simpl. now rewrite lowerChar_not_upper, IH.
Qed.

(** The only member names of [Object.prototype] without an upper-case
    letter. *)
Lemma inherited_lower k :
  inherited k = true ->
  forallb (fun c => negb (between 65 90 c)) (chars k) = true ->
  k = "constructor" \/ k = "__proto__".
Proof.
  unfold inherited, objectPrototypeKeys. simpl existsb. intros H Hl.
  repeat (apply orb_prop in H as [H|H];
          [apply String.eqb_eq in H; subst k;
           first [now left | now right | vm_compute in Hl; discriminate]|]).
  discriminate.
Qed.

(** X2. [standardizeUnit] returns something that is not a string exactly
    when the lower-cased unit is [constructor] or [__proto__]: the read
    [unitMap[unit.toLowerCase()]] then finds the member of
    [Object.prototype] of that name, which is truthy, so [|| unit] does
    not apply. The other member names have an upper-case letter and are
    never looked up. *)
Theorem standardizeUnit_not_a_string unit k :
  standardizeUnit unit = Member k <->
  k = toLowerCase unit /\ (k = "constructor" \/ k = "__proto__").
Proof.
  unfold standardizeUnit, orElse, get. split.
  - destruct (ownProperty unitMap (toLowerCase unit)) as [v|] eqn:Ho.
    + simpl. destruct (truthyString v); discriminate.
    + destruct (inherited (toLowerCase unit)) eqn:Hi; [|discriminate].
      simpl. intros [= <-]. split; [reflexivity|].
      apply inherited_lower; [assumption|apply toLowerCase_no_upper].
  - intros [-> [H|H]]; rewrite H; reflexivity.
Qed.

(** X3. When [standardizeUnit] returns a string, it is the unit as given
    or one of the seven units on the right of [unitMap], and
    standardizing that string again returns it unchanged. *)
Theorem standardizeUnit_idempotent unit v :
  standardizeUnit unit = Just v ->
  (v = unit \/ In v canonicalUnits) /\ standardizeUnit v = Just v.
Proof.
  intros H. assert (Hc : v = unit \/ In v canonicalUnits).
  { revert H. unfold standardizeUnit, orElse, get.
    destruct (ownProperty unitMap (toLowerCase unit)) as [a|] eqn:Ho.
    - simpl. destruct (truthyString a).
      + intros [= <-]. right. apply ownProperty_In in Ho as [k' Hin].
        simpl in Hin.
        repeat (destruct Hin as [[= _ <-]|Hin]; [vm_compute; tauto|]).
        destruct Hin.
      + intros [= <-]. now left.
    - destruct (inherited (toLowerCase unit)); simpl.
      + discriminate.
      + intros [= <-]. now left. }
  split; [assumption|].
  destruct Hc as [->|Hin]; [assumption|].
  simpl in Hin.
  repeat (destruct Hin as [<-|Hin]; [reflexivity|]).
  destruct Hin.
Qed.

Lemma standardizeUnit_idempotent_witness :
  ("pieces" = "PCS" \/ In "pieces" canonicalUnits) /\
  standardizeUnit "pieces" = Just "pieces".
Proof. apply (standardizeUnit_idempotent "PCS"). reflexivity. Defined.

(** *** [cleanMaterialName] *)

Lemma upper_not_lower a : isLower (upperWordChar a) = false.
Proof. by_all_chars a. Qed.

Lemma upper_word a : isWord (upperWordChar a) = isWord a.
Proof. by_all_chars a. Qed.

Lemma upper_space a : isWord a = true -> isSpace (upperWordChar a) = isSpace a.
Proof. by_all_chars a. Qed.

Lemma lower_word a : isLower a = true -> isWord a = true.
Proof. by_all_chars a. Qed.

Lemma capitalizeWords_titleCased l : forall b,
  titleCased b (capitalizeWords b l) = true.
Proof.
  induction l as [|a l IH]; intros b; [reflexivity|]. simpl.
  destruct (isWord a) eqn:Hw, b; simpl;
    rewrite ?upper_word, ?Hw, ?upper_not_lower, ?IH; try reflexivity.
  destruct (isLower a) eqn:Hl; [|reflexivity].
  apply lower_word in Hl. congruence.
Qed.

Lemma capitalizeWords_spaces l : forall b,
  map isSpace (capitalizeWords b l) = map isSpace l.
Proof.
  induction l as [|a l IH]; intros b; [reflexivity|]. simpl. rewrite IH. f_equal.
  destruct (isWord a) eqn:Hw, b; simpl; try reflexivity. now apply upper_space.
Qed.

Lemma length_dropWhile {A} (p : A -> bool) l : length (dropWhile p l) <= length l.
Proof. induction l as [|a l IH]; simpl; [lia|]. destruct (p a); simpl; lia. Qed.

Lemma dropWhile_fixed {A} (p : A -> bool) l :
  dropWhile p l = l <-> match l with [] => True | a :: _ => p a = false end.
Proof.
  destruct l as [|a l]; simpl; [tauto|]. destruct (p a) eqn:Ha.
  - split; [|discriminate]. intros H.
    pose proof (length_dropWhile p l) as Hl. rewrite H in Hl. simpl in Hl. lia.
  - tauto.
Qed.

Lemma dropWhile_idempotent {A} (p : A -> bool) l :
  dropWhile p (dropWhile p l) = dropWhile p l.
Proof.
  induction l as [|a l IH]; simpl; [reflexivity|].
  destruct (p a) eqn:Ha; [assumption|]. simpl. now rewrite Ha.
Qed.

Lemma dropWhile_snoc {A} (p : A -> bool) l a :
  p a = false -> dropWhile p (l ++ [a]) = (dropWhile p l ++ [a])%list.
Proof.
  intros Ha. induction l as [|b l IH]; simpl; [now rewrite Ha|].
  destruct (p b); [assumption|reflexivity].
Qed.

(** The text left by [trim] has no white space at either end. *)
Lemma trim_edges l :
  let t := rev (dropWhile isSpace (rev (dropWhile isSpace l))) in
  dropWhile isSpace t = t /\ dropWhile isSpace (rev t) = rev t.
Proof.
  simpl. split.
  - pose proof (dropWhile_idempotent isSpace l) as H.
    destruct (dropWhile isSpace l) as [|a l1]; [reflexivity|].
    apply dropWhile_fixed in H.
    cbn [rev]. rewrite !dropWhile_snoc by assumption.
    rewrite rev_app_distr. simpl. now rewrite H.
  - rewrite rev_involutive. apply dropWhile_idempotent.
Qed.

Lemma dropWhile_fixed_map {A} (p : A -> bool) l l' :
  map p l = map p l' -> dropWhile p l = l -> dropWhile p l' = l'.
Proof.
  intros Hm H. apply dropWhile_fixed. apply dropWhile_fixed in H.
  destruct l, l'; try discriminate; [exact I|]. injection Hm as Hm _. congruence.
Qed.

(** X4. A cleaned material name has no white space at either end, and
    none of its words begins with a lower-case ASCII letter: every word
    character that follows a character other than [\w], or begins the
    name, was upper-cased. *)
Theorem cleanMaterialName_trimmed_title_case name :
  trim (cleanMaterialName name) = cleanMaterialName name /\
  titleCased false (chars (cleanMaterialName name)) = true.
Proof.
  unfold cleanMaterialName.
  set (s3 := removeMatch _ _). clearbody s3.
  unfold trim at 2 4. rewrite !chars_str.
  set (t := rev (dropWhile isSpace (rev (dropWhile isSpace (chars s3))))).
  destruct (trim_edges (chars s3)) as [H1 H2]. fold t in H1, H2.
  split; [|apply capitalizeWords_titleCased].
  assert (E1 : dropWhile isSpace (capitalizeWords false t) = capitalizeWords false t).
  { apply (dropWhile_fixed_map isSpace t); [|exact H1].
    symmetry. apply capitalizeWords_spaces. }
  assert (E2 : dropWhile isSpace (rev (capitalizeWords false t)) =
               rev (capitalizeWords false t)).
  { apply (dropWhile_fixed_map isSpace (rev t)); [|exact H2].
    now rewrite !map_rev, capitalizeWords_spaces. }
  unfold trim. rewrite !chars_str. fold t. now rewrite E1, E2, rev_involutive.
Qed.

(** The first replacement of [cleanMaterialName], [/^\d+\.?\s*/]. *)
Lemma leading_number_removed ds rest (point : bool) :
  ds <> [] -> forallb isDigit ds = true ->
  match rest with
  | [] => True
  | c :: _ => isDigit c = false /\ isChar "." c = false /\ isSpace c = false
  end ->
  let number := (ds ++ (if point then ["."%char; " "%char] else []) ++ rest)%list in
  removeMatch
    (execAtStart (Plus isDigit ++ Opt (Chr (isChar ".")) ++ Star isSpace)%re (str number))
    (str number) = str rest.
Proof.
  intros Hne Hds Hrest. cbn zeta.
  destruct ds as [|d0 ds]; [congruence|]. cbn [forallb] in Hds.
  apply andb_prop in Hds as [Hd0 Hds].
  assert (Hsp : stops isSpace rest).
  { destruct rest as [|c rest]; [exact I|]. apply Hrest. }
  assert (E : execAtStart (Plus isDigit ++ Opt (Chr (isChar ".")) ++ Star isSpace)%re
                (str ((d0 :: ds) ++ (if point then ["."%char; " "%char] else []) ++ rest)) =
              Some {| before := "";
                      matched := str ((d0 :: ds) ++ (if point then ["."%char; " "%char] else []));
                      after := str rest; groups := [] |}).
  { unfold execAtStart, matchHere. rewrite chars_str. cbn [run app]. rewrite Hd0.
    apply star_max; [assumption| |].
    - destruct point; [reflexivity|]. destruct rest as [|c rest]; [exact I|]. apply Hrest.
    - destruct point; cbn [app].
      + replace (isChar "." "."%char) with true by reflexivity.
        change (" "%char :: rest) with ([" "%char] ++ rest)%list.
        erewrite star_max; [|reflexivity|exact Hsp|reflexivity].
        do 2 f_equal. apply consumed_eq. cbn [app]. rewrite <- app_assoc. reflexivity.
      + destruct rest as [|c rest].
        * cbn [star]. do 2 f_equal. apply consumed_eq. now rewrite !app_nil_r.
        * destruct Hrest as (_ & Hp & Hs). rewrite Hp. cbn [star]. rewrite Hs.
          do 2 f_equal. apply consumed_eq. now rewrite app_nil_r. }
  rewrite E. reflexivity.
Qed.

Lemma no_leading_number rest :
  match rest with [] => True | c :: _ => isDigit c = false end ->
  removeMatch
    (execAtStart (Plus isDigit ++ Opt (Chr (isChar ".")) ++ Star isSpace)%re (str rest))
    (str rest) = str rest.
Proof.
  intros H. unfold execAtStart, matchHere. rewrite chars_str. cbn [run].
  destruct rest as [|c rest]; [reflexivity|]. now rewrite H.
Qed.

(** X5. A number that begins a material name is dropped by
    [cleanMaterialName], with or without a point after it: the numbering
    of a list ("1. Concrete") and also a leading size, so that "2x4
    lumber" is cleaned like "x4 lumber". What follows the number begins
    with no digit, point or white space. *)
Theorem cleanMaterialName_drops_leading_number digits rest :
  digitText digits = true -> startsPlain rest = true ->
  cleanMaterialName (digits ++ rest) = cleanMaterialName rest /\
  cleanMaterialName (digits ++ ". " ++ rest) = cleanMaterialName rest.
Proof.
  intros Hd Hr. unfold digitText in Hd. apply andb_prop in Hd as [Hne Hd].
  apply truthyString_chars in Hne as (d0 & ds & Ed). rewrite Ed in Hd.
  assert (Hrest : match chars rest with
                  | [] => True
                  | c :: _ => isDigit c = false /\ isChar "." c = false /\ isSpace c = false
                  end).
  { unfold startsPlain in Hr. destruct (chars rest) as [|c r]; [exact I|].
    apply andb_prop in Hr as [Hr H3]. apply andb_prop in Hr as [H1 H2].
    now rewrite !negb_true_iff in *. }
  assert (E0 : removeMatch
                 (execAtStart (Plus isDigit ++ Opt (Chr (isChar ".")) ++ Star isSpace)%re rest)
                 rest = rest).
  { rewrite <- (str_chars rest) at 1 2. rewrite no_leading_number; [apply str_chars|].
    destruct (chars rest); [exact I|apply Hrest]. }
  split; unfold cleanMaterialName; rewrite E0.
  - assert (E1 : digits ++ rest = str ((d0 :: ds) ++ [] ++ chars rest)).
    { rewrite <- (str_chars (digits ++ rest)). now rewrite chars_app, Ed. }
    rewrite E1.
    rewrite (leading_number_removed (d0 :: ds) (chars rest) false)
      by (assumption || discriminate).
    now rewrite str_chars.
  - assert (E1 : digits ++ ". " ++ rest =
                 str ((d0 :: ds) ++ ["."%char; " "%char] ++ chars rest)).
    { rewrite <- (str_chars (digits ++ ". " ++ rest)). now rewrite !chars_app, Ed. }
    rewrite E1.
    rewrite (leading_number_removed (d0 :: ds) (chars rest) true)
      by (assumption || discriminate).
    now rewrite str_chars.
Qed.

Lemma cleanMaterialName_drops_leading_number_witness :
  cleanMaterialName ("2" ++ "x4 lumber") = cleanMaterialName "x4 lumber" /\
  cleanMaterialName ("2" ++ ". " ++ "x4 lumber") = cleanMaterialName "x4 lumber".
Proof.
  apply cleanMaterialName_drops_leading_number; reflexivity.
Defined.

End ExtractorProofs.

(** ** The extractor on the line shapes its patterns are written for *)
Module LineProofs.
Import JS AnalyzeConstruction AnalyzeConstructionSpec MatcherSpec ExtractorSpec.
Import JSFacts MatcherProofs AnalyzeConstructionProofs ExtractorProofs.

(** *** The matcher, forwards *)

Section Forwards.
Context {R : Type} (p : ascii -> bool) (k : list ascii -> option R).

Lemma star_stops rest : stops p rest -> star p rest k = k rest.
Proof. destruct rest as [|c rest]; simpl; [reflexivity|]. now intros ->. Qed.

(** A repetition fails when the rest of the pattern fails at every stop
    after a run of the class. *)
Lemma star_none s :
  (forall x y, s = (x ++ y)%list -> forallb p x = true -> k y = None) ->
  star p s k = None.
Proof.
  induction s as [|a s IH]; intros H; simpl.
  - now apply (H [] []).
  - rewrite (H [] (a :: s) eq_refl eq_refl). destruct (p a) eqn:Ha; [|reflexivity].
    rewrite IH; [reflexivity|].
    intros x y -> Hx. apply (H (a :: x) y); [reflexivity|]. simpl. now rewrite Ha.
Qed.

(** A greedy repetition gives back its last character when the rest of
    the pattern fails after the whole run and matches one character
    earlier. *)
Lemma star_second w a rest x :
  forallb p w = true -> p a = true -> stops p rest ->
  k rest = None -> k (a :: rest) = Some x ->
  star p (w ++ a :: rest) k = Some x.
Proof.
  intros Hw Ha Hr Hn Hk. induction w as [|b w IH]; simpl in *.
  - now rewrite Ha, (star_stops _ Hr), Hn.
  - apply andb_prop in Hw as [Hb Hw]. now rewrite Hb, (IH Hw).
Qed.
End Forwards.

Lemma takeWhile_dropWhile {A} (p : A -> bool) l :
  l = (takeWhile p l ++ dropWhile p l)%list /\ forallb p (takeWhile p l) = true /\
  match dropWhile p l with [] => True | c :: _ => p c = false end.
Proof.
  induction l as [|a l (IH1 & IH2 & IH3)]; simpl; [auto|].
  destruct (p a) eqn:Ha; simpl; [|auto].
  rewrite Ha, IH2. split; [now f_equal|auto].
Qed.

(** The two shapes of a decimal literal. *)
Lemma decimalText_inv q :
  decimalText q = true ->
  exists ip fp,
    chars q = (ip ++ fp)%list /\ ip <> [] /\ forallb isDigit ip = true /\
    (fp = [] \/ exists f, fp = ("."%char :: f)%list /\ f <> [] /\ forallb isDigit f = true).
Proof.
  unfold decimalText.
  destruct (takeWhile_dropWhile isDigit (chars q)) as (E & Hip & _).
  destruct (takeWhile isDigit (chars q)) as [|i ip]; [discriminate|].
  intros H. exists (i :: ip). destruct (dropWhile isDigit (chars q)) as [|d fp].
  - exists []. split; [assumption|]. split; [discriminate|]. auto.
  - apply andb_prop in H as [H Hf]. apply andb_prop in H as [Hd Hn].
    apply Ascii.eqb_eq in Hd. subst d.
    exists ("."%char :: fp). split; [assumption|]. split; [discriminate|].
    split; [assumption|]. right. exists fp. split; [reflexivity|].
    split; [destruct fp; discriminate|assumption].
Qed.

Lemma decimalText_chars q :
  decimalText q = true ->
  forallb (fun c => isDigit c || isChar "." c) (chars q) = true.
Proof.
  intros H. apply decimalText_inv in H as (ip & fp & -> & _ & Hip & Hfp).
  rewrite forallb_app. apply andb_true_iff. split.
  - apply (forallb_weaken isDigit); [|assumption]. now intros a ->.
  - destruct Hfp as [->|(f & -> & _ & Hf)]; [reflexivity|]. simpl.
    apply (forallb_weaken isDigit); [|assumption]. now intros a ->.
Qed.

(** A decimal literal followed by something that is neither a digit nor
    a point is taken whole. *)
Lemma run_decimal_max {R} q rest c (k : list ascii -> captures -> option R) x :
  decimalText (str q) = true ->
  stops (fun a => isDigit a || isChar "." a) rest ->
  k rest c = Some x ->
  run decimal (q ++ rest) c k = Some x.
Proof.
  intros Hq Hr Hk. apply decimalText_inv in Hq as (ip & fp & E & Hne & Hip & Hfp).
  rewrite chars_str in E. subst q.
  destruct ip as [|i ip]; [congruence|]. cbn [forallb] in Hip.
  apply andb_prop in Hip as [Hi Hip].
  assert (Hrd : stops isDigit rest).
  { destruct rest as [|a rest]; [exact I|]. cbn [stops] in *.
    now apply orb_false_iff in Hr. }
  assert (Hrp : stops (isChar ".") rest).
  { destruct rest as [|a rest]; [exact I|]. cbn [stops] in *.
    now apply orb_false_iff in Hr. }
  unfold decimal. cbn [run app]. rewrite Hi. rewrite <- app_assoc.
  destruct Hfp as [->|(f & -> & Hf0 & Hf)].
  - apply star_max; [assumption|assumption|]. cbn [app run].
    destruct rest as [|a rest]; [assumption|]. cbn [stops] in Hrp. now rewrite Hrp.
  - apply star_max; [assumption|reflexivity|]. cbn [app run].
    rewrite Ascii.eqb_refl. destruct f as [|f0 f]; [congruence|].
    cbn [forallb] in Hf. apply andb_prop in Hf as [Hf0' Hf]. cbn [app]. rewrite Hf0'.
    now rewrite (star_max _ _ f rest x Hf Hrd Hk).
Qed.


Lemma word_not_colon a : isWord a = true -> isChar ":" a = false.
Proof. by_all_chars a. Qed.

Lemma digit_is_word a : isDigit a = true -> isWord a = true.
Proof. by_all_chars a. Qed.

Lemma decimal_char_facts a :
  isDigit a || isChar "." a = true ->
  isChar ":" a = false /\ negb (Ascii.eqb a LF) = true /\ isSpace a = false.
Proof.
  destruct a as [[] [] [] [] [] [] [] []]; vm_compute; intros; repeat split; congruence.
Qed.

(** *** From one line to the result *)

(** A text that is one trimmed line of five characters or more yields
    what the inner loop pushes for it. *)
Lemma single_line l m :
  forallb (fun c => negb (Ascii.eqb c LF)) l = true ->
  match l with [] => False | a :: l' => isSpace a = false /\ isSpace (List.last l' a) = false end ->
  5 <= length l ->
  snd (tryPatterns patterns (str l)) = Some m ->
  extractMaterialsFromText (str l) = [m].
Proof.
  intros Hlf Hedge Hlen Hm.
  assert (Htrim : trim (str l) = str l).
  { destruct l as [|a l']; [contradiction|]. destruct Hedge as [Ha Hl].
    destruct l' as [|b l'']; [simpl in Hlen; lia|].
    destruct (exists_last (l := b :: l'') ltac:(discriminate)) as (mid & z & E).
    rewrite E in *. rewrite last_last in Hl. now apply trim_id. }
  unfold extractMaterialsFromText, slice.
  rewrite split_single_line by now rewrite chars_str.
  cbn [fold_left]. unfold processLine. rewrite Htrim.
  assert (Hl5 : (String.length (str l) <? 5)%nat = false).
  { apply Nat.ltb_ge. now rewrite <- length_chars, chars_str. }
  rewrite Hl5. destruct l as [|a l']; [contradiction|].
  cbn [str string_of_list_ascii truthyString negb orb].
  change (String a (string_of_list_ascii l')) with (str (a :: l')).
  rewrite Hm. reflexivity.
Qed.

(** The first pattern needs a colon. *)
Lemma pattern0_needs_colon line :
  forallb (fun c => negb (isChar ":" c)) (chars line) = true ->
  exec pattern0 line = None.
Proof.
  intros H. destruct (exec pattern0 line) as [m|] eqn:Hm; [|reflexivity].
  exfalso. apply exec_sound in Hm as (sk & w & rest & Hs & Hw & _).
  unfold pattern0 in Hw. invert_matches. rewrite Hs in H.
  rewrite !forallb_app in H. cbn [forallb] in H.
  match goal with H : isChar ":" _ = true |- _ => rewrite H in * end.
  repeat (apply andb_prop in H as [? H] || simpl in H); try discriminate.
  repeat match goal with H : _ && _ = true |- _ => apply andb_prop in H as [? ?] end.
  discriminate.
Qed.

Ltac list_eq := cbn [app]; repeat (rewrite <- app_assoc; cbn [app]); reflexivity.

Ltac opt_taken :=
  match goal with
  | |- match ?e with Some x => Some x | None => _ end = Some ?X =>
      let E := fresh "E" in assert (E : e = Some X); [|now rewrite E]
  end.


(** *** "<quantity> <unit> of <name>" *)

(** The second pattern on such a line: every repetition takes its whole
    run, and the optional [of] is taken. *)
Lemma pattern1_of_line Q u0 U n0 N pre :
  decimalText (str Q) = true ->
  forallb isWord (u0 :: U) = true ->
  isSpace n0 = false -> forallb isDot (n0 :: N) = true ->
  matchHere pattern1 pre
    (Q ++ " "%char :: (u0 :: U) ++ " "%char :: "o"%char :: "f"%char :: " "%char :: n0 :: N) =
  Some {| before := str (rev pre);
          matched := str (Q ++ " "%char :: (u0 :: U) ++
                          " "%char :: "o"%char :: "f"%char :: " "%char :: n0 :: N);
          after := "";
          groups := [(3, str (n0 :: N)); (2, str (u0 :: U)); (1, str Q)] |}.
Proof.
  intros HQ HU Hn0 HN. cbn [forallb] in HU, HN.
  apply andb_prop in HU as [Hu0 HU], HN as [Hd0 HN].
  unfold matchHere, pattern1. cbn [run].
  apply run_decimal_max; [assumption|reflexivity|].
  change (" "%char :: (u0 :: U) ++ " "%char :: "o"%char :: "f"%char :: " "%char :: n0 :: N)%list
    with ([" "%char] ++ ((u0 :: U) ++ " "%char :: "o"%char :: "f"%char :: " "%char :: n0 :: N))%list.
  apply star_max; [reflexivity|simpl; now apply word_not_space|].
  cbn [app]. rewrite Hu0.
  apply star_max; [assumption|reflexivity|].
  replace (isSpace " "%char) with true by reflexivity.
  rewrite star_stops by reflexivity.
  opt_taken.
  { replace (isChar "o" "o"%char) with true by reflexivity.
    replace (isChar "f" "f"%char) with true by reflexivity.
    replace (isSpace " "%char) with true by reflexivity.
    rewrite star_stops by exact Hn0.
    rewrite Hd0. rewrite <- (app_nil_r N) at 1.
    apply star_max; [assumption|exact I|].
    do 2 f_equal.
    - apply consumed_eq. now rewrite app_nil_r.
    - repeat (f_equal; try (apply consumed_eq; list_eq)).
      apply consumed_eq. now rewrite app_nil_r. }
Qed.

Lemma searchFrom_here r pre s m :
  matchHere r pre s = Some m -> searchFrom r pre s = Some m.
Proof. intros H. destruct s; simpl; now rewrite H. Qed.

Lemma last_cons {A} (l : list A) : forall a d, List.last (a :: l) d = List.last l a.
Proof.
  induction l as [|c l IH]; intros a d; [reflexivity|].
  change (List.last (a :: c :: l) d) with (List.last (c :: l) d).
  now rewrite !(IH c).
Qed.

Lemma last_app_cons {A} (l : list A) a l' : forall d,
  List.last (l ++ a :: l') d = List.last l' a.
Proof.
  induction l as [|b l IH]; intros d; [apply last_cons|].
  cbn [app]. rewrite last_cons. apply IH.
Qed.

Lemma forallb_last {A} (p : A -> bool) l : forall d,
  forallb p (d :: l) = true -> p (List.last l d) = true.
Proof.
  induction l as [|a l IH]; intros d H; cbn [forallb] in H.
  - now apply andb_prop in H as [H _].
  - apply andb_prop in H as [_ H]. rewrite (last_cons l a d). now apply IH.
Qed.

Lemma word_run_last_not_space u0 U pre d :
  forallb isWord (u0 :: U) = true ->
  isSpace (List.last (pre ++ u0 :: U) d) = false.
Proof.
  intros H. rewrite last_app_cons. apply word_not_space. now apply forallb_last.
Qed.

Lemma plainName_inv nm :
  plainName nm = true ->
  exists n0 N,
    chars nm = n0 :: N /\ isSpace n0 = false /\ isSpace (List.last N n0) = false /\
    forallb isDot (n0 :: N) = true /\
    forallb (fun c => negb (isChar ":" c)) (n0 :: N) = true /\
    forallb (fun c => negb (Ascii.eqb c LF)) (n0 :: N) = true.
Proof.
  unfold plainName. destruct (chars nm) as [|n0 N]; [discriminate|]. intros H.
  apply andb_prop in H as [H Hall]. apply andb_prop in H as [H0 Hl].
  apply negb_true_iff in H0, Hl. exists n0, N.
  repeat split; try assumption.
  - apply (forallb_weaken _ _ _ (fun a H => proj1 (andb_prop _ _ H)) Hall).
  - apply (forallb_weaken _ _ _ (fun a H => proj2 (andb_prop _ _ H)) Hall).
  - apply (forallb_weaken (fun a => isDot a && negb (isChar ":" a))); [|assumption].
    intros a Ha. apply andb_prop in Ha as [Ha _]. now apply dot_not_LF.
Qed.

Lemma wordText_inv u :
  wordText u = true -> exists u0 U, chars u = u0 :: U /\ forallb isWord (u0 :: U) = true.
Proof.
  unfold wordText. intros H. apply andb_prop in H as [Hn Hw].
  apply truthyString_chars in Hn as (u0 & U & E). rewrite E in Hw. now exists u0, U.
Qed.

(** X6. A line "<quantity> <unit> of <name>", the shape the second
    pattern is written for, yields one material: the cleaned name, the
    parsed quantity and the standardized unit. The quantity is a decimal
    literal above zero, the unit one word, the name free of colon, line
    terminator and white space at its ends. *)
Theorem quantity_unit_of_name_line q u nm :
  decimalText q = true -> gt0 (parseFloat q) = true ->
  wordText u = true -> plainName nm = true ->
  extractMaterialsFromText (q ++ " " ++ u ++ " of " ++ nm) =
  [ {| name := cleanMaterialName nm; quantity := parseFloat q;
       unit := standardizeUnit u; unitPrice := 0; totalPrice := 0 |} ].
Proof.
  intros Hq Hpos Hu Hnm.
  pose proof (decimalText_chars _ Hq) as HQ.
  destruct (decimalText_inv _ Hq) as (ip & fp & EQ & Hip & _).
  destruct (wordText_inv _ Hu) as (u0 & U & EU & HU).
  destruct (plainName_inv _ Hnm) as (n0 & N & EN & Hn0 & Hlast & Hdot & Hcolon & Hlf).
  set (L := (chars q ++ " "%char :: (u0 :: U) ++
             " "%char :: "o"%char :: "f"%char :: " "%char :: n0 :: N)%list).
  assert (EL : q ++ " " ++ u ++ " of " ++ nm = str L).
  { rewrite <- (str_chars (q ++ " " ++ u ++ " of " ++ nm)). f_equal.
    unfold L. rewrite !chars_app, EU, EN. reflexivity. }
  rewrite EL. apply single_line.
  - unfold L. rewrite forallb_app. apply andb_true_iff. split.
    + apply (forallb_weaken _ _ _ (fun a H => proj1 (proj2 (decimal_char_facts a H))) HQ).
    + cbn [forallb]. rewrite forallb_app. cbn [forallb] in *.
      apply andb_prop in HU as [Hu0 HU'].
      rewrite (word_not_LF _ Hu0), (forallb_weaken _ _ _ word_not_LF HU').
      apply andb_prop in Hlf as [-> ->]. reflexivity.
  - unfold L. rewrite EQ. destruct ip as [|i ip']; [congruence|].
    cbn [app]. split.
    + rewrite EQ in HQ. cbn [app forallb] in HQ. apply andb_prop in HQ as [Hi _].
      apply (decimal_char_facts _ Hi).
    + match goal with
      | |- isSpace (List.last ?l _) = false =>
          replace l
            with ((ip' ++ fp ++ " "%char :: (u0 :: U) ++
                   [" "%char; "o"%char; "f"%char; " "%char]) ++ n0 :: N)%list
            by list_eq
      end.
      now rewrite last_app_cons.
  - unfold L. rewrite length_app. cbn [length]. rewrite length_app. cbn [length]. lia.
  - cbn [patterns tryPatterns]. unfold attempt.
    rewrite pattern0_needs_colon.
    2:{ rewrite chars_str. unfold L. rewrite forallb_app. apply andb_true_iff. split.
        - apply (forallb_weaken (fun a => isDigit a || isChar "." a)); [|assumption].
          intros a Ha. now rewrite (proj1 (decimal_char_facts a Ha)).
        - cbn [forallb]. rewrite forallb_app. cbn [forallb] in *.
          apply andb_prop in HU as [Hu0 HU'].
          rewrite (word_not_colon _ Hu0).
          rewrite (forallb_weaken isWord (fun c => negb (isChar ":" c)) U)
            by (try assumption; intros a Ha; now rewrite (word_not_colon _ Ha)).
          apply andb_prop in Hcolon as [-> ->]. reflexivity. }
    unfold exec. rewrite chars_str. unfold L.
    rewrite (searchFrom_here _ _ _ _
               (pattern1_of_line (chars q) u0 U n0 N []
                  ltac:(now rewrite str_chars) HU Hn0 Hdot)).
    cbn [fields Nat.eqb group groups lookupGroup toStringArg accepted snd].
    rewrite <- EU, <- EN, !str_chars, Hpos.
    unfold wordText in Hu. apply andb_prop in Hu as [-> _].
    assert (Hnt : truthyString nm = true) by (destruct nm; [discriminate EN|reflexivity]).
    rewrite Hnt. reflexivity.
Qed.

Lemma quantity_unit_of_name_line_witness :
  extractMaterialsFromText ("2.5" ++ " " ++ "tons" ++ " of " ++ "crushed gravel") =
  [ {| name := cleanMaterialName "crushed gravel"; quantity := parseFloat "2.5";
       unit := standardizeUnit "tons"; unitPrice := 0; totalPrice := 0 |} ].
Proof.
  apply quantity_unit_of_name_line; reflexivity.
Defined.

(** *** "<name> - <quantity> <unit>" *)

Lemma digit_not_point a : isDigit a = true -> isChar "." a = false.
Proof. by_all_chars a. Qed.

Lemma digit_not_colon a : isDigit a = true -> isChar ":" a = false.
Proof. by_all_chars a. Qed.

Lemma digit_unit d : isDigit d = true -> standardizeUnit (String d "") = Just (String d "").
Proof. by_all_chars d. Qed.

(** A match of the second pattern begins with a digit, and after that
    digit has a word character directly followed by white space. *)
Lemma wordThenSpace_app_l l1 l2 :
  wordThenSpace l1 = true -> wordThenSpace (l1 ++ l2) = true.
Proof.
  induction l1 as [|a l1 IH]; [discriminate|]. cbn [app wordThenSpace].
  intros H. apply orb_prop in H as [H|H]; apply orb_true_iff.
  - left. destruct l1 as [|b l1]; [now rewrite andb_false_r in H|exact H].
  - right. now apply IH.
Qed.

Lemma wordThenSpace_app_r l1 l2 :
  wordThenSpace l2 = true -> wordThenSpace (l1 ++ l2) = true.
Proof.
  intros H. induction l1 as [|a l1 IH]; [assumption|].
  cbn [app wordThenSpace]. rewrite IH. apply orb_true_r.
Qed.

Lemma wordThenSpace_run w s0 rest :
  w <> [] -> forallb isWord w = true -> isSpace s0 = true ->
  wordThenSpace (w ++ s0 :: rest) = true.
Proof.
  intros Hne Hw Hs. induction w as [|a w IH]; [congruence|].
  cbn [forallb] in Hw. apply andb_prop in Hw as [Ha Hw].
  cbn [app wordThenSpace]. rewrite Ha. destruct w as [|b w].
  - cbn [app]. now rewrite Hs.
  - cbn [app andb]. cbn [app] in IH. rewrite IH by (assumption || discriminate).
    apply orb_true_r.
Qed.

Lemma wordThenSpace_words w : forallb isWord w = true -> wordThenSpace w = false.
Proof.
  induction w as [|a w IH]; [reflexivity|]. cbn [forallb wordThenSpace].
  intros H. apply andb_prop in H as [Ha Hw]. rewrite (IH Hw), orb_false_r.
  destruct w as [|b w]; [apply andb_false_r|].
  cbn [forallb] in Hw. apply andb_prop in Hw as [Hb _].
  now rewrite (word_not_space _ Hb), andb_false_r.
Qed.

Lemma decimal_starts_with_digit w rest c c' :
  matches decimal w rest c c' -> exists a w', w = a :: w' /\ isDigit a = true.
Proof.
  unfold decimal. intros H. invert_matches;
    (destruct w1 as [|d0 w1]; [congruence|]);
    match goal with
    | Hd : forallb isDigit (d0 :: w1) = true |- _ =>
        cbn [forallb] in Hd; apply andb_prop in Hd as [Ha _]
    end;
    eexists d0, _; (split; [reflexivity|exact Ha]).
Qed.

Lemma pattern1_shape w rest c c' :
  matches pattern1 w rest c c' ->
  exists a w', w = a :: w' /\ isDigit a = true /\ wordThenSpace w' = true.
Proof.
  unfold pattern1. intros H. invert_matches;
    match goal with
    | Hd : matches decimal _ _ _ _ |- _ =>
        apply decimal_starts_with_digit in Hd as (a' & d' & -> & Ha)
    end;
    match goal with
    | Hs : forallb isSpace ?sp = true, Hn : ?sp <> [] |- context [(_ ++ ?sp ++ _)%list] =>
        destruct sp as [|s0 sp']; [congruence|];
        cbn [forallb] in Hs; apply andb_prop in Hs as [Hs0 _]
    end;
    eexists a', _; (split; [reflexivity|]); (split; [exact Ha|]);
    apply wordThenSpace_app_r, wordThenSpace_app_r;
    cbn [app]; now apply wordThenSpace_run.
Qed.





(** A digit of a text whose digits all lie in a final part [l2] is a
    digit of [l2]. *)
Lemma digit_after_no_digit l1 : forall l2 sk a T,
  forallb (fun c => negb (isDigit c)) l1 = true ->
  (l1 ++ l2 = sk ++ a :: T)%list -> isDigit a = true ->
  exists sk', l2 = (sk' ++ a :: T)%list.
Proof.
  induction l1 as [|b l1 IH]; intros l2 sk a T H E Ha; [now exists sk|].
  cbn [forallb] in H. apply andb_prop in H as [Hb H].
  destruct sk as [|s0 sk]; cbn [app] in E; injection E as -> E.
  - now rewrite Ha in Hb.
  - now apply (IH l2 sk a T).
Qed.

(** On "<digit> <word>" at the end of a line no digit is followed by a
    word character directly before white space. *)
Lemma single_digit_tail d u0 U sk a T :
  forallb isWord (u0 :: U) = true ->
  d :: " "%char :: u0 :: U = (sk ++ a :: T)%list -> isDigit a = true ->
  wordThenSpace T = false.
Proof.
  intros HU E Ha.
  assert (Hsuffix : forall sk' T', u0 :: U = (sk' ++ T')%list -> wordThenSpace T' = false).
  { intros sk' T' E'. apply wordThenSpace_words. rewrite E', forallb_app in HU.
    now apply andb_prop in HU as [_ HU]. }
  destruct sk as [|s0 sk]; cbn [app] in E; injection E as _ E.
  - rewrite <- E.
    change (wordThenSpace (" "%char :: u0 :: U))
      with (isWord " "%char && isSpace u0 || wordThenSpace (u0 :: U)).
    replace (isWord " "%char) with false by reflexivity.
    apply (Hsuffix []). reflexivity.
  - destruct sk as [|s1 sk]; cbn [app] in E; injection E as E1 E.
    + now rewrite <- E1 in Ha.
    + apply (Hsuffix (sk ++ [a])%list). rewrite E, <- app_assoc. reflexivity.
Qed.

Lemma pattern1_fails_single_digit pre0 d u0 U :
  forallb (fun c => negb (isDigit c)) pre0 = true ->
  forallb isWord (u0 :: U) = true ->
  exec pattern1 (str (pre0 ++ d :: " "%char :: u0 :: U)) = None.
Proof.
  intros Hpre HU.
  destruct (exec pattern1 _) as [m|] eqn:Hm; [|reflexivity].
  exfalso. apply exec_sound in Hm as (sk & w & rest & Hs & Hw & _).
  rewrite chars_str in Hs.
  apply pattern1_shape in Hw as (a & w' & -> & Ha & Hw).
  apply (wordThenSpace_app_l _ rest) in Hw.
  cbn [app] in Hs.
  destruct (digit_after_no_digit _ _ _ _ _ Hpre Hs Ha) as [sk' E].
  rewrite (single_digit_tail _ _ _ _ _ _ HU E Ha) in Hw. discriminate.
Qed.

(** White space taken from the head of a text that does not end with
    white space stops inside that text. *)
Lemma space_run_stops_inside w2 : forall rest x y d,
  w2 <> [] -> isSpace (List.last w2 d) = false ->
  (w2 ++ rest = x ++ y)%list -> forallb isSpace x = true ->
  exists m0 m, y = m0 :: m /\ In m0 w2.
Proof.
  induction w2 as [|a w2 IH]; intros rest x y d Hne Hlast E Hx; [congruence|].
  destruct x as [|x0 x]; cbn [app] in E.
  - exists a, (w2 ++ rest)%list. split; [now rewrite <- E|now left].
  - injection E as <- E. cbn [forallb] in Hx. apply andb_prop in Hx as [Ha Hx].
    destruct w2 as [|b w2]; [cbn in Hlast; congruence|].
    rewrite last_cons in Hlast.
    destruct (IH rest x y a ltac:(discriminate) Hlast E Hx) as (m0 & m & -> & Hin).
    exists m0, m. split; [reflexivity|now right].
Qed.

(** The third pattern on "<name> - <digit> <word>": the lazy name group
    stops at the end of the name, the first place after which the dash
    follows. *)
Lemma pattern2_dash_line n0 N d u0 U :
  forallb isDot (n0 :: N) = true ->
  forallb (fun a => negb (dashClass a)) (n0 :: N) = true ->
  isSpace (List.last N n0) = false ->
  isDigit d = true -> forallb isWord (u0 :: U) = true ->
  matchHere pattern2 []
    ((n0 :: N) ++ " "%char :: "-"%char :: " "%char :: d :: " "%char :: u0 :: U) =
  Some {| before := "";
          matched := str ((n0 :: N) ++ " "%char :: "-"%char :: " "%char :: d :: " "%char :: u0 :: U);
          after := "";
          groups := [(3, str (u0 :: U)); (2, str [d]); (1, str (n0 :: N))] |}.
Proof.
  intros Hdot Hdash Hlast Hd HU. cbn [forallb] in Hdot, Hdash, HU.
  apply andb_prop in Hdot as [Hn0 Hdot], Hdash as [_ Hdash], HU as [Hu0 HU].
  unfold matchHere, pattern2. cbn [run app]. rewrite Hn0.
  apply starLazy_first; [assumption| |].
  - intros w1 w2 -> Hne. apply star_none. intros x y E Hx.
    assert (Hl : isSpace (List.last w2 n0) = false).
    { destruct w2 as [|b w2]; [congruence|]. now rewrite last_app_cons, <- (last_cons w2 b n0) in Hlast. }
    destruct (space_run_stops_inside _ _ _ _ _ Hne Hl E Hx) as (m0 & m & -> & Hin).
    rewrite forallb_app in Hdash. apply andb_prop in Hdash as [_ Hdash].
    rewrite forallb_forall in Hdash. specialize (Hdash _ Hin).
    apply negb_true_iff in Hdash. now rewrite Hdash.
  - change (" "%char :: "-"%char :: " "%char :: d :: " "%char :: u0 :: U)
      with ([" "%char] ++ "-"%char :: " "%char :: d :: " "%char :: u0 :: U)%list.
    apply star_max; [reflexivity|reflexivity|].
    replace (dashClass "-"%char) with true by reflexivity.
    change (" "%char :: d :: " "%char :: u0 :: U)
      with ([" "%char] ++ d :: " "%char :: u0 :: U)%list.
    apply star_max; [reflexivity|simpl; now apply digit_not_space|].
    change (d :: " "%char :: u0 :: U) with ([d] ++ " "%char :: u0 :: U)%list.
    apply run_decimal_max;
      [unfold decimalText; rewrite chars_str; cbn; now rewrite Hd|reflexivity|].
    change (" "%char :: u0 :: U) with ([" "%char] ++ u0 :: U)%list.
    apply star_max; [reflexivity|simpl; now apply word_not_space|].
    rewrite Hu0. rewrite <- (app_nil_r U) at 1.
    apply star_max; [assumption|exact I|].
    do 2 f_equal.
    + apply consumed_eq. now rewrite app_nil_r.
    + repeat (f_equal; try (apply consumed_eq; list_eq)).
      apply consumed_eq. now rewrite app_nil_r.
Qed.

(** X8. A line "<name> - <digit> <unit>", with a quantity of one digit,
    is read by the third pattern as written: the first pattern finds no
    colon, the second finds no word followed by white space after a
    digit, and the third gives the cleaned name, the digit as the
    quantity and the standardized unit. The name has no digit and no
    dash of its own. *)
Theorem dash_line_single_digit nm d u :
  plainName nm = true -> withoutDigit nm = true -> withoutDash nm = true ->
  isDigit d = true -> gt0 (parseFloat (String d "")) = true -> wordText u = true ->
  extractMaterialsFromText (nm ++ " - " ++ String d (" " ++ u)) =
  [ {| name := cleanMaterialName nm; quantity := parseFloat (String d "");
       unit := standardizeUnit u; unitPrice := 0; totalPrice := 0 |} ].
Proof.
  intros Hnm Hnd Hndash Hd Hpos Hu.
  destruct (plainName_inv _ Hnm) as (n0 & N & EN & Hn0 & Hlast & Hdot & Hcolon & Hlf).
  destruct (wordText_inv _ Hu) as (u0 & U & EU & HU).
  unfold withoutDigit in Hnd. unfold withoutDash in Hndash. rewrite EN in Hnd, Hndash.
  set (S := (d :: " "%char :: u0 :: U)%list).
  set (L := ((n0 :: N) ++ " "%char :: "-"%char :: " "%char :: S)%list).
  assert (EL : nm ++ " - " ++ String d (" " ++ u) = str L).
  { rewrite <- (str_chars (nm ++ " - " ++ String d (" " ++ u))). f_equal.
    unfold L, S. rewrite !chars_app, EN.
    change (chars (String d (" " ++ u))) with (d :: " "%char :: chars u).
    now rewrite EU. }
  rewrite EL. apply single_line.
  - unfold L, S. rewrite forallb_app, Hlf. cbn [forallb andb].
    rewrite (digit_not_LF _ Hd). apply (forallb_weaken _ _ _ word_not_LF HU).
  - unfold L, S. cbn [app]. split; [assumption|].
    match goal with
    | |- isSpace (List.last ?l _) = false =>
        replace l with ((N ++ [" "%char; "-"%char; " "%char; d; " "%char]) ++
                        u0 :: U)%list by list_eq
    end.
    now apply word_run_last_not_space.
  - unfold L, S. cbn [app length]. rewrite length_app. cbn [length]. lia.
  - cbn [patterns tryPatterns]. unfold attempt.
    rewrite pattern0_needs_colon.
    2:{ rewrite chars_str. unfold L, S. rewrite forallb_app, Hcolon.
        change (" "%char :: "-"%char :: " "%char :: d :: " "%char :: u0 :: U)
          with ([" "%char; "-"%char; " "%char] ++ [d; " "%char] ++ u0 :: U)%list.
        rewrite !forallb_app. cbn [forallb]. rewrite (digit_not_colon _ Hd).
        apply andb_true_iff. split; [reflexivity|].
        apply andb_true_iff. split; [reflexivity|].
        apply (forallb_weaken isWord (fun c => negb (isChar ":" c)) (u0 :: U)); [|assumption].
        intros a Ha. now rewrite (word_not_colon _ Ha). }
    replace (exec pattern1 (str L)) with (@None matchResult).
    2:{ symmetry. unfold L, S.
        change ((n0 :: N) ++ " "%char :: "-"%char :: " "%char :: d :: " "%char :: u0 :: U)%list
          with ((n0 :: N) ++ [" "%char; "-"%char; " "%char] ++ d :: " "%char :: u0 :: U)%list.
        rewrite app_assoc. apply pattern1_fails_single_digit; [|assumption].
        rewrite forallb_app, Hnd. reflexivity. }
    unfold exec. rewrite chars_str. unfold L, S.
    rewrite (searchFrom_here _ _ _ _
               (pattern2_dash_line n0 N d u0 U Hdot Hndash Hlast Hd HU)).
    cbn [fields Nat.eqb group groups lookupGroup toStringArg accepted snd].
    rewrite <- EU, <- EN, !str_chars.
    change (str [d]) with (String d ""). rewrite Hpos.
    unfold wordText in Hu. apply andb_prop in Hu as [-> _].
    assert (Hnt : truthyString nm = true) by (destruct nm; [discriminate EN|reflexivity]).
    rewrite Hnt. reflexivity.
Qed.

Lemma dash_line_single_digit_witness :
  extractMaterialsFromText ("Steel rebar" ++ " - " ++ String "8" (" " ++ "pcs")) =
  [ {| name := cleanMaterialName "Steel rebar"; quantity := parseFloat "8";
       unit := standardizeUnit "pcs"; unitPrice := 0; totalPrice := 0 |} ].
Proof.
  apply dash_line_single_digit; reflexivity.
Defined.

(** *** "<name>: <quantity>" without a unit *)

(** The first pattern on "<name>: <digits>" at the end of a line: with
    all digits as the quantity nothing is left for the unit group, so
    the quantity gives back its last digit, and the unit group takes
    it. *)
Lemma pattern0_without_unit n0 N q0 Q d :
  forallb isDot (n0 :: N) = true ->
  forallb (fun c => negb (isChar ":" c)) (n0 :: N) = true ->
  forallb isDigit (q0 :: Q) = true -> isDigit d = true ->
  matchHere pattern0 [] ((n0 :: N) ++ ":"%char :: " "%char :: (q0 :: Q) ++ [d]) =
  Some {| before := "";
          matched := str ((n0 :: N) ++ ":"%char :: " "%char :: (q0 :: Q) ++ [d]);
          after := "";
          groups := [(3, str [d]); (2, str (q0 :: Q)); (1, str (n0 :: N))] |}.
Proof.
  intros Hdot Hcolon HQ Hd. cbn [forallb] in Hdot, Hcolon, HQ.
  apply andb_prop in Hdot as [Hn0 Hdot], Hcolon as [_ Hcolon], HQ as [Hq0 HQ].
  unfold matchHere, pattern0, decimal. cbn [run app]. rewrite Hn0.
  apply starLazy_first; [assumption| |].
  - intros w1 [|a w2] -> Hne; [contradiction|].
    rewrite forallb_app in Hcolon. apply andb_prop in Hcolon as [_ Hcolon].
    cbn [forallb] in Hcolon. apply andb_prop in Hcolon as [Ha _].
    apply negb_true_iff in Ha. cbn [app]. now rewrite Ha.
  - replace (isChar ":" ":"%char) with true by reflexivity.
    change (" "%char :: q0 :: Q ++ [d]) with ([" "%char] ++ (q0 :: Q ++ [d]))%list.
    apply star_max; [reflexivity|simpl; now apply digit_not_space|].
    rewrite Hq0.
    apply star_second; [assumption|assumption|exact I|reflexivity|].
    rewrite (digit_not_point _ Hd).
    rewrite star_stops by (now apply digit_not_space).
    rewrite (digit_is_word _ Hd). cbn [star].
    do 2 f_equal.
    + apply consumed_eq. now rewrite app_nil_r.
    + repeat (f_equal; try (apply consumed_eq; list_eq)).
Qed.

(** X9. A line "<name>: <quantity>" that ends after the quantity,
    without a unit, still yields a material when the name is a plain
    name and the quantity is a run of two digits or more whose part
    before the last digit is above zero: the first pattern matches by
    backtracking, with all digits but the last as the quantity and the
    last digit as the unit. *)
Theorem colon_line_without_unit nm digits d :
  plainName nm = true -> digitText digits = true -> isDigit d = true ->
  gt0 (parseFloat digits) = true ->
  extractMaterialsFromText (nm ++ ": " ++ digits ++ String d "") =
  [ {| name := cleanMaterialName nm; quantity := parseFloat digits;
       unit := Just (String d ""); unitPrice := 0; totalPrice := 0 |} ].
Proof.
  intros Hnm Hq Hd Hpos.
  destruct (plainName_inv _ Hnm) as (n0 & N & EN & Hn0 & Hlast & Hdot & Hcolon & Hlf).
  unfold digitText in Hq. apply andb_prop in Hq as [Hqt HQ].
  destruct (truthyString_chars _ Hqt) as (q0 & Q & EQ). rewrite EQ in HQ.
  set (L := ((n0 :: N) ++ ":"%char :: " "%char :: (q0 :: Q) ++ [d])%list).
  assert (EL : nm ++ ": " ++ digits ++ String d "" = str L).
  { rewrite <- (str_chars (nm ++ ": " ++ digits ++ String d "")). f_equal.
    unfold L. now rewrite !chars_app, EN, EQ. }
  rewrite EL. apply single_line.
  - unfold L. rewrite forallb_app, Hlf. cbn [forallb andb].
    change (q0 :: Q ++ [d])%list with ((q0 :: Q) ++ [d])%list.
    rewrite forallb_app, (forallb_weaken _ _ _ digit_not_LF HQ).
    cbn [forallb andb]. now rewrite (digit_not_LF _ Hd).
  - unfold L. cbn [app]. split; [assumption|].
    match goal with
    | |- isSpace (List.last ?l _) = false =>
        replace l with ((N ++ ":"%char :: " "%char :: q0 :: Q) ++ [d])%list by list_eq
    end.
    rewrite last_app_cons. cbn [List.last]. now apply digit_not_space.
  - unfold L. cbn [app length]. rewrite !length_app. cbn [length]. rewrite length_app.
    cbn [length]. lia.
  - cbn [patterns tryPatterns]. unfold attempt.
    unfold exec. rewrite chars_str. unfold L.
    rewrite (searchFrom_here _ _ _ _ (pattern0_without_unit n0 N q0 Q d Hdot Hcolon HQ Hd)).
    cbn [fields Nat.eqb group groups lookupGroup toStringArg accepted snd].
    rewrite <- EQ, <- EN, !str_chars, Hpos.
    assert (Hnt : truthyString nm = true) by (destruct nm; [discriminate EN|reflexivity]).
    rewrite Hnt. cbn [str string_of_list_ascii truthyString andb].
    now rewrite (digit_unit _ Hd).
Qed.

Lemma colon_line_without_unit_witness :
  extractMaterialsFromText ("Concrete blocks" ++ ": " ++ "12" ++ String "0" "") =
  [ {| name := cleanMaterialName "Concrete blocks"; quantity := parseFloat "12";
       unit := Just "0"; unitPrice := 0; totalPrice := 0 |} ].
Proof.
  apply colon_line_without_unit; reflexivity.
Defined.

(** *** Several lines *)

Lemma splitAcc_app sep l1 l2 : forall cur,
  splitAcc sep cur (l1 ++ sep :: l2) = (splitAcc sep cur l1 ++ splitAcc sep [] l2)%list.
Proof.
  induction l1 as [|a l1 IH]; intros cur; cbn [app splitAcc].
  - now rewrite Ascii.eqb_refl.
  - destruct (Ascii.eqb a sep); [now rewrite IH|apply IH].
Qed.

Lemma take_take_app {A} n (l k : list A) :
  take n (take n l ++ take n k) = take n (l ++ k).
Proof.
  rewrite !take_app, take_take, length_take, take_take.
  f_equal; f_equal; lia.
Qed.

(** X10. Lines are read independently of each other: the result for two
    texts joined by a line feed is the result for the first followed by
    the result for the second, cut at 50 materials. *)
Theorem extract_joined_texts text1 text2 :
  extractMaterialsFromText (text1 ++ String LF text2) =
  take 50 (extractMaterialsFromText text1 ++ extractMaterialsFromText text2).
Proof.
  rewrite !extract_take, take_take_app. f_equal.
  unfold matchedMaterials, split.
  rewrite chars_app. change (chars (String LF text2)) with (LF :: chars text2).
  now rewrite splitAcc_app, omap_app.
Qed.

End LineProofs.

(** ** The pricing resolver of analyze-construction *)
Module PricingProofs.
Import JS AnalyzeConstruction AnalyzeConstructionSpec ExtractorSpec.
Import JSFacts StringFacts AnalyzeConstructionProofs.

(** *** Which entry is selected *)

Ltac shadowed_case :=
  match goal with
  | Hk : includes ?s ?k = true, H0 : includes ?s ?k0 = false |- _ =>
      rewrite (includes_trans s k k0 Hk) in H0;
      [discriminate | vm_compute; reflexivity]
  end.

Lemma findMaterialKey_not_shadowed materialName key prices :
  findMaterialKey materialName = Some (key, prices) -> ~ In key shadowedKeys.
Proof.
  intros H Hin. unfold findMaterialKey, priceDatabase in H. cbn [find fst] in H.
  repeat match type of H with
  | (if includes ?a ?b then _ else _) = _ =>
      destruct (includes a b) eqn:?;
      [injection H as <- <-;
       first [ shadowed_case
             | simpl in Hin; repeat (destruct Hin as [Hin|Hin]; [discriminate|]);
               destruct Hin ]
      |]
  end.
  discriminate.
Qed.

(** *** Which numbers are returned *)

Lemma get_member {A} (o : object A) k m :
  get o k = Some (Member m) -> m = k /\ inherited k = true.
Proof.
  unfold get. destruct (ownProperty o k); [discriminate|].
  destruct (inherited k); [|discriminate]. intros [= <-]. auto.
Qed.

Lemma get_just {A} (o : object A) k a :
  get o k = Some (Just a) -> exists k', In (k', a) o.
Proof.
  unfold get. destruct (ownProperty o k) as [b|] eqn:Ho.
  - intros [= <-]. eapply ownProperty_In; eassumption.
  - destruct (inherited k); discriminate.
Qed.

Lemma fallback_values unit p :
  orElse truthyNumber (get fallbackPrices unit) 5%float = Just p ->
  (exists u, In (u, p) fallbackPrices) \/ p = 5%float.
Proof.
  unfold orElse, truthy. destruct (get fallbackPrices unit) as [[a|m]|] eqn:Hg.
  - destruct (truthyNumber a); intros [= <-]; [left|now right].
    eapply get_just; eassumption.
  - discriminate.
  - intros [= <-]. now right.
Qed.

(** A number returned by the resolver is declared in the sub-table of the
    entry found, or in [fallbackPrices], or is the flat default. *)
Lemma getMarketPrice_values materialName unit p :
  getMarketPrice materialName unit = Just p ->
  (exists key prices u,
     findMaterialKey materialName = Some (key, prices) /\ In (u, p) prices) \/
  (exists u, In (u, p) fallbackPrices) \/ p = 5%float.
Proof.
  unfold getMarketPrice.
  destruct (findMaterialKey materialName) as [[key prices]|];
    [|intros H; right; now apply fallback_values in H].
  destruct (truthyString key && truthy truthyNumber (get prices unit));
    [|intros H; right; now apply fallback_values in H].
  destruct (get prices unit) as [[a|m]|] eqn:Hg.
  - intros [= <-]. left. apply get_just in Hg as [u Hu]. now exists key, prices, u.
  - discriminate.
  - intros H; right; now apply fallback_values in H.
Qed.

Lemma getMarketPrice_member materialName unit k :
  getMarketPrice materialName unit = Member k -> k = unit /\ inherited unit = true.
Proof.
  assert (Hf : orElse truthyNumber (get fallbackPrices unit) 5%float = Member k ->
               k = unit /\ inherited unit = true).
  { unfold orElse, truthy. destruct (get fallbackPrices unit) as [[a|m]|] eqn:Hg.
    - destruct (truthyNumber a); discriminate.
    - intros [= <-]. now apply get_member in Hg.
    - discriminate. }
  unfold getMarketPrice.
  destruct (findMaterialKey materialName) as [[key prices]|]; [|exact Hf].
  destruct (truthyString key && truthy truthyNumber (get prices unit)); [|exact Hf].
  destruct (get prices unit) as [[a|m]|] eqn:Hg; [discriminate| |exact Hf].
  intros [= <-]. now apply get_member in Hg.
Qed.

Lemma declared_prices_positive :
  forallb (fun entry => forallb (fun kv => gt0 (snd kv)) (snd entry)) priceDatabase
  && forallb (fun kv => gt0 (snd kv)) fallbackPrices = true.
Proof. vm_compute. reflexivity. Qed.

(** X11. The resolver never returns 0, a negative number or NaN: what it
    returns is a number above zero, or, when the unit is the name of a
    member of [Object.prototype], that member. *)
Theorem getMarketPrice_positive materialName unit :
  match getMarketPrice materialName unit with
  | Just p => gt0 p = true
  | Member k => k = unit /\ inherited unit = true
  end.
Proof.
  destruct (getMarketPrice materialName unit) as [p|k] eqn:H;
    [|now apply getMarketPrice_member in H].
  pose proof declared_prices_positive as Hd. apply andb_prop in Hd as [Hd Hf].
  apply getMarketPrice_values in H as [(key & prices & u & Hk & Hu)|[[u Hu]| ->]].
  - apply find_In in Hk as [Hk _].
    rewrite forallb_forall in Hd. specialize (Hd _ Hk). simpl in Hd.
    rewrite forallb_forall in Hd. exact (Hd _ Hu).
  - rewrite forallb_forall in Hf. exact (Hf _ Hu).
  - reflexivity.
Qed.

(** X12. Seven keywords of [priceDatabase] are never the entry found,
    because a keyword declared before them is a substring of them:
    [concrete] comes before [ready mix concrete], [lumber] before the
    three sized lumbers, [saw] before [circular saw], [wire] before
    [electrical wire] and [pipe] before [pvc pipe]. So the prices
    declared only under these keywords, 12.5, 18.5 and 180, are never
    returned, whatever the name and the unit. *)
Theorem shadowed_keywords_never_selected materialName :
  (forall key prices,
     findMaterialKey materialName = Some (key, prices) -> ~ In key shadowedKeys) /\
  (forall unit,
     getMarketPrice materialName unit <> Just 12.5%float /\
     getMarketPrice materialName unit <> Just 18.5%float /\
     getMarketPrice materialName unit <> Just 180%float).
Proof.
  split; [intros key prices; apply findMaterialKey_not_shadowed|].
  assert (Hv : forall unit p,
             getMarketPrice materialName unit = Just p ->
             (PrimFloat.eqb p 12.5 || PrimFloat.eqb p 18.5 || PrimFloat.eqb p 180)%float = false).
  { intros unit p H.
    apply getMarketPrice_values in H as [(key & prices & u & Hk & Hu)|[[u Hu]| ->]].
    - pose proof (findMaterialKey_not_shadowed _ _ _ Hk) as Hs.
      apply find_In in Hk as [Hk _]. simpl in Hk.
      repeat (destruct Hk as [[= <- <-]|Hk];
              [first [ exfalso; apply Hs; vm_compute; tauto
                     | simpl in Hu;
                       repeat (destruct Hu as [[= _ <-]|Hu]; [vm_compute; reflexivity|]);
                       destruct Hu ]|]).
      destruct Hk.
    - simpl in Hu.
      repeat (destruct Hu as [[= _ <-]|Hu]; [vm_compute; reflexivity|]).
      destruct Hu.
    - vm_compute. reflexivity. }
  intros unit. repeat split; intros H; apply Hv in H; vm_compute in H; discriminate.
Qed.

End PricingProofs.

(** ** The project name of a quotation *)
Module QuotationProofs.
Import JS AnalyzeConstruction MatcherSpec ExtractorSpec.
Import JSFacts StringFacts MatcherProofs ExtractorProofs.

(** A match of the extension pattern is a point and a non-empty run of
    the class, up to the end of the text. *)
Lemma matches_extension w rest c c' :
  matches extensionPattern w rest c c' ->
  exists e, w = ("."%char :: e)%list /\ e <> [] /\ rest = [] /\
            forallb (noneOf ["/"%char; "."%char]) e = true.
Proof.
  unfold extensionPattern. intros H. invert_matches.
  match goal with H : isChar _ _ = true |- _ => apply Ascii.eqb_eq in H; subst end.
  exists w0. rewrite app_nil_r. auto.
Qed.

(** X13. The project name of a quotation is the video name without its
    extension: when the name ends with a point followed by a non-empty
    run of characters other than the point and the slash, that point
    and the run are removed, and only they. *)
Theorem removeExtension_strips_last_extension base ext :
  truthyString ext = true ->
  forallb (noneOf ["/"%char; "."%char]) (chars ext) = true ->
  removeExtension (base ++ "." ++ ext) = base.
Proof.
  intros Hne Hext. unfold removeExtension. fold extensionPattern. unfold exec.
  change (base ++ "." ++ ext) with (base ++ String "." ext).
  rewrite chars_app. change (chars (String "." ext)) with ("."%char :: chars ext).
  rewrite searchFrom_skip.
  - apply truthyString_chars in Hne as (e0 & e & He). rewrite He in *.
    simpl in Hext. apply andb_prop in Hext as [He0 Hes].
    assert (Hm : matchHere extensionPattern (rev (chars base) ++ []) ("."%char :: e0 :: e) =
                 Some {| before := str (rev (rev (chars base) ++ []));
                         matched := str ("."%char :: e0 :: e);
                         after := ""; groups := [] |}).
    { unfold matchHere, extensionPattern. cbn [run]. rewrite Ascii.eqb_refl, He0.
      rewrite <- (app_nil_r e) at 1.
      erewrite star_max; [|exact Hes|exact I|cbn [run]; reflexivity].
      do 2 f_equal. apply (consumed_eq _ ("."%char :: e0 :: e) []).
      now rewrite app_nil_r. }
    cbn [searchFrom]. rewrite Hm. simpl.
    now rewrite app_nil_r, rev_involutive, str_chars, string_app_nil_r.
  - intros x y pre' E Hy.
    destruct (matchHere extensionPattern pre' (y ++ "."%char :: chars ext)) eqn:Hm;
      [|reflexivity].
    exfalso. apply matchHere_sound in Hm as (w & rest & c & Hs & Hw & _).
    apply matches_extension in Hw as (e & -> & _ & -> & He).
    rewrite app_nil_r in Hs. destruct y as [|y0 y]; [congruence|].
    injection Hs as _ <-. rewrite forallb_app in He.
    apply andb_prop in He as [_ He]. discriminate.
Qed.

Lemma removeExtension_strips_last_extension_witness :
  removeExtension ("site.v2" ++ "." ++ "mp4") = "site.v2".
Proof.
  apply removeExtension_strips_last_extension; reflexivity.
Defined.

(** X14. A video name that does not end that way (no point at all, a
    point at the very end, a slash after the last point) is kept as the
    project name unchanged. *)
Theorem removeExtension_keeps_other_names videoName :
  endsWithExtension videoName = false -> removeExtension videoName = videoName.
Proof.
  intros H. unfold removeExtension. fold extensionPattern.
  destruct (exec extensionPattern videoName) as [m|] eqn:Hm; [|reflexivity].
  exfalso. apply exec_sound in Hm as (skipped & w & rest & Hs & Hw & _).
  apply matches_extension in Hw as (e & -> & Hne & -> & He).
  unfold endsWithExtension in H. rewrite Hs, app_nil_r, rev_app_distr in H.
  cbn [rev] in H. rewrite <- !app_assoc in H. cbn [app] in H.
  assert (Hr : forallb (noneOf ["/"%char; "."%char]) (rev e) = true).
  { rewrite forallb_forall in *. intros c Hc. apply He. now apply in_rev. }
  rewrite (takeWhile_run _ _ _ Hr), (dropWhile_run _ _ _ Hr) in H by reflexivity.
  destruct (rev e) eqn:Er; [|discriminate].
  apply (f_equal (@rev _)) in Er. rewrite rev_involutive in Er. contradiction.
Qed.

Lemma removeExtension_keeps_other_names_witness :
  removeExtension "site/v1.0/clip" = "site/v1.0/clip".
Proof.
  apply removeExtension_keeps_other_names. reflexivity.
Defined.

End QuotationProofs.

(** ** process-media: file names, and what a request is answered *)
Module UploadProofs.
Import JS ProcessMedia ProcessMediaSpec UploadSpec.
Import JSFacts StringFacts ExtractorProofs ProcessMediaProofs.

(** *** [getExtension] *)

Lemma extChar_inv c : extChar c = true -> isChar "/" c = false /\ isChar "." c = false.
Proof.
  unfold extChar, noneOf, oneOf. cbn [existsb]. rewrite orb_false_r.
  intros H. apply negb_true_iff, orb_false_iff in H. exact H.
Qed.

(** Once the end of the last component is known and no point has been
    seen, the loop passes over characters that are neither point nor
    slash. *)
Lemma extnameLoop_extension e : forall i rest st x,
  forallb extChar e = true -> startDot st = None -> endIndex st = Some x ->
  extnameLoop (length e + i) (e ++ rest) st = extnameLoop i rest st.
Proof.
  induction e as [|c e IH]; intros i rest st x He Hsd Hend; [reflexivity|].
  cbn [forallb] in He. apply andb_prop in He as [Hc He].
  apply extChar_inv in Hc as [Hslash Hdot].
  cbn [length app Nat.add extnameLoop]. rewrite Hslash, Hdot, Hend, Hsd.
  now apply (IH i rest st x).
Qed.

(** After the point of the extension the loop keeps [startDot] and
    [endIndex], and once a character of the component has been seen
    before the point, [preDotState] is no longer 0. *)
Lemma extnameLoop_before_point rest : forall i st sd e,
  startDot st = Some sd -> endIndex st = Some e -> matchedSlash st = false ->
  let st' := extnameLoop i rest st in
  startDot st' = Some sd /\ endIndex st' = Some e /\
  (preDotState st <> PreDotNone -> preDotState st' <> PreDotNone).
Proof.
  induction rest as [|c rest IH]; intros i st sd e Hsd Hend Hms; cbn zeta.
  - destruct i; cbn [extnameLoop]; auto.
  - destruct i as [|j]; cbn [extnameLoop]; [auto|].
    destruct (isChar "/" c).
    + rewrite Hms. cbn. auto.
    + rewrite Hend, Hsd.
      destruct (isChar "." c);
        match goal with
        | |- context [extnameLoop j rest ?st2] =>
            destruct (IH j st2 sd e eq_refl Hend Hms) as (H1 & H2 & H3)
        end;
        (split; [exact H1|]); (split; [exact H2|]); intros _; apply H3; discriminate.
Qed.

(** The scan of "<base>.<ext>". *)
Lemma extnameLoop_name B E :
  E <> [] -> forallb extChar E = true ->
  let st := extnameLoop (length (B ++ "."%char :: E)) (rev (B ++ "."%char :: E)) scanStart in
  startDot st = Some (length B) /\
  endIndex st = Some (length B + 1 + length E) /\
  (preDotState st = PreDotNone <->
   match rev B with [] => True | c :: _ => isChar "/" c = true end).
Proof.
  intros Hne HE. cbn zeta.
  assert (Hrev : forallb extChar (rev E) = true).
  { rewrite forallb_forall in *. intros c Hc. apply HE. now apply in_rev. }
  rewrite rev_app_distr. cbn [rev]. rewrite <- app_assoc. cbn [app].
  destruct (rev E) as [|c e] eqn:Er.
  { apply (f_equal (@rev _)) in Er. rewrite rev_involutive in Er. contradiction. }
  assert (Hlen : length E = S (length e)).
  { rewrite <- (length_rev E), Er. reflexivity. }
  cbn [forallb] in Hrev. apply andb_prop in Hrev as [Hc He].
  apply extChar_inv in Hc as [Hslash Hdot].
  rewrite length_app. cbn [length].
  replace (length B + S (length E)) with (S (length e + S (length B))) by lia.
  cbn [app extnameLoop]. rewrite Hslash, Hdot. cbn [endIndex startDot scanStart].
  erewrite extnameLoop_extension; [|exact He|reflexivity|reflexivity].
  cbn [extnameLoop]. replace (isChar "/" "."%char) with false by reflexivity.
  replace (isChar "." "."%char) with true by reflexivity.
  cbn [endIndex startDot].
  replace (length e + S (length B) + 1) with (length B + 1 + length E) by lia.
  set (n := length B). set (m := n + 1 + length E).
  assert (HB : n = length (rev B)) by (symmetry; apply length_rev).
  clearbody n m. rewrite HB. clear HB.
  destruct (rev B) as [|b r].
  - cbn. tauto.
  - cbn [length extnameLoop]. destruct (isChar "/" b) eqn:Hb.
    + cbn. tauto.
    + cbn [endIndex startDot].
      destruct (isChar "." b);
        match goal with
        | |- context [extnameLoop (length r) r ?st2] =>
            destruct (extnameLoop_before_point r (length r) st2 _ _ eq_refl eq_refl eq_refl)
              as (H1 & H2 & H3)
        end;
        cbn zeta in H1, H2, H3; rewrite H1, H2;
        (split; [reflexivity|]); (split; [reflexivity|]);
        (split; [intros H; exfalso; apply H3; [discriminate|exact H]|discriminate]).
Qed.

Lemma slice_suffix {A} (l1 l2 : list A) :
  slice (length l1) (length l1 + length l2) (l1 ++ l2) = l2.
Proof.
  unfold slice. rewrite skipn_app, skipn_all, Nat.sub_diag. cbn [skipn app].
  replace (length l1 + length l2 - length l1) with (length l2) by lia.
  apply firstn_all.
Qed.

(** X15. The extension of a file name "<base>.<ext>", where <ext> is not
    empty and has neither point nor slash: lower-cased <ext>, unless
    the point begins the last path component (the base is empty or ends
    with a slash), in which case the name has no extension. *)
Theorem getExtension_of_file_name base ext :
  truthyString ext = true -> forallb extChar (chars ext) = true ->
  getExtension (base ++ "." ++ ext) = if endsPart base then "" else toLowerCase ext.
Proof.
  intros Hne He. apply truthyString_chars in Hne as (e0 & e & Ee).
  unfold getExtension, extname.
  rewrite <- length_chars.
  replace (chars (base ++ "." ++ ext)) with (chars base ++ "."%char :: chars ext)%list
    by (now rewrite !chars_app).
  fold scanStart.
  destruct (extnameLoop_name (chars base) (chars ext)) as (Hsd & Hend & Hpre);
    [now rewrite Ee|assumption|].
  cbn zeta in Hsd, Hend, Hpre. rewrite Hsd, Hend.
  unfold endsPart.
  assert (Hslice : slice (length (chars base)) (length (chars base) + 1 + length (chars ext))
                     (chars base ++ "."%char :: chars ext) = "."%char :: chars ext).
  { replace (length (chars base) + 1 + length (chars ext))
      with (length (chars base) + length ("."%char :: chars ext)) by (cbn [length]; lia).
    apply slice_suffix. }
  rewrite Hslice.
  assert (Hlower : sliceFrom1 (toLowerCase (str ("."%char :: chars ext))) = toLowerCase ext).
  { unfold toLowerCase. rewrite chars_str. reflexivity. }
  assert (Hnot : (length (chars base) =? length (chars base) + 1 + length (chars ext) - 1)%nat = false).
  { apply Nat.eqb_neq. rewrite Ee. cbn [length]. lia. }
  destruct (preDotState _) eqn:Hp.
  - destruct (rev (chars base)) as [|b r].
    + reflexivity.
    + now rewrite (proj1 Hpre eq_refl).
  - rewrite Hnot. cbn [andb]. rewrite Hlower.
    destruct (rev (chars base)) as [|b r].
    + discriminate (proj2 Hpre I).
    + destruct (isChar "/" b); [discriminate (proj2 Hpre eq_refl)|reflexivity].
  - rewrite Hlower.
    destruct (rev (chars base)) as [|b r].
    + discriminate (proj2 Hpre I).
    + destruct (isChar "/" b); [discriminate (proj2 Hpre eq_refl)|reflexivity].
Qed.

Lemma getExtension_of_file_name_witness :
  getExtension ("site/wall.v2" ++ "." ++ "MP4") =
  (if endsPart "site/wall.v2" then "" else toLowerCase "MP4").
Proof.
  apply getExtension_of_file_name; reflexivity.
Defined.

Lemma getExtension_no_upper filename :
  forallb (fun c => negb (between 65 90 c)) (chars (getExtension filename)) = true.
Proof.
  unfold getExtension. pose proof (toLowerCase_no_upper (extname filename)) as H.
  destruct (toLowerCase (extname filename)) as [|c s]; [reflexivity|].
  cbn [sliceFrom1]. change (chars (String c s)) with (c :: chars s) in H.
  cbn [forallb] in H. now apply andb_prop in H as [_ H].
Qed.

(** X16. The extension check [ext in kSupportedList] of the upload loop
    accepts six extensions: the four declared ones and, because [in]
    also finds the members of [Object.prototype], [constructor] and
    [__proto__]; the other member names have an upper-case letter and
    the extension is lower-cased first. *)
Theorem supported_extensions file :
  supported file = true <-> In (getExtension (name file)) acceptedExtensions.
Proof.
  unfold supported, acceptedExtensions. split.
  - unfold hasProperty, get.
    destruct (ownProperty kSupportedList (getExtension (name file))) as [entry|] eqn:Ho.
    + intros _. revert Ho. unfold kSupportedList. cbn [ownProperty].
      repeat match goal with
      | |- (if String.eqb ?k ?e then _ else _) = _ -> _ =>
          let H := fresh "H" in
          destruct (String.eqb k e) eqn:H;
          [apply String.eqb_eq in H; rewrite <- H; intros _; cbn; tauto|]
      end.
      discriminate.
    + destruct (inherited (getExtension (name file))) eqn:Hi; [|discriminate].
      intros _. destruct (inherited_lower _ Hi (getExtension_no_upper _)) as [-> | ->];
        cbn; tauto.
  - cbn [In]. intros H.
    repeat (destruct H as [<-|H]; [reflexivity|]). destruct H.
Qed.

(** *** Uploads *)

(** X17. A single file whose extension is [constructor] or [__proto__]
    is uploaded like a supported one, though it is neither image nor
    video: the request is answered 200 and a session is stored whose
    media tag has an empty element name and an empty MIME type, since
    [mediaType] and [mimeType] find no entry of their own. *)
Theorem prototype_member_extension_is_uploaded env ct sessions filename ext :
  getExtension filename = ext ->
  ext = "constructor" \/ ext = "__proto__" ->
  includes ct "multipart/form-data" = true ->
  POST env (mkRequest ct None (FormData [mkFile filename])) sessions =
  (<[newSessionId env 1 :=
       {| assetList := ["dummy_asset_" ++ pretty (now env 0)];
          extList := [ext];
          mediaContent := "< src=" ++ quote ++ "data:;asset_id," ++
                          "dummy_asset_" ++ pretty (now env 0) ++ quote ++ " />";
          uploadedAt := now env 2;
          hasVideo := false |}]> sessions,
   {| status := 200;
      payload := JsonUploaded (newSessionId env 1) "Files uploaded successfully" |}).
Proof.
  intros Hext Hproto Hct. unfold POST, handle. cbn [contentType action body].
  rewrite Hct. cbn [falsy andb handleUpload length Nat.eqb].
  unfold bind. cbn [forEach]. unfold bind, uploadFile, uploadAsset. cbn [name].
  rewrite Hext.
  assert (Hin : hasProperty kSupportedList ext = true)
    by (destruct Hproto as [-> | ->]; reflexivity).
  assert (Hmedia : mediaType ext = "") by (destruct Hproto as [-> | ->]; reflexivity).
  assert (Hmime : mimeType ext = "") by (destruct Hproto as [-> | ->]; reflexivity).
  rewrite Hin, Hmedia, Hmime. cbn [negb].
  unfold bind, ret, sessionsSet.
  cbn [String.eqb u_hasVideo u_assetList u_extList u_mediaContent length app andb
       Nat.add negb Nat.eqb].
  reflexivity.
Qed.

Lemma prototype_member_extension_is_uploaded_witness :
  POST exampleEnv (mkRequest "multipart/form-data; boundary=x" None
                     (FormData [mkFile "plan.constructor"])) afterUpload =
  (<[newSessionId exampleEnv 1 :=
       {| assetList := ["dummy_asset_" ++ pretty (now exampleEnv 0)];
          extList := ["constructor"];
          mediaContent := "< src=" ++ quote ++ "data:;asset_id," ++
                          "dummy_asset_" ++ pretty (now exampleEnv 0) ++ quote ++ " />";
          uploadedAt := now exampleEnv 2;
          hasVideo := false |}]> afterUpload,
   {| status := 200;
      payload := JsonUploaded (newSessionId exampleEnv 1) "Files uploaded successfully" |}).
Proof.
  apply prototype_member_extension_is_uploaded;
    [vm_compute; reflexivity|left; reflexivity|vm_compute; reflexivity].
Defined.

(** Without a point in the name the loop of [extname] finds no
    extension. *)
Lemma extnameLoop_no_point rest : forall i st,
  startDot st = None ->
  forallb (fun c => negb (isChar "." c)) rest = true ->
  startDot (extnameLoop i rest st) = None.
Proof.
  induction rest as [|c rest IH]; intros i st Hsd Hrest.
  - destruct i; exact Hsd.
  - destruct i as [|j]; cbn [extnameLoop]; [exact Hsd|].
    cbn [forallb] in Hrest. apply andb_prop in Hrest as [Hc Hrest].
    apply negb_true_iff in Hc. rewrite Hc.
    destruct (isChar "/" c).
    + destruct (negb (matchedSlash st)); [exact Hsd|now apply IH].
    + destruct (endIndex st); cbn [startDot]; rewrite Hsd; now apply IH.
Qed.

Lemma getExtension_no_point filename :
  forallb (fun c => negb (isChar "." c)) (chars filename) = true ->
  getExtension filename = "".
Proof.
  intros H. unfold getExtension, extname.
  rewrite extnameLoop_no_point; [reflexivity|reflexivity|].
  rewrite forallb_forall in *. intros c Hc. apply H. now apply in_rev.
Qed.

(** X18. An upload whose first file has a name without any point is
    answered 500 with the message that this file's format is not
    supported, whatever files follow, and the store is left as it
    was. *)
Theorem upload_without_extension_is_rejected env ct sessions filename files :
  forallb (fun c => negb (isChar "." c)) (chars filename) = true ->
  includes ct "multipart/form-data" = true ->
  POST env (mkRequest ct None (FormData (mkFile filename :: files))) sessions =
  (sessions,
   {| status := 500;
      payload := JsonError ("Error: " ++ filename ++ " format is not supported") |}).
Proof.
  intros Hname Hct. unfold POST, handle. cbn [contentType action body].
  rewrite Hct. cbn [falsy andb handleUpload length Nat.eqb].
  unfold bind at 1. cbn [forEach]. unfold bind at 1. unfold uploadFile. cbn [name].
  rewrite (getExtension_no_point _ Hname).
  replace (hasProperty kSupportedList "") with false by reflexivity.
  reflexivity.
Qed.

Lemma upload_without_extension_is_rejected_witness :
  POST exampleEnv (mkRequest "multipart/form-data; boundary=x" None
                     (FormData [mkFile "README"; mkFile "site.mp4"])) afterUpload =
  (afterUpload,
   {| status := 500;
      payload := JsonError ("Error: " ++ "README" ++ " format is not supported") |}).
Proof.
  apply upload_without_extension_is_rejected; vm_compute; reflexivity.
Defined.

(** The upload loop over files that all pass the extension check. *)
Lemma forEach_uploadFile_vars env files : forall vars sessions,
  forallb supported files = true ->
  forEach (uploadFile env) files vars sessions =
  (sessions,
   Return {| u_assetList :=
               (u_assetList vars ++
                map (assetIdAt env) (seq (length (u_assetList vars)) (length files)))%list;
             u_extList := (u_extList vars ++ map (fun f => getExtension (name f)) files)%list;
             u_mediaContent :=
               u_mediaContent vars ++ mediaTags env (length (u_assetList vars)) files;
             u_hasVideo := existsb isVideo files || u_hasVideo vars |}).
Proof.
  induction files as [|file files IH]; intros vars sessions Hs.
  - cbn [forEach length seq map mediaTags existsb orb]. unfold ret.
    rewrite !app_nil_r, string_app_nil_r. now destruct vars.
  - cbn [forallb] in Hs. apply andb_prop in Hs as [Hf Hs].
    cbn [forEach]. unfold bind at 1. unfold uploadFile, uploadAsset.
    unfold supported in Hf. rewrite Hf. cbn [negb]. unfold bind at 1. unfold ret at 1 2.
    rewrite IH by assumption.
    cbn [u_assetList u_extList u_mediaContent u_hasVideo length seq map mediaTags existsb].
    rewrite length_app. cbn [length]. rewrite Nat.add_1_r.
    rewrite <- !app_assoc. cbn [app].
    rewrite string_app_assoc.
    f_equal. f_equal. f_equal.
    change (isVideo file)
      with (String.eqb (mediaType (getExtension (name file))) "video").
    destruct (String.eqb (mediaType (getExtension (name file))) "video"); cbn [orb].
    + now rewrite orb_true_r.
    + reflexivity.
Qed.

(** X19. An upload of one or more files that all pass the extension
    check, with no video among two or more files, is answered 200 and
    stores one session under the generated identifier: one asset
    identifier and one extension per file, in file order, the media
    content made of one tag per file in that order, and the video flag
    set when a file is a video. Nothing else in the store changes. *)
Theorem accepted_upload_stores_its_files env request sessions files :
  isUpload request = true -> body request = FormData files ->
  files <> [] -> forallb supported files = true ->
  (existsb isVideo files = true -> length files = 1) ->
  POST env request sessions =
  (<[newSessionId env (length files) := uploadedSession env files]> sessions,
   {| status := 200;
      payload := JsonUploaded (newSessionId env (length files))
                              "Files uploaded successfully" |}).
Proof.
  intros Hup Hbody Hne Hs Hv. unfold POST, handle. unfold isUpload in Hup.
  rewrite Hup, Hbody. cbn [handleUpload].
  destruct files as [|file files']; [congruence|].
  remember (file :: files') as files eqn:Ef.
  replace (length files =? 0)%nat with false by (subst files; reflexivity).
  unfold bind at 1. rewrite forEach_uploadFile_vars by assumption.
  cbn [u_assetList u_extList u_mediaContent u_hasVideo length app].
  rewrite orb_false_r.
  assert (Hcheck : existsb isVideo files && negb (length files =? 1)%nat = false).
  { destruct (existsb isVideo files); [|reflexivity].
    rewrite (Hv eq_refl). reflexivity. }
  rewrite Hcheck. unfold bind, sessionsSet, ret. reflexivity.
Qed.

Lemma accepted_upload_stores_its_files_witness :
  POST exampleEnv (uploadRequest [mkFile "plan.png"; mkFile "detail.JPG"]) afterUpload =
  (<[newSessionId exampleEnv 2 :=
       uploadedSession exampleEnv [mkFile "plan.png"; mkFile "detail.JPG"]]> afterUpload,
   {| status := 200;
      payload := JsonUploaded (newSessionId exampleEnv 2) "Files uploaded successfully" |}).
Proof.
  apply (accepted_upload_stores_its_files exampleEnv
           (uploadRequest [mkFile "plan.png"; mkFile "detail.JPG"]) afterUpload
           [mkFile "plan.png"; mkFile "detail.JPG"]);
    [reflexivity|reflexivity|discriminate|vm_compute; reflexivity|
     vm_compute; discriminate].
Defined.

(** *** An upload, then a chat *)

(** An answer 200 that carries a session identifier comes from the
    upload branch, which stored a session under that identifier. *)
Lemma uploaded_answer_inv env request sessions sessionId message :
  snd (POST env request sessions) =
    {| status := 200; payload := JsonUploaded sessionId message |} ->
  truthyString sessionId = true /\
  exists data, fst (POST env request sessions) = <[sessionId := data]> sessions.
Proof.
  destruct (isUpload request) eqn:Hup.
  - destruct (body request) as [files|sid q st|] eqn:Hbody.
    + destruct (POST_upload env request sessions files Hup Hbody)
        as [[_ H]|[(_ & _ & _ & H)|[(_ & _ & _ & _ & H)|(_ & _ & _ & data & H & _)]]].
      * rewrite H. discriminate.
      * intros E. rewrite E in H. discriminate.
      * rewrite H. discriminate.
      * rewrite H. cbn [fst snd]. intros [= <- _]. split; [reflexivity|now exists data].
    + unfold POST, handle. unfold isUpload in Hup. rewrite Hup, Hbody. discriminate.
    + unfold POST, handle. unfold isUpload in Hup. rewrite Hup, Hbody. discriminate.
  - unfold POST, handle. unfold isUpload in Hup. rewrite Hup.
    destruct (bool_decide (action request = Some "chat")).
    + unfold handleChat. destruct (body request) as [files|sid q st|]; try discriminate.
      destruct (falsy sid); [discriminate|]. destruct (falsy q); [discriminate|].
      unfold bind, sessionsGet, chatWithMediaNvcf, ret, throw.
      destruct (sessions !! default "" sid); [|discriminate].
      destruct st; discriminate.
    + destruct (bool_decide (action request = Some "cleanup")); [|discriminate].
      unfold handleCleanup. destruct (body request) as [files|sid q st|]; try discriminate.
      unfold bind, sessionsHas, sessionsGet, sessionsDelete, ret, throw.
      destruct (falsy sid).
      * discriminate.
      * destruct (bool_decide (is_Some (sessions !! default "" sid))); [|discriminate].
        destruct (sessions !! default "" sid); [|discriminate].
        rewrite forEach_deleteAsset. discriminate.
Qed.

(** X20. After an upload that was answered 200 with a session
    identifier, a chat request that names this identifier and has a
    non-empty query is answered 200 with the placeholder text, as JSON
    or as an event stream, and leaves the store as the upload left
    it. *)
Theorem chat_after_upload_is_answered env env' request sessions sessionId message query stream :
  snd (POST env request sessions) =
    {| status := 200; payload := JsonUploaded sessionId message |} ->
  truthyString query = true ->
  POST env' (chatRequest sessionId query stream) (fst (POST env request sessions)) =
  (fst (POST env request sessions),
   {| status := 200;
      payload := if stream then EventStream placeholder else JsonChat placeholder |}).
Proof.
  intros Hup Hq. apply uploaded_answer_inv in Hup as (Hid & data & ->).
  unfold POST, handle, chatRequest. cbn [contentType action body].
  replace (includes "application/json" "multipart/form-data") with false by reflexivity.
  cbn [andb]. rewrite bool_decide_eq_true_2 by reflexivity.
  unfold handleChat, falsy. rewrite Hid, Hq. cbn [negb default].
  unfold bind, sessionsGet, chatWithMediaNvcf, ret.
  rewrite lookup_insert_eq. now destruct stream.
Qed.

Lemma chat_after_upload_is_answered_witness :
  POST exampleEnv (chatRequest exampleId "How long is the wall?" true)
    (fst (POST exampleEnv (uploadRequest [mkFile "site.mp4"]) ∅)) =
  (fst (POST exampleEnv (uploadRequest [mkFile "site.mp4"]) ∅),
   {| status := 200; payload := EventStream placeholder |}).
Proof.
  apply (chat_after_upload_is_answered exampleEnv exampleEnv
           (uploadRequest [mkFile "site.mp4"]) ∅ exampleId
           "Files uploaded successfully" "How long is the wall?" true);
    [vm_compute; reflexivity|reflexivity].
Defined.

(** A chat or cleanup request whose body is not JSON is answered 500
    with the text of what [request.json()] threw, and the store is left
    as it was. *)
Lemma unreadable_json_body env ct act content sessions :
  act = "chat" \/ act = "cleanup" ->
  (forall sessionId query stream, content <> Json sessionId query stream) ->
  POST env (mkRequest ct (Some act) content) sessions =
  (sessions, {| status := 500; payload := JsonError (stringOfError (jsonError env)) |}).
Proof.
  intros Hact Hbody. unfold POST, handle. cbn [contentType action body].
  assert (Hf : falsy (Some act) = false) by (destruct Hact as [-> | ->]; reflexivity).
  rewrite Hf, andb_false_r.
  destruct Hact as [-> | ->].
  - rewrite bool_decide_eq_true_2 by reflexivity.
    destruct content as [files|sid q st|];
      [reflexivity|now destruct (Hbody sid q st)|reflexivity].
  - rewrite bool_decide_eq_false_2 by discriminate.
    rewrite bool_decide_eq_true_2 by reflexivity.
    destruct content as [files|sid q st|];
      [reflexivity|now destruct (Hbody sid q st)|reflexivity].
Qed.

(** *** What the store holds *)

Lemma POST_preserves_stored env request sessions :
  (forall id data, sessions !! id = Some data -> StoredSession data) ->
  forall id data, fst (POST env request sessions) !! id = Some data -> StoredSession data.
Proof.
  intros IH id data.
  assert (Hother : (isUpload request = false \/ forall files, body request <> FormData files) ->
                   fst (POST env request sessions) !! id = Some data -> StoredSession data).
  { intros Hc. destruct (POST_other env request sessions Hc) as [-> | [id' ->]].
    - apply IH.
    - intros H. apply lookup_delete_Some in H as [_ H]. now apply (IH id). }
  destruct (isUpload request) eqn:Hup; [|apply Hother; now left].
  destruct (body request) as [files|sid q st|] eqn:Hbody;
    [|apply Hother; right; congruence|apply Hother; right; congruence].
  destruct (POST_upload env request sessions files Hup Hbody)
    as [[_ H]|[(_ & _ & H & _)|[(_ & _ & _ & _ & H)|(Hne & Hs & _ & data0 & H & Hext & Hlen & _)]]].
  - rewrite H. apply IH.
  - rewrite H. apply IH.
  - rewrite H. apply IH.
  - rewrite H. cbn [fst].
    destruct (decide (newSessionId env (length files) = id)) as [<-|Hid].
    + rewrite lookup_insert_eq. intros [= <-]. split.
      * intros E. rewrite E in Hlen. destruct files; [congruence|discriminate].
      * rewrite Hext. apply List.Forall_forall. intros ext Hin.
        apply in_map_iff in Hin as (file & <- & Hin).
        rewrite forallb_forall in Hs. apply (Hs _ Hin).
    + rewrite lookup_insert_ne by assumption. apply IH.
Qed.

(** X21. Every session of a store the server can reach holds at least
    one asset, and every extension recorded in it passed the check
    [ext in kSupportedList]. *)
Theorem stored_sessions_have_assets sessions :
  reachable sessions ->
  forall id data, sessions !! id = Some data -> StoredSession data.
Proof.
  induction 1 as [|env request sessions _ IH].
  - intros id data H. rewrite lookup_empty in H. discriminate.
  - now apply POST_preserves_stored.
Qed.

Lemma stored_sessions_have_assets_witness : StoredSession exampleSession.
Proof.
  apply (stored_sessions_have_assets afterUpload
           (reachable_POST exampleEnv (uploadRequest [mkFile "site.mp4"]) ∅ reachable_empty)
           exampleId).
  apply afterUpload_lookup.
Defined.

End UploadProofs.

(** ** export-quotation: what is answered, and what the document shows *)
Module ExportProofs.
Import JS ExportQuotation ExportQuotationSpec ExportSpec.
Import JSFacts StringFacts ExportQuotationProofs.

(** X22. The status of the answer depends on the request body alone,
    not on the headless browser. A body that cannot be read is answered
    500 "Export failed"; a body whose quotation is missing or falsy, 400.
    A truthy quotation for which the template throws (it is not checked
    against [QuotationData]; a member is missing or of another type) is
    answered 500 "Export failed" as well: the call in the [try] block
    throws, the [catch] block calls the template again, and that throw
    reaches the outer [catch]. Every other quotation is answered 200;
    when it is of the declared type the answer is the PDF made from the
    document handed to the page, or else the HTML response of the
    [catch] block. *)
Theorem export_status_depends_on_body_only fmt r c body :
  status (POST fmt r c body) = bodyStatus body /\
  match body with
  | Unreadable _ => POST fmt r c body = jsonResponse "Export failed" 500
  | Body None => POST fmt r c body = jsonResponse "Invalid quotation data" 400
  | Body (Some (IllTyped (Throw _))) =>
      POST fmt r c body = jsonResponse "Export failed" 500
  | Body (Some (IllTyped (Return document))) =>
      (exists buffer,
         pdf r (document (generatedOnInTry c)) = Return buffer /\
         contentType (POST fmt r c body) = "application/pdf" /\
         payload (POST fmt r c body) = Pdf buffer) \/
      (contentType (POST fmt r c body) = "text/html" /\
       payload (POST fmt r c body) = Html (document (generatedOnInCatch c)))
  | Body (Some (WellTyped quotation)) =>
      (exists buffer,
         pdf r (generateProfessionalHTML fmt (generatedOnInTry c) quotation) = Return buffer /\
         contentType (POST fmt r c body) = "application/pdf" /\
         payload (POST fmt r c body) = Pdf buffer) \/
      POST fmt r c body = htmlResponse fmt c quotation
  end.
Proof.
  destruct body as [error|[[quotation|[document|error]]|]];
    try (split; reflexivity);
    unfold POST, handle, renderPdf, htmlFallback, tryCatch, htmlResponse,
      callGenerateProfessionalHTML, bind, bodyStatus, templateThrows.
  - destruct (importPuppeteer r); [|split; [reflexivity|right; reflexivity]].
    destruct (launch r); [|split; [reflexivity|right; reflexivity]].
    destruct (newPage r); [|split; [reflexivity|right; reflexivity]].
    destruct (setContent r _); [|split; [reflexivity|right; reflexivity]].
    destruct (pdf r _) as [buffer|] eqn:Hpdf; [|split; [reflexivity|right; reflexivity]].
    destruct (close r); [|split; [reflexivity|right; reflexivity]].
    destruct (importStream r); [|split; [reflexivity|right; reflexivity]].
    split; [reflexivity|]. left. exists buffer. auto.
  - destruct (importPuppeteer r); [|split; [reflexivity|right; split; reflexivity]].
    destruct (launch r); [|split; [reflexivity|right; split; reflexivity]].
    destruct (newPage r); [|split; [reflexivity|right; split; reflexivity]].
    destruct (setContent r _); [|split; [reflexivity|right; split; reflexivity]].
    destruct (pdf r _) as [buffer|] eqn:Hpdf;
      [|split; [reflexivity|right; split; reflexivity]].
    destruct (close r); [|split; [reflexivity|right; split; reflexivity]].
    destruct (importStream r); [|split; [reflexivity|right; split; reflexivity]].
    split; [reflexivity|]. left. exists buffer. auto.
  - destruct (importPuppeteer r); [|split; reflexivity].
    destruct (launch r); [|split; reflexivity].
    destruct (newPage r); split; reflexivity.
Qed.

(** The empty object as the quotation: [quotation.materials] is
    undefined, so the template throws at [quotation.materials.length],
    in the [try] block and again in the [catch] block. *)
Lemma empty_object_is_answered_500 fmt r c message :
  POST fmt r c (Body (Some (IllTyped (Throw (TypeError message))))) =
  jsonResponse "Export failed" 500.
Proof.
  unfold POST, handle, renderPdf, htmlFallback, tryCatch,
    callGenerateProfessionalHTML, bind.
  destruct (importPuppeteer r); [|reflexivity].
  destruct (launch r); [|reflexivity].
  destruct (newPage r); reflexivity.
Qed.

(** *** The document *)

Lemma includes_head k rest : includes (k ++ rest) k = true.
Proof. apply includes_spec. now exists "", rest. Qed.

Lemma includes_app_r a b k : includes b k = true -> includes (a ++ b) k = true.
Proof.
  intros H. apply includes_spec in H as (pre & post & ->). apply includes_spec.
  exists (a ++ pre), post. now rewrite string_app_assoc.
Qed.

Lemma includes_app_l a b k : includes a k = true -> includes (a ++ b) k = true.
Proof.
  intros H. apply includes_spec in H as (pre & post & ->). apply includes_spec.
  exists pre, (post ++ b). now rewrite !string_app_assoc.
Qed.

Lemma includes_concat rows row :
  In row rows -> includes (String.concat "" rows) row = true.
Proof.
  induction rows as [|r rows IH]; [contradiction|]. intros [->|Hin].
  - destruct rows as [|r' rows]; cbn [String.concat].
    + rewrite <- (string_app_nil_r row) at 1. apply includes_head.
    + apply includes_head.
  - specialize (IH Hin). destruct rows as [|r' rows]; [contradiction|].
    change (String.concat "" (r :: r' :: rows))
      with (r ++ "" ++ String.concat "" (r' :: rows)).
    now apply includes_app_r.
Qed.

Ltac find_part :=
  repeat first [ apply includes_head | apply includes_app_r ].

(** X23. The document shows the texts of the quotation as they are
    given, without escaping: the project name, the date, the time of
    generation, and for every material its row, which holds the name
    and the unit of the material as given. *)
Theorem document_shows_texts_unescaped fmt generatedOn quotation :
  let document := generateProfessionalHTML fmt generatedOn quotation in
  includes document (projectName quotation) = true /\
  includes document (date quotation) = true /\
  includes document generatedOn = true /\
  Forall (fun material =>
            includes document (materialRow fmt material) = true /\
            includes (materialRow fmt material) (name material) = true /\
            includes (materialRow fmt material) (unit material) = true)
         (materials quotation).
Proof.
  cbn zeta. unfold generateProfessionalHTML.
  split; [find_part|]. split; [find_part|]. split; [find_part|].
  apply List.Forall_forall. intros material Hin.
  split; [|split; unfold materialRow; find_part].
  repeat first [ apply includes_app_l; apply includes_concat; now apply in_map
               | apply includes_app_r ].
Qed.

End ExportProofs.
